(** * Retevis HA1G clone protocol: packet codec, handshake and region transfer

    A shallow embedding of the protocol engine of
    [chirp/drivers/retevis_ha1g.py]: the CRC-16 checksum, the packet
    encoder and validator, the handshake, the region download and upload
    loops and the two session entry points [do_download] and [do_upload].

    Python integers are [Z], byte strings are [list byte], exceptions are
    an explicit outcome, and the serial pipe is an abstract transport
    threaded through a state monad. *)

From Stdlib Require Import String Ascii.
From Stdlib Require Import Strings.Byte.
From Stdlib Require Import ZArith List Bool Lia.
Import ListNotations.
Open Scope Z_scope.

Set Implicit Arguments.

(** ** Bytes *)

Definition bytes := list byte.

(** The integer a byte stands for, as Python's [buf[i]] gives it. *)
Definition byte_val (b : byte) : Z := Z.of_N (Byte.to_N b).

(** The byte with value [z mod 256]. *)
Definition byte_of_Z (z : Z) : byte :=
  match Byte.of_N (Z.to_N (z mod 256)) with
  | Some b => b
  | None => x00
  end.

Fixpoint bytes_eqb (a b : bytes) : bool :=
  match a, b with
  | [], [] => true
  | x :: a', y :: b' => Byte.eqb x y && bytes_eqb a' b'
  | _, _ => false
  end.

(** ** Python slicing

    [l[lo:hi]] with optional bounds; a negative bound counts from the
    end, and every bound is clipped to [0 .. len l]. *)

Definition clip_index (len i : Z) : Z :=
  if i <? 0 then Z.max 0 (i + len) else Z.min i len.

Definition py_slice {A} (lo hi : option Z) (l : list A) : list A :=
  let len := Z.of_nat (length l) in
  let lo' := match lo with Some i => clip_index len i | None => 0 end in
  let hi' := match hi with Some i => clip_index len i | None => len end in
  firstn (Z.to_nat (hi' - lo')) (skipn (Z.to_nat lo') l).

(** Slice assignment [l[lo:hi] = v] on a bytearray. *)
Definition py_slice_assign {A} (lo hi : Z) (v l : list A) : list A :=
  let len := Z.of_nat (length l) in
  let lo' := clip_index len lo in
  let hi' := Z.max lo' (clip_index len hi) in
  firstn (Z.to_nat lo') l ++ v ++ skipn (Z.to_nat hi') l.

(** ** Exceptions and outcomes *)

Inductive exn : Type :=
| RadioError (msg : string)
| ValueError (msg : string)
| IndexError
| StructError
| OverflowError
| ZeroDivisionError
| UnicodeEncodeError
| SerialException.

(** What running a piece of code gives: a value, a raised exception, or
    no answer because a loop ran out of the fuel it was given. *)
Inductive outcome (A : Type) : Type :=
| Ok (a : A)
| Raise (e : exn)
| Diverge.

Arguments Ok {A} a.
Arguments Raise {A} e.
Arguments Diverge {A}.

(** ** [struct.pack] with a little-endian format *)

Inductive field : Type :=
| Fs (n : Z) (b : bytes)     (* "<n>s": exactly n bytes, cut or zero padded *)
| FB (v : Z)                 (* "B" *)
| FH (v : Z).                (* "H" *)

Definition le16 (v : Z) : bytes := [byte_of_Z v; byte_of_Z (v / 256)].

Definition pack_field (f : field) : outcome bytes :=
  match f with
  | Fs n b =>
      if n <? 0 then Raise StructError
      else Ok (firstn (Z.to_nat n) b
               ++ repeat x00 (Z.to_nat n - length b))
  | FB v =>
      if (0 <=? v) && (v <=? 255) then Ok [byte_of_Z v]
      else Raise StructError
  | FH v =>
      if (0 <=? v) && (v <=? 65535) then Ok (le16 v)
      else Raise StructError
  end.

Fixpoint struct_pack (fs : list field) : outcome bytes :=
  match fs with
  | [] => Ok []
  | f :: rest =>
      match pack_field f with
      | Ok b =>
          match struct_pack rest with
          | Ok bs => Ok (b ++ bs)
          | Raise e => Raise e
          | Diverge => Diverge
          end
      | Raise e => Raise e
      | Diverge => Diverge
      end
  end.

(** ** Checksum unit: [calculate_crc16] *)

Module Crc.

(** One turn of the inner loop:
    [if crc & 0x0001: crc = (crc >> 1) ^ 0xA001 else: crc >>= 1]. *)
Definition crc_shift (crc : Z) : Z :=
  if negb (Z.land crc 1 =? 0)
  then Z.lxor (Z.shiftr crc 1) 0xA001
  else Z.shiftr crc 1.

(** One turn of the outer loop: [crc ^= b] and eight shifts. *)
Definition crc_byte (crc : Z) (b : byte) : Z :=
  Nat.iter 8 crc_shift (Z.lxor crc (byte_val b)).

(** The register after the loop over [buf], starting from [0x0000]. *)
Definition crc_register (buf : bytes) : Z := fold_left crc_byte buf 0.

(** A second definition, following the words of the specification: the
    reflected CRC-16 with polynomial 0xA001 consumes the message one bit
    at a time, least significant bit of each byte first; the bit leaving
    the register on the right is added to the message bit, and the
    polynomial is added when that sum is one.  The register starts at
    zero and is returned as it is. *)
Definition byte_bits_lsb_first (b : byte) : list bool :=
  map (Z.testbit (byte_val b)) [0; 1; 2; 3; 4; 5; 6; 7].

Definition crc_feed_bit (reg : Z) (bit : bool) : Z :=
  if xorb (Z.odd reg) bit
  then Z.lxor (Z.shiftr reg 1) 0xA001
  else Z.shiftr reg 1.

Definition crc16_reflected (msg : bytes) : Z :=
  fold_left crc_feed_bit (flat_map byte_bits_lsb_first msg) 0.

End Crc.

(** [calculate_crc16]: the register packed by [struct.pack("<H", crc)].
    The register always fits sixteen bits ([crc_register_range] below),
    so the range check of the "H" format never fails here. *)
Definition calculate_crc16 (buf : bytes) : bytes :=
  le16 (Crc.crc_register buf).

Definition ascii_bytes (s : string) : bytes :=
  map byte_of_ascii (list_ascii_of_string s).


(** [str.encode("ascii")]: fails on a character above 127. *)
Definition encode_ascii (s : string) : outcome bytes :=
  if forallb (fun c => (N_of_ascii c <? 128)%N) (list_ascii_of_string s)
  then Ok (ascii_bytes s)
  else Raise UnicodeEncodeError.

(** [struct.unpack("<H", b)]: [b] must be exactly two bytes. *)
Definition unpack_H (b : bytes) : outcome Z :=
  match b with
  | [lo; hi] => Ok (byte_val lo + 256 * byte_val hi)
  | _ => Raise StructError
  end.

(** [v.to_bytes(2, "little")]. *)
Definition to_bytes_2_little (v : Z) : outcome bytes :=
  if (0 <=? v) && (v <=? 65535) then Ok (le16 v) else Raise OverflowError.

(** [math.ceil(a / b)], taken exactly. *)
Definition ceil_div (a b : Z) : outcome Z :=
  if b =? 0 then Raise ZeroDivisionError else Ok (- ((- a) / b)).

(** ** Radio models, handshake statuses and the region catalogue *)

Record Radio : Type := {
  MODEL : string;
  _memsize : Z;
  read_packet_len : Z;
  write_page_len : Z
}.

Definition HA1G : Radio :=
  {| MODEL := "HA1G"; _memsize := 0xD868;
     read_packet_len := 1047; write_page_len := 1024 |}.

Definition HA1UV : Radio :=
  {| MODEL := "HA1UV"; _memsize := 0xD868;
     read_packet_len := 1047; write_page_len := 1024 |}.

Inductive HandshakeStatuses : Type :=
| Normal
| Wrong
| PwdWrong
| RadioWrong.

Inductive MemoryRegions : Type :=
| radioHead
| radioInfo
| radioVer
| settingData
| zoneData
| channelData
| scanData
| vfoScanData
| alarmData
| dTMFData.

(** [item.value]. *)
Definition region_value (item : MemoryRegions) : Z :=
  match item with
  | radioHead => 2
  | radioInfo => 3
  | radioVer => 4
  | settingData => 6
  | zoneData => 7
  | channelData => 8
  | scanData => 11
  | vfoScanData => 12
  | alarmData => 13
  | dTMFData => 15
  end.

Definition region_eqb (a b : MemoryRegions) : bool :=
  region_value a =? region_value b.

(** [for item in MemoryRegions]: the members in definition order. *)
Definition all_regions : list MemoryRegions :=
  [radioHead; radioInfo; radioVer; settingData; zoneData; channelData;
   scanData; vfoScanData; alarmData; dTMFData].

(** (start address, length) of each region in the device image. *)
Definition MEMORY_REGIONS_RANGES : list (MemoryRegions * (Z * Z)) :=
  [(radioHead, (0, 14));
   (radioInfo, (14, 68));
   (radioVer, (82, 10));
   (settingData, (92, 100));
   (zoneData, (192, 3202));
   (channelData, (3394, 43136));
   (scanData, (46530, 3618));
   (vfoScanData, (50148, 68));
   (alarmData, (50244, 258));
   (dTMFData, (51272, 842))].

Fixpoint ranges_get (d : list (MemoryRegions * (Z * Z))) (item : MemoryRegions)
  : option (Z * Z) :=
  match d with
  | [] => None
  | (k, v) :: rest => if region_eqb item k then Some v else ranges_get rest item
  end.

(** ** Packet codec *)

(** [b"RDTP\x01\x00\x00\x00\x00\x00\x00\x00"] *)
Definition magic : bytes :=
  ascii_bytes "RDTP" ++ [x01; x00; x00; x00; x00; x00; x00; x00].

Definition get_send_packet_bytes
  (data_type packet_index data_code packet_count : Z) (data_buffer : bytes)
  : outcome bytes :=
  let data_len := Z.of_nat (length data_buffer) in
  match struct_pack [Fs 12 magic;
                     FH (data_len + 6);
                     FB (Z.land data_type 0xFF);
                     FB (Z.land data_code 0xFF);
                     FH (Z.land packet_index 0xFFFF);
                     FH (Z.land packet_count 0xFFFF);
                     Fs data_len data_buffer] with
  | Ok data_part => Ok (data_part ++ calculate_crc16 data_part ++ [xff])
  | Raise e => Raise e
  | Diverge => Diverge
  end.

(** [validate_packet].  The two indexings [current_packet_Byte[12]] and
    [[13]] come after the length test, so they are in range. *)
Definition validate_packet (current_packet_Byte : bytes) (chunk_size : Z)
  : bool :=
  let byteLen := Z.of_nat (length current_packet_Byte) in
  if byteLen <=? 13 then false
  else
    let packet_count := if 255 <? chunk_size then 256 else chunk_size + 1 in
    let b12 := byte_val (nth 12 current_packet_Byte x00) in
    let b13 := byte_val (nth 13 current_packet_Byte x00) in
    let data_len := (if 6 <? b12 then b12 - 6 else 0) + b13 * packet_count in
    if byteLen - 17 <? data_len then false
    else
      let crcBytes := py_slice (Some (-3)) (Some (-1)) current_packet_Byte in
      let crcStr :=
        calculate_crc16 (py_slice None (Some (-3)) current_packet_Byte) in
      bytes_eqb crcBytes crcStr.

Definition get_handshake_bytes (currentModel : string) : outcome bytes :=
  match encode_ascii currentModel with
  | Ok model_bytes =>
      let prefix := [x00; x00; x00; x00; x01; x00] in
      let padding_len := 41 - Z.of_nat (length model_bytes) in
      let padding := repeat x00 (Z.to_nat padding_len) in
      let data_len :=
        Z.of_nat (length prefix) + Z.of_nat (length model_bytes)
        + padding_len in
      match struct_pack [Fs 12 magic;
                         FH data_len;
                         Fs 6 prefix;
                         Fs (Z.of_nat (length model_bytes)) model_bytes;
                         Fs padding_len padding] with
      | Ok packet => Ok (packet ++ calculate_crc16 packet ++ [xff])
      | Raise e => Raise e
      | Diverge => Diverge
      end
  | Raise e => Raise e
  | Diverge => Diverge
  end.

(** [handshake_handle_connect_event]: [dataByte[20]] raises an index
    error on a response of twenty bytes or fewer. *)
Definition handshake_handle_connect_event (self : Radio) (dataByte : bytes)
  : outcome HandshakeStatuses :=
  if bytes_eqb (py_slice (Some 14) (Some 16) dataByte) [x00; x01] then
    match nth_error dataByte 20 with
    | None => Raise IndexError
    | Some b20 =>
        if negb (byte_val b20 =? 1) then
          let model_str := MODEL self in
          let radioType :=
            py_slice (Some 20)
                     (Some (20 + Z.of_nat (String.length model_str)))
                     dataByte in
          match encode_ascii model_str with
          | Ok m => if bytes_eqb radioType m then Ok Normal else Ok RadioWrong
          | Raise e => Raise e
          | Diverge => Diverge
          end
        else Ok PwdWrong
    end
  else Ok Wrong.

(** [get_write_item_bytes] *)
Definition get_write_item_bytes (all_bytes : bytes) (item : MemoryRegions)
  : bytes :=
  match ranges_get MEMORY_REGIONS_RANGES item with
  | None => []
  | Some (start, length) =>
      py_slice (Some start) (Some (start + length)) all_bytes
  end.

(** [read_item_handle_connect_event]: the bytearray after the call. *)
Definition read_item_handle_connect_event
  (all_bytes item_bytes : bytes) (item : MemoryRegions) : bytes :=
  match ranges_get MEMORY_REGIONS_RANGES item with
  | None => all_bytes
  | Some (start, length) =>
      let item_len := Z.min (Z.of_nat (List.length item_bytes)) length in
      py_slice_assign start (start + item_len)
                      (py_slice None (Some item_len) item_bytes) all_bytes
  end.

(** ** The serial pipe and the state of a session *)

(** What the driver needs from [self.pipe]: [write] may raise, [read(n)]
    gives the bytes that arrived (possibly none) or raises. *)
Class Transport (D : Type) : Type := {
  pipe_write : bytes -> D -> option exn * D;
  pipe_read : Z -> D -> (bytes + exn) * D
}.

(** What went over the wire, oldest first. *)
Inductive event : Type :=
| Sent (p : bytes)
| SendFailed (p : bytes)
| Received (r : bytes)
| ReceiveFailed.

Record World (D : Type) : Type := mkWorld {
  pipe : D;                 (* the device behind the serial line *)
  wire : list event;        (* every write and read made so far *)
  naps : nat;               (* number of [time.sleep(0.05)] calls *)
  status_cur : Z            (* [status.cur] *)
}.

Definition M (D A : Type) : Type := World D -> outcome A * World D.

Section Monad.
Context {D : Type}.

Definition ret {A} (a : A) : M D A := fun w => (Ok a, w).

Definition raise {A} (e : exn) : M D A := fun w => (Raise e, w).

Definition bind {A B} (m : M D A) (k : A -> M D B) : M D B :=
  fun w =>
    match m w with
    | (Ok a, w1) => k a w1
    | (Raise e, w1) => (Raise e, w1)
    | (Diverge, w1) => (Diverge, w1)
    end.

Definition lift {A} (o : outcome A) : M D A := fun w => (o, w).

(** [try: m  except Exception as e: h e] *)
Definition try_except {A} (m : M D A) (h : exn -> M D A) : M D A :=
  fun w =>
    match m w with
    | (Raise e, w1) => h e w1
    | r => r
    end.

(** [try: m  finally: c].  An exception raised by [c] replaces whatever
    [m] returned or raised. *)
Definition try_finally {A} (m : M D A) (c : M D unit) : M D A :=
  fun w =>
    match m w with
    | (Diverge, w1) => (Diverge, w1)
    | (r, w1) =>
        match c w1 with
        | (Ok _, w2) => (r, w2)
        | (Raise e, w2) => (Raise e, w2)
        | (Diverge, w2) => (Diverge, w2)
        end
    end.
End Monad.

Notation "x <- m ;; k" := (bind m (fun x => k))
  (at level 61, m at next level, right associativity).
Notation "m ;;; k" := (bind m (fun _ => k))
  (at level 61, right associativity).

Section Driver.
Context {D : Type} {T : Transport D}.

(** [serial.write(p)] *)
Definition serial_write (p : bytes) : M D unit :=
  fun w =>
    match pipe_write p (pipe w) with
    | (None, d) =>
        (Ok tt, mkWorld d (wire w ++ [Sent p]) (naps w) (status_cur w))
    | (Some e, d) =>
        (Raise e,
         mkWorld d (wire w ++ [SendFailed p]) (naps w) (status_cur w))
    end.

(** [serial.read(n)] *)
Definition serial_read (n : Z) : M D bytes :=
  fun w =>
    match pipe_read n (pipe w) with
    | (inl r, d) =>
        (Ok r, mkWorld d (wire w ++ [Received r]) (naps w) (status_cur w))
    | (inr e, d) =>
        (Raise e,
         mkWorld d (wire w ++ [ReceiveFailed]) (naps w) (status_cur w))
    end.

(** [time.sleep(0.05)] *)
Definition sleep : M D unit :=
  fun w => (Ok tt, mkWorld (pipe w) (wire w) (S (naps w)) (status_cur w)).

(** [status.cur = v] *)
Definition set_status_cur (v : Z) : M D unit :=
  fun w => (Ok tt, mkWorld (pipe w) (wire w) (naps w) v).

(** [status.cur += n; self.status_fn(status)]: the progress callback
    only observes. *)
Definition add_status_cur (n : Z) : M D unit :=
  fun w => (Ok tt, mkWorld (pipe w) (wire w) (naps w) (status_cur w + n)).

(** [exchange_block_with_radio]; [validate_packet] is called with its
    default [chunk_size=1024]. *)
Definition exchange_block_with_radio (send_byte : bytes) (chunk_size : Z)
  : M D (bool * bytes) :=
  serial_write send_byte ;;;
  new_bytes <- serial_read chunk_size ;;
  if validate_packet new_bytes 1024 then ret (true, new_bytes)
  else ret (false, new_bytes).

(** *** Handshake *)

(** The [for num in range(15)] loop with [n] turns left. *)
Fixpoint handshake_loop (self : Radio) (n : nat) (databytes : bytes)
  : M D bytes :=
  match n with
  | O => ret databytes
  | S n' =>
      pkt <- lift (get_handshake_bytes (MODEL self ++ " ")%string) ;;
      r <- exchange_block_with_radio pkt (read_packet_len self) ;;
      sleep ;;;
      if fst r then ret (snd r) else handshake_loop self n' (snd r)
  end.

Definition handshake (self : Radio) : M D HandshakeStatuses :=
  databytes <- handshake_loop self 15 [] ;;
  lift (handshake_handle_connect_event self databytes).

(** *** Download *)

(** The [while packet_index < packet_count] loop of
    [get_read_current_packet_bytes], with [fuel] turns allowed. *)
Fixpoint read_loop (self : Radio) (fuel : nat) (item : Z)
  (packet_index packet_count : Z) (item_bytes : bytes) : M D bytes :=
  if packet_index <? packet_count then
    match fuel with
    | O => lift Diverge
    | S fuel' =>
        idx <- lift (to_bytes_2_little packet_index) ;;
        pkt <- lift (get_send_packet_bytes item 0 2 1 idx) ;;
        r <- exchange_block_with_radio pkt (read_packet_len self) ;;
        let new_data_bytes := snd r in
        if negb (fst r)
           || ((14 <? Z.of_nat (length new_data_bytes))
               && negb (byte_val (nth 14 new_data_bytes x00) =? item))
        then raise (RadioError "radio reported failure")
        else
          packet_count' <-
            (if packet_index =? 0
             then lift (unpack_H (py_slice (Some 18) (Some 20)
                                           new_data_bytes))
             else ret packet_count) ;;
          add_status_cur (Z.of_nat (length new_data_bytes)) ;;;
          read_loop self fuel' item (packet_index + 1) packet_count'
                    (item_bytes
                     ++ py_slice (Some 20) (Some (-3)) new_data_bytes)
    end
  else ret item_bytes.

(** The packet count is a 16-bit field, so 65536 turns are enough
    ([read_loop_total] below). *)
Definition get_read_current_packet_bytes (self : Radio) (item : Z)
  : M D bytes :=
  read_loop self (Z.to_nat 65536) item 0 1 [].

Definition is_empty {A} (l : list A) : bool :=
  match l with [] => true | _ => false end.

(** The [for item in MemoryRegions] loop of [read_items] over the
    regions still to do. *)
Fixpoint read_regions (self : Radio) (items : list MemoryRegions)
  (all_bytes : bytes) : M D bytes :=
  match items with
  | [] => ret all_bytes
  | item :: rest =>
      all_bytes' <-
        try_except
          (item_bytes <-
             get_read_current_packet_bytes self (region_value item) ;;
           if negb (is_empty item_bytes)
           then ret (read_item_handle_connect_event
                       all_bytes item_bytes item)
           else ret all_bytes)
          (fun _ => ret all_bytes) ;;
      read_regions self rest all_bytes'
  end.

(** [bytearray(n)] *)
Definition bytearray (n : Z) : outcome bytes :=
  if n <? 0 then Raise (ValueError "negative count")
  else Ok (repeat x00 (Z.to_nat n)).

Definition read_items (self : Radio) : M D bytes :=
  all_bytes <- lift (bytearray (_memsize self)) ;;
  set_status_cur 0 ;;;
  read_regions self all_regions all_bytes.

(** *** Upload *)

(** The [for i in range(0, packet_count)] loop with [n] pages left,
    the next one being page [i]. *)
Fixpoint write_pages (self : Radio) (n : nat) (i : Z)
  (item_Bytes : bytes) (item packet_len packet_count : Z) : M D unit :=
  match n with
  | O => ret tt
  | S n' =>
      current_packet_bytes <-
        lift (get_send_packet_bytes item i 0 packet_count
                (py_slice (Some (i * packet_len))
                          (Some ((i + 1) * packet_len)) item_Bytes)) ;;
      r <- exchange_block_with_radio current_packet_bytes
                                     (read_packet_len self) ;;
      let new_data_bytes := snd r in
      if negb (fst r)
         || ((14 <? Z.of_nat (length new_data_bytes))
             && negb (byte_val (nth 14 new_data_bytes x00) =? item))
      then raise (RadioError "radio reported failure")
      else
        add_status_cur (Z.of_nat (length current_packet_bytes)) ;;;
        write_pages self n' (i + 1) item_Bytes item packet_len packet_count
  end.

(** [write_item_current_page_bytes]: [Some true] for [return True],
    [None] when the function ends without a [return]. *)
Definition write_item_current_page_bytes (self : Radio)
  (item_Bytes : bytes) (item : Z) : M D (option bool) :=
  if is_empty item_Bytes
  then raise (ValueError "item_bytes cannot be empty")
  else
    let packet_len := write_page_len self in
    packet_count <-
      lift (ceil_div (Z.of_nat (length item_Bytes)) packet_len) ;;
    if packet_count =? 0 then ret (Some true)
    else
      write_pages self (Z.to_nat packet_count) 0 item_Bytes item
                  packet_len packet_count ;;;
      ret None.

(** The [for item in MemoryRegions] loop of [write_items]. *)
Fixpoint write_regions (self : Radio) (items : list MemoryRegions)
  (data_bytes : bytes) : M D unit :=
  match items with
  | [] => ret tt
  | item :: rest =>
      if existsb (region_eqb item) [radioHead; radioInfo; radioVer; zoneData]
      then write_regions self rest data_bytes
      else
        let item_bytes := get_write_item_bytes data_bytes item in
        write_item_current_page_bytes self item_bytes (region_value item) ;;;
        write_regions self rest data_bytes
  end.

(** [write_items]; [mmap] is [self.get_mmap()]. *)
Definition write_items (self : Radio) (mmap : bytes) : M D unit :=
  set_status_cur 0 ;;;
  write_regions self all_regions mmap.

(** *** Session controller *)

Definition exit_programming_mode : M D unit :=
  let reboot_sign := 111 in
  let packet_index := 0 in
  let data_code := 0 in
  let packet_count := 1 in
  let data_buffer := [x00] in
  try_except
    (pkt <- lift (get_send_packet_bytes reboot_sign packet_index data_code
                    packet_count data_buffer) ;;
     serial_write pkt)
    (fun _ => raise (RadioError "Radio refused to exit programming mode")).

(** [error_map.get(handshake_result, default)] *)
Definition error_map_get (s : HandshakeStatuses) (default : string)
  : string :=
  match s with
  | RadioWrong => "Radio model mismatch"
  | PwdWrong => "Radio is password protected"
  | _ => default
  end.

Definition is_Normal (s : HandshakeStatuses) : bool :=
  match s with Normal => true | _ => false end.

(** [except errors.RadioError: raise] and
    [except Exception: raise RadioError("Unknown error ...")]. *)
Definition normalize_error {A} (e : exn) : M D A :=
  match e with
  | RadioError _ => raise e
  | _ => raise (RadioError "Unknown error communicating with radio")
  end.

(** The [try] block of [do_download] with its [except] clauses. *)
Definition do_download_guarded (self : Radio) : M D bytes :=
  try_except
    (handshake_result <- handshake self ;;
     if is_Normal handshake_result then read_items self
     else raise (RadioError
                   (error_map_get handshake_result
                      "Unknown error communicating with radio")))
    normalize_error.

Definition do_download (self : Radio) : M D bytes :=
  try_finally (do_download_guarded self) exit_programming_mode.

(** The [try] block of [do_upload] with its [except] clauses. *)
Definition do_upload_guarded (self : Radio) (mmap : bytes) : M D unit :=
  try_except
    (handshake_result <- handshake self ;;
     if is_Normal handshake_result then write_items self mmap
     else raise (RadioError
                   (error_map_get handshake_result
                      "Unknown error communicating with radio")))
    normalize_error.

Definition do_upload (self : Radio) (mmap : bytes) : M D unit :=
  try_finally (do_upload_guarded self mmap) exit_programming_mode.

End Driver.

(** The twenty bytes that [get_send_packet_bytes] puts before the
    payload. *)
Definition packet_header
  (data_type packet_index data_code packet_count data_len : Z) : bytes :=
  magic ++ le16 (data_len + 6)
  ++ [byte_of_Z (Z.land data_type 0xFF)]
  ++ [byte_of_Z (Z.land data_code 0xFF)]
  ++ le16 (Z.land packet_index 0xFFFF)
  ++ le16 (Z.land packet_count 0xFFFF).

(** ** A scripted device

    A device that answers the reads with the replies of a script, one
    reply per read and nothing once the script is used up, and that
    accepts a given number of writes before its line breaks. *)

Record Script : Type := mkScript {
  replies : list bytes;
  writes_left : nat
}.

#[global] Instance Script_transport : Transport Script := {|
  pipe_write := fun _ d =>
    match writes_left d with
    | O => (Some SerialException, d)
    | S n => (None, mkScript (replies d) n)
    end;
  pipe_read := fun _ d =>
    match replies d with
    | [] => (inl [], d)
    | r :: rest => (inl r, mkScript rest (writes_left d))
    end
|}.

(** The state before a session: nothing on the wire yet. *)
Definition fresh {D} (d : D) : World D := mkWorld d [] 0 0.

(** ** Reading the wire *)

(** The test both transfer loops make on a response:
    [not flag or (len(new_data_bytes) > 14 and new_data_bytes[14] != item)]. *)
Definition reply_rejected (item : Z) (new_data_bytes : bytes) : bool :=
  negb (validate_packet new_data_bytes 1024)
  || ((14 <? Z.of_nat (length new_data_bytes))
      && negb (byte_val (nth 14 new_data_bytes x00) =? item)).

(** The wire events of a list of completed exchanges. *)
Fixpoint exchanges (xs : list (bytes * bytes)) : list event :=
  match xs with
  | [] => []
  | (p, r) :: rest => Sent p :: Received r :: exchanges rest
  end.

(** The region id a request carries at byte 14. *)
Definition request_region (p : bytes) : Z := byte_val (nth 14 p x00).

Definition count_sent (tr : list event) : nat :=
  length (filter (fun e => match e with Sent _ => true | _ => false end) tr).

(** The packet [exit_programming_mode] writes. *)
Definition exit_packet : bytes :=
  magic ++ [x07; x00; x6f; x00; x00; x00; x01; x00; x00; x08; xb7; xff].

(** ** Outcomes of the transfer loops and of a session *)

(** [m] gives an answer, a value or an exception, from every state. *)
Definition halts {D A} (m : M D A) : Prop := forall w, fst (m w) <> Diverge.

(** An exchange that the transfer loops let pass: the response is not
    rejected for the region the request names. *)
Definition accepted (x : bytes * bytes) : Prop :=
  reply_rejected (request_region (fst x)) (snd x) = false.

(** Wire events of a step that ended without a response: nothing at all
    (an exception before the write), a write that failed, or a write
    followed by a read that failed. *)
Definition no_reply (last : list event) : Prop :=
  last = [] \/ exists p, last = [SendFailed p] \/ last = [Sent p; ReceiveFailed].

(** The shape of what a transfer loop leaves on the wire, by its outcome:
    accepted exchanges only when it returns; accepted exchanges and then
    one rejected exchange when it raises the communication failure for
    it; accepted exchanges and then a step without a response when it
    raises otherwise. *)
Inductive transfer_trace {A} : outcome A -> list event -> Prop :=
| trace_done (a : A) xs :
    Forall accepted xs -> transfer_trace (Ok a) (exchanges xs)
| trace_rejected xs p r :
    Forall accepted xs ->
    reply_rejected (request_region p) r = true ->
    transfer_trace (Raise (RadioError "radio reported failure"))
                   (exchanges xs ++ [Sent p; Received r])
| trace_broken xs e last :
    Forall accepted xs -> no_reply last ->
    transfer_trace (Raise e) (exchanges xs ++ last).

(** [m] adds to the wire a trace of the shape that goes with its
    outcome. *)
Definition leaves {D A} (m : M D A) : Prop :=
  forall w, exists tr,
    wire (snd (m w)) = wire w ++ tr /\ transfer_trace (fst (m w)) tr.

(** How a session entry point [whole], that is [guarded] followed by the
    [finally] clause, ends from [w]: [guarded] returns or raises a
    [RadioError]; the write of the exit packet is the last event on the
    wire; when it went through the outcome of [guarded] stands, and when
    it failed the outcome is the error of [exit_programming_mode]. *)
Definition session_outcome {D A} (guarded whole : M D A) (w : World D)
  : Prop :=
  let r := fst (guarded w) in
  let w1 := snd (guarded w) in
  let r' := fst (whole w) in
  let w2 := snd (whole w) in
  ((exists a, r = Ok a) \/ (exists msg, r = Raise (RadioError msg)))
  /\ ((wire w2 = wire w1 ++ [Sent exit_packet] /\ r' = r)
      \/ (wire w2 = wire w1 ++ [SendFailed exit_packet]
          /\ r' = Raise (RadioError "Radio refused to exit programming mode"))).

(** The slice of the image that belongs to [item] holds zero bytes only. *)
Definition zero_filled (all_bytes : bytes) (item : MemoryRegions) : Prop :=
  Forall (eq x00) (get_write_item_bytes all_bytes item).

(** ** Example responses *)

(** A device image of the size of the HA1G that holds zero bytes only. *)
Definition blank_image : bytes := repeat x00 (Z.to_nat 0xD868).


(** A response of twenty bytes that passes [validate_packet] and carries
    the marker 00 01 at bytes 14 and 15. *)
Definition short_marked_response : bytes :=
  let body := magic ++ [x00; x00; x00; x01; x00] in
  body ++ calculate_crc16 body ++ [xff].

(** A response with the marker 00 01 and byte 20 equal to 1 whose
    checksum field is wrong. *)
Definition forged_locked_reply : bytes :=
  magic ++ [x07; x00; x00; x01; x00; x00; x00; x00; x01; x00; x00; xff].

(** A well-formed response from region [item]: direction 1, packet index
    0, packet count [count], payload [payload]. *)
Definition device_reply (item count : Z) (payload : bytes) : bytes :=
  match get_send_packet_bytes item 0 1 count payload with
  | Ok p => p
  | _ => []
  end.

(** ** Layout of the handshake packet *)

(** [b"\x00\x00\x00\x00\x01\x00"] *)
Definition handshake_prefix : bytes := [x00; x00; x00; x00; x01; x00].

(** [pkt] is: the magic, a 16-bit little-endian length field, a block
    made of the prefix, the model name and zero padding that is [width]
    bytes long in all, the checksum of everything before it, and one
    closing byte. *)
Definition handshake_layout (width : nat) (model_bytes pkt : bytes) : Prop :=
  exists (declared : Z) (padding : bytes) (sentinel : byte),
    let block := handshake_prefix ++ model_bytes ++ padding in
    let front := magic ++ le16 declared ++ block in
    0 <= declared < 65536
    /\ Forall (eq x00) padding
    /\ length block = width
    /\ pkt = front ++ calculate_crc16 front ++ [sentinel].

(** ** Corrupting a packet *)

(** [l] with the element at index [i] replaced by [f] of it. *)
Fixpoint list_update {A} (l : list A) (i : nat) (f : A -> A) : list A :=
  match l, i with
  | [], _ => []
  | x :: l', O => f x :: l'
  | x :: l', S i' => x :: list_update l' i' f
  end.

(** [pkt] with bit [k] of the byte at index [pos] inverted. *)
Definition flip_bit (pkt : bytes) (pos : nat) (k : Z) : bytes :=
  list_update pkt pos (fun b => byte_of_Z (Z.lxor (byte_val b) (2 ^ k))).

(** ** Shapes used by the further properties *)


(** The request [get_read_current_packet_bytes] sends for packet [i] of
    region [item]: direction 2, packet index 0 and packet count 1 in the
    header, and [i] as a 16-bit little-endian payload. *)
Definition read_request (item i : Z) : bytes :=
  let data_part := packet_header item 0 2 1 2 ++ le16 i in
  data_part ++ calculate_crc16 data_part ++ [xff].

(** The requests for the [n] packets from packet [from] on. *)
Definition read_requests (item from : Z) (n : nat) : list bytes :=
  map (fun i => read_request item (from + Z.of_nat i)) (seq 0 n).

(** [new_data_bytes[20:-3]]: what a response carries between its header
    and its checksum. *)
Definition payload_of (new_data_bytes : bytes) : bytes :=
  py_slice (Some 20) (Some (-3)) new_data_bytes.

(** What a region download that returned [item_bytes] has done between
    the states [w] and [w']: it made the exchanges of the requests for
    packets 0, 1, ... with the responses [rs]. *)
Definition region_downloaded {D} (item : Z) (w w' : World D)
  (item_bytes : bytes) (rs : list bytes) : Prop :=
  wire w' = wire w
            ++ exchanges (combine (read_requests item 0 (length rs)) rs)
  /\ Forall (fun r => reply_rejected item r = false) rs
  /\ item_bytes = concat (map payload_of rs)
  /\ status_cur w' = status_cur w + Z.of_nat (length (concat rs))
  /\ naps w' = naps w.

(** [item_Bytes[i * packet_len: (i + 1) * packet_len]]: page [i] of the
    bytes of a region. *)
Definition page (packet_len i : Z) (item_Bytes : bytes) : bytes :=
  py_slice (Some (i * packet_len)) (Some ((i + 1) * packet_len)) item_Bytes.

(** The packet that carries the page [pg] as page [i] of [packet_count]
    of region [item]: direction 0. *)
Definition write_request (item i packet_count : Z) (pg : bytes) : bytes :=
  let data_part :=
    packet_header item i 0 packet_count (Z.of_nat (length pg)) ++ pg in
  data_part ++ calculate_crc16 data_part ++ [xff].

(** The packets for the [n] pages from page [from] on. *)
Definition write_requests (item packet_len packet_count : Z)
  (item_Bytes : bytes) (from : Z) (n : nat) : list bytes :=
  map (fun k => write_request item (from + Z.of_nat k) packet_count
                  (page packet_len (from + Z.of_nat k) item_Bytes))
      (seq 0 n).

(** What an upload of the bytes of one region that returned has done
    between the states [w] and [w']: it made the exchanges of the packets
    of the pages 0, 1, ... with the responses [rs]. *)
Definition region_uploaded {D} (self : Radio) (item : Z)
  (item_Bytes : bytes) (w w' : World D) (rs : list bytes) : Prop :=
  let packet_len := write_page_len self in
  let packet_count := - ((- Z.of_nat (length item_Bytes)) / packet_len) in
  let reqs :=
    write_requests item packet_len packet_count item_Bytes 0 (length rs) in
  length rs = Z.to_nat packet_count
  /\ wire w' = wire w ++ exchanges (combine reqs rs)
  /\ Forall (fun r => reply_rejected item r = false) rs
  /\ concat (map (fun k => page packet_len (Z.of_nat k) item_Bytes)
                 (seq 0 (length rs))) = item_Bytes
  /\ status_cur w' = status_cur w + Z.of_nat (length (concat reqs))
  /\ naps w' = naps w.

(** The packets the driver wrote or tried to write, in order. *)
Definition written (tr : list event) : list bytes :=
  flat_map (fun e => match e with
                     | Sent p | SendFailed p => [p]
                     | _ => []
                     end) tr.

(** [m] adds to the wire only packets that name a region for which
    [allowed] holds. *)
Definition writes_only {D A} (allowed : Z -> Prop) (m : M D A) : Prop :=
  forall w, exists tr,
    wire (snd (m w)) = wire w ++ tr
    /\ Forall (fun p => allowed (request_region p)) (written tr).

(** ** The entry points of the radio class

    [process_mmap] parses the image and fills the caches of the
    settings; it does not use the serial line.  It is left open here, as
    is the text [str] that Python gives for an exception. *)

Section Sync.
Context {D : Type} {T : Transport D}.
Variable process_mmap : bytes -> outcome unit.
Variable str : exn -> string.

(** [sync_in]; the result is [self._mmap] after the call. *)
Definition sync_in (self : Radio) : M D bytes :=
  try_except
    (_mmap <- do_download self ;;
     lift (process_mmap _mmap) ;;;
     ret _mmap)
    (fun e =>
       match e with
       | RadioError _ => raise e
       | _ => raise (RadioError
                       ("Failed to communicate with radio: " ++ str e))
       end).

(** [sync_out]; [mmap] is [self.get_mmap()]. *)
Definition sync_out (self : Radio) (mmap : bytes) : M D unit :=
  try_except
    (do_upload self mmap)
    (fun _ =>
       raise (RadioError "Unexpected error communicating with the radio")).
End Sync.

(** ** Helpers of the settings and of the channel memory *)

(** [struct.unpack(">H", b)] *)
Definition unpack_H_big (b : bytes) : outcome Z :=
  match b with
  | [hi; lo] => Ok (256 * byte_val hi + byte_val lo)
  | _ => Raise StructError
  end.

(** [swap_high_low_bytes_16bit_int] *)
Definition swap_high_low_bytes_16bit_int (value : Z) : outcome Z :=
  match struct_pack [FH value] with
  | Ok b => unpack_H_big b
  | Raise e => Raise e
  | Diverge => Diverge
  end.

(** [get_band_selection] *)
Definition get_band_selection (band_value band_index : Z) : Z :=
  if 1 <=? band_index
  then (if 3 <=? band_value then 3 else 1)
  else (if 3 <=? band_value then 2 else 0).

(** [opts.index(v)]: the place of the first element equal to [v]. *)
Fixpoint list_index (opts : list string) (v : string) : outcome Z :=
  match opts with
  | [] => Raise (ValueError "is not in list")
  | o :: rest =>
      if String.eqb o v then Ok 0
      else match list_index rest v with
           | Ok i => Ok (i + 1)
           | Raise e => Raise e
           | Diverge => Diverge
           end
  end.

(** The two fields [set_band_selection] writes. *)
Record band_fields : Type := {
  homeindex : Z;
  homeselect : Z
}.

(** [set_band_selection]: the values given to the fields named by
    [home_index_field_name] and [home_select_field_name]. *)
Definition set_band_selection (set_item_value : string) (opts : list string)
  : outcome band_fields :=
  match list_index opts set_item_value with
  | Ok value =>
      if value =? 3 then Ok {| homeindex := 1; homeselect := 3 |}
      else if value =? 2 then Ok {| homeindex := 0; homeselect := 3 |}
      else if value =? 1 then Ok {| homeindex := 1; homeselect := 2 |}
      else Ok {| homeindex := 0; homeselect := 1 |}
  | Raise e => Raise e
  | Diverge => Diverge
  end.

(** [get_ch_rxfreq]; [empty] and [freq] are [mem.empty] and [mem.freq]. *)
Definition get_ch_rxfreq (empty : bool) (freq : Z) : Z :=
  if empty then 0
  else
    let ch_freq := (freq / 10) * 10 in
    if freq =? 0 then freq
    else if freq <? 134000000 then 134000000
    else if (174000000 <? freq) && (freq <? 400000000) then 174000000
    else if 480000000 <? freq then 480000000
    else ch_freq.

(** An entry of a list of choices: the keys "name" and "id". *)
Record choice : Type := {
  choice_name : string;
  choice_id : Z
}.

(** [get_namedict_by_items] *)
Definition get_namedict_by_items (items : list choice) : list string :=
  map choice_name items.

(** [get_item_by_id]: the place of the first entry with the id, or 0. *)
Fixpoint get_item_by_id_from (i : Z) (items : list choice) (value : Z) : Z :=
  match items with
  | [] => 0
  | item :: rest =>
      if choice_id item =? value then i
      else get_item_by_id_from (i + 1) rest value
  end.

Definition get_item_by_id (items : list choice) (value : Z) : Z :=
  get_item_by_id_from 0 items value.

(** [get_item_name_by_id] *)
Fixpoint get_item_name_by_id (items : list choice) (value : Z) : string :=
  match items with
  | [] => ""
  | item :: rest =>
      if choice_id item =? value then choice_name item
      else get_item_name_by_id rest value
  end.

(** [next((item["id"] for item in items if item["name"] == name), d)] *)
Fixpoint first_id_named (items : list choice) (name : string) (d : Z) : Z :=
  match items with
  | [] => d
  | item :: rest =>
      if String.eqb (choice_name item) name then choice_id item
      else first_id_named rest name d
  end.

(** [get_item_by_name] *)
Definition get_item_by_name (items : list choice) (name : string) : Z :=
  first_id_named items name
    (match items with item :: _ => choice_id item | [] => 0 end).

(** *** Cleaning a text: [filter] *)

Module Text.

(** [filter(s, char_set, max_length, is_upper)].  [upper] is [c.upper()]
    of one character, which can be more than one character long, and
    [c in char_set] looks for [c] as a piece of [char_set]. *)
Fixpoint occurs_in (c char_set : string) : bool :=
  String.prefix c char_set
  || match char_set with
     | EmptyString => false
     | String _ rest => occurs_in c rest
     end.

(** The test the loop makes on the character [x] when [is_upper] is
    false. *)
Definition kept (char_set : string) (x : ascii) : bool :=
  occurs_in (String x EmptyString) char_set.

Section Filter.
Variable upper : ascii -> string.

Fixpoint filter_chars (chars : list ascii) (char_set : string)
  (is_upper : bool) (s_ : string) : string :=
  match chars with
  | [] => s_
  | x :: rest =>
      let c := String x EmptyString in
      let c := if is_upper then upper x else c in
      filter_chars rest char_set is_upper
        (s_ ++ (if occurs_in c char_set then c else ""))%string
  end.

Definition filter (s : string) (char_set : string) (max_length : Z)
  (is_upper : bool) : string :=
  let input_len := Z.of_nat (String.length s) in
  filter_chars
    (firstn (Z.to_nat (Z.min max_length input_len)) (list_ascii_of_string s))
    char_set is_upper "".
End Filter.

End Text.

(** * Properties *)

(** ** Bytes and their values *)

Lemma byte_val_range (b : byte) : 0 <= byte_val b < 256.
Proof.
  unfold byte_val. pose proof (Byte.to_N_bounded b). lia.
Qed.

Lemma byte_val_of_Z (z : Z) : byte_val (byte_of_Z z) = z mod 256.
Proof.
  unfold byte_of_Z, byte_val.
  assert (Hr : 0 <= z mod 256 < 256) by (apply Z.mod_pos_bound; lia).
  destruct (Byte.of_N (Z.to_N (z mod 256))) as [b|] eqn:E.
  - apply Byte.to_of_N in E. rewrite E. lia.
  - apply Byte.of_N_None_iff in E. lia.
Qed.

Lemma byte_of_Z_val (b : byte) : byte_of_Z (byte_val b) = b.
Proof.
  unfold byte_of_Z, byte_val.
  pose proof (Byte.to_N_bounded b) as Hb.
  rewrite Z.mod_small by lia.
  rewrite N2Z.id, Byte.of_to_N. reflexivity.
Qed.

Lemma byte_val_inj (a b : byte) : byte_val a = byte_val b -> a = b.
Proof.
  intros H. rewrite <- (byte_of_Z_val a), <- (byte_of_Z_val b), H.
  reflexivity.
Qed.

Lemma bytes_eqb_eq (a b : bytes) : bytes_eqb a b = true <-> a = b.
Proof.
  revert b. induction a as [|x a IH]; intros [|y b]; simpl;
    try (split; (discriminate || reflexivity)).
  rewrite andb_true_iff, IH. split.
  - intros [H1 H2]. apply Byte.byte_dec_bl in H1. congruence.
  - intros H. injection H as -> ->. split; [apply Byte.byte_dec_lb|]; reflexivity.
Qed.

Lemma bytes_eqb_refl (a : bytes) : bytes_eqb a a = true.
Proof. apply bytes_eqb_eq. reflexivity. Qed.

Lemma unpack_H_le16 (v : Z) : 0 <= v < 65536 -> unpack_H (le16 v) = Ok v.
Proof.
  intros Hv. unfold unpack_H, le16. rewrite !byte_val_of_Z.
  f_equal. rewrite (Z.mod_small (v / 256)).
  - pose proof (Z.div_mod v 256). lia.
  - split; [apply Z.div_pos; lia | apply Z.div_lt_upper_bound; lia].
Qed.

(** ** The checksum *)

Module CrcFacts.
Import Crc.

Lemma crc_shift_feed (crc : Z) : crc_shift crc = crc_feed_bit crc false.
Proof.
  unfold crc_shift, crc_feed_bit. rewrite xorb_false_r.
  replace (Z.land crc 1) with (crc mod 2)
    by (symmetry; apply (Z.land_ones crc 1); lia).
  rewrite Zmod_odd. destruct (Z.odd crc); reflexivity.
Qed.

(** A message byte still waiting in the low bits of the register is
    consumed one bit per shift. *)
Lemma crc_shift_pending (reg y : Z) :
  crc_shift (Z.lxor reg y)
  = Z.lxor (crc_feed_bit reg (Z.odd y)) (Z.shiftr y 1).
Proof.
  rewrite crc_shift_feed. unfold crc_feed_bit.
  rewrite xorb_false_r, Z.shiftr_lxor.
  rewrite <- !Z.bit0_odd, Z.lxor_spec.
  destruct (xorb (Z.testbit reg 0) (Z.testbit y 0)); [|reflexivity].
  rewrite !Z.lxor_assoc. f_equal. apply Z.lxor_comm.
Qed.

Lemma crc_byte_bits (reg : Z) (b : byte) :
  crc_byte reg b = fold_left crc_feed_bit (byte_bits_lsb_first b) reg.
Proof.
  unfold crc_byte, byte_bits_lsb_first.
  set (y := byte_val b).
  assert (Hy : 0 <= y < 256) by apply byte_val_range.
  unfold Nat.iter. cbn [nat_rect map fold_left].
  rewrite !Z.testbit_odd, Z.shiftr_0_r.
  repeat (rewrite crc_shift_pending;
          rewrite ?Z.shiftr_shiftr by lia; cbn [Z.add Pos.add Pos.succ]).
  replace (Z.shiftr y 8) with 0.
  - apply Z.lxor_0_r.
  - rewrite Z.shiftr_div_pow2 by lia. symmetry. apply Z.div_small.
    change (2 ^ 8) with 256. lia.
Qed.

Lemma fold_crc_byte_bits (msg : bytes) (reg : Z) :
  fold_left crc_byte msg reg
  = fold_left crc_feed_bit (flat_map byte_bits_lsb_first msg) reg.
Proof.
  revert reg. induction msg as [|b msg IH]; intros reg; [reflexivity|].
  cbn [fold_left flat_map]. rewrite fold_left_app, IH, crc_byte_bits.
  reflexivity.
Qed.

Lemma crc_register_reflected (buf : bytes) :
  crc_register buf = crc16_reflected buf.
Proof. apply fold_crc_byte_bits. Qed.

Lemma lxor_below (n a b : Z) :
  0 < n -> 0 <= a < 2 ^ n -> 0 <= b < 2 ^ n -> 0 <= Z.lxor a b < 2 ^ n.
Proof.
  intros Hn Ha Hb. split.
  - apply Z.lxor_nonneg. lia.
  - destruct (Z.eq_dec (Z.lxor a b) 0) as [->|Hne].
    + apply Z.pow_pos_nonneg; lia.
    + assert (0 <= Z.lxor a b) by (apply Z.lxor_nonneg; lia).
      apply Z.log2_lt_pow2; [lia|].
      pose proof (Z.log2_lxor a b (proj1 Ha) (proj1 Hb)) as Hl.
      assert (Z.log2 a < n).
      { destruct (Z.eq_dec a 0) as [->|]; [simpl; lia|].
        apply Z.log2_lt_pow2; lia. }
      assert (Z.log2 b < n).
      { destruct (Z.eq_dec b 0) as [->|]; [simpl; lia|].
        apply Z.log2_lt_pow2; lia. }
      lia.
Qed.

Lemma crc_shift_range (crc : Z) :
  0 <= crc < 65536 -> 0 <= crc_shift crc < 65536.
Proof.
  intros H.
  assert (Hs : 0 <= Z.shiftr crc 1 < 32768).
  { rewrite Z.shiftr_div_pow2 by lia. change (2 ^ 1) with 2.
    split; [apply Z.div_pos; lia | apply Z.div_lt_upper_bound; lia]. }
  unfold crc_shift. destruct (negb (Z.land crc 1 =? 0)); [|lia].
  apply (@lxor_below 16); change (2 ^ 16) with 65536; lia.
Qed.

Lemma crc_byte_range (crc : Z) (b : byte) :
  0 <= crc < 65536 -> 0 <= crc_byte crc b < 65536.
Proof.
  intros H. unfold crc_byte.
  assert (H0 : 0 <= Z.lxor crc (byte_val b) < 65536).
  { pose proof (byte_val_range b).
    apply (@lxor_below 16); change (2 ^ 16) with 65536; lia. }
  unfold Nat.iter. cbn [nat_rect]. do 8 apply crc_shift_range. exact H0.
Qed.

Lemma crc_register_range (buf : bytes) : 0 <= crc_register buf < 65536.
Proof.
  unfold crc_register.
  assert (G : forall reg, 0 <= reg < 65536 ->
                          0 <= fold_left crc_byte buf reg < 65536).
  { induction buf as [|b buf IH]; intros reg Hr; [exact Hr|].
    cbn [fold_left]. apply IH, crc_byte_range, Hr. }
  apply G. lia.
Qed.

End CrcFacts.

Lemma calculate_crc16_length (buf : bytes) : length (calculate_crc16 buf) = 2%nat.
Proof. reflexivity. Qed.

(** C10. The checksum is a function of its input alone; its register is
    the reflected CRC-16 with polynomial 0xA001, initial value 0x0000,
    least significant bit first and no final XOR; the result is the
    register as two little-endian bytes; it is 0x0000 on the empty input
    and 0xBB3D on "123456789". *)
Theorem calculate_crc16_is_crc16_arc :
  (forall a b : bytes, a = b -> calculate_crc16 a = calculate_crc16 b)
  /\ (forall buf, Crc.crc_register buf = Crc.crc16_reflected buf)
  /\ (forall buf, 0 <= Crc.crc_register buf < 65536)
  /\ (forall buf,
        calculate_crc16 buf
        = [byte_of_Z (Crc.crc_register buf mod 256);
           byte_of_Z (Crc.crc_register buf / 256)]
        /\ unpack_H (calculate_crc16 buf) = Ok (Crc.crc_register buf))
  /\ Crc.crc_register [] = 0x0000
  /\ calculate_crc16 [] = [x00; x00]
  /\ Crc.crc_register (ascii_bytes "123456789") = 0xBB3D
  /\ calculate_crc16 (ascii_bytes "123456789") = [x3d; xbb].
Proof.
  split; [intros a b ->; reflexivity|].
  split; [apply CrcFacts.crc_register_reflected|].
  split; [apply CrcFacts.crc_register_range|].
  split.
  - intros buf. split.
    + unfold calculate_crc16, le16. f_equal.
      unfold byte_of_Z. rewrite Z.mod_mod by lia. reflexivity.
    + apply unpack_H_le16, CrcFacts.crc_register_range.
  - repeat split; vm_compute; reflexivity.
Qed.

Lemma calculate_crc16_is_crc16_arc_witness :
  calculate_crc16 (ascii_bytes "123456789")
  = calculate_crc16 [x31; x32; x33; x34; x35; x36; x37; x38; x39].
Proof.
  apply (proj1 calculate_crc16_is_crc16_arc). reflexivity.
Defined.

(** ** Slices *)

Lemma firstn2_skipn {A} (d : A) (k : nat) (l : list A) :
  (k + 2 <= length l)%nat ->
  firstn 2 (skipn k l) = [nth k l d; nth (S k) l d].
Proof.
  revert l. induction k as [|k IH]; intros l H.
  - destruct l as [|x [|y l]]; simpl in H; try lia. reflexivity.
  - destruct l as [|x l]; simpl in H; [lia|].
    cbn [skipn]. rewrite IH by lia. reflexivity.
Qed.

Lemma py_slice_drop_last3 {A} (l : list A) :
  (3 <= length l)%nat ->
  py_slice None (Some (-3)) l = firstn (length l - 3) l.
Proof.
  intros H. unfold py_slice, clip_index. cbn [Z.ltb Z.compare].
  rewrite Z.max_r by lia. rewrite Z.sub_0_r. cbn [Z.to_nat skipn].
  f_equal. lia.
Qed.

Lemma py_slice_crc_bytes {A} (d : A) (l : list A) :
  (3 <= length l)%nat ->
  py_slice (Some (-3)) (Some (-1)) l
  = [nth (length l - 3) l d; nth (length l - 2) l d].
Proof.
  intros H. unfold py_slice, clip_index. cbn [Z.ltb Z.compare].
  rewrite !Z.max_r by lia.
  replace (Z.to_nat (-1 + Z.of_nat (length l) - (-3 + Z.of_nat (length l))))
    with 2%nat by lia.
  replace (Z.to_nat (-3 + Z.of_nat (length l))) with (length l - 3)%nat
    by lia.
  rewrite (firstn2_skipn d) by lia.
  replace (S (length l - 3)) with (length l - 2)%nat by lia. reflexivity.
Qed.

(** ** The validator *)

(** The verdict of [validate_packet], case by case. *)
Lemma validate_packet_verdict (pkt : bytes) (chunk_size : Z) :
  let n := length pkt in
  let C := if 255 <? chunk_size then 256 else chunk_size + 1 in
  let b12 := byte_val (nth 12 pkt x00) in
  let b13 := byte_val (nth 13 pkt x00) in
  let lower := (if 6 <? b12 then b12 - 6 else 0) + b13 * C in
  ((n <= 13)%nat -> validate_packet pkt chunk_size = false)
  /\ ((13 < n)%nat ->
      (validate_packet pkt chunk_size = true <->
       lower <= Z.of_nat n - 17
       /\ calculate_crc16 (firstn (n - 3) pkt)
          = [nth (n - 3) pkt x00; nth (n - 2) pkt x00])).
Proof.
  cbv zeta. unfold validate_packet. split.
  - intros H. destruct (Z.leb_spec (Z.of_nat (length pkt)) 13); [reflexivity|lia].
  - intros H. destruct (Z.leb_spec (Z.of_nat (length pkt)) 13); [lia|].
    rewrite py_slice_drop_last3, (py_slice_crc_bytes x00) by lia.
    match goal with |- context [?a <? ?b] =>
      match a with Z.of_nat _ - 17 => destruct (Z.ltb_spec a b) end end.
    + split; [discriminate|]. intros [? _]. lia.
    + rewrite bytes_eqb_eq. split.
      * intros E. split; [lia|]. symmetry. exact E.
      * intros [_ E]. symmetry. exact E.
Qed.

(** C5. [validate_packet] rejects every input of at most 13 bytes; a
    longer input is accepted exactly when its length less 17 reaches the
    lower bound computed from bytes 12 and 13, and the checksum of all
    bytes but the last three equals the two bytes before the last one. *)
Theorem validate_packet_characterisation (pkt : bytes) (chunk_size : Z) :
  let n := length pkt in
  let C := if 255 <? chunk_size then 256 else chunk_size + 1 in
  let b12 := byte_val (nth 12 pkt x00) in
  let b13 := byte_val (nth 13 pkt x00) in
  let lower := (if 6 <? b12 then b12 - 6 else 0) + b13 * C in
  ((n <= 13)%nat -> validate_packet pkt chunk_size = false)
  /\ ((13 < n)%nat ->
      (validate_packet pkt chunk_size = true <->
       lower <= Z.of_nat n - 17
       /\ calculate_crc16 (firstn (n - 3) pkt)
          = [nth (n - 3) pkt x00; nth (n - 2) pkt x00])).
Proof.
  cbv zeta. unfold validate_packet. split.
  - intros H. destruct (Z.leb_spec (Z.of_nat (length pkt)) 13); [reflexivity|lia].
  - intros H. destruct (Z.leb_spec (Z.of_nat (length pkt)) 13); [lia|].
    rewrite py_slice_drop_last3, (py_slice_crc_bytes x00) by lia.
    match goal with |- context [?a <? ?b] =>
      match a with Z.of_nat _ - 17 => destruct (Z.ltb_spec a b) end end.
    + split; [discriminate|]. intros [? _]. lia.
    + rewrite bytes_eqb_eq. split.
      * intros E. split; [lia|]. symmetry. exact E.
      * intros [_ E]. symmetry. exact E.
Qed.

Lemma validate_packet_characterisation_witness :
  validate_packet [x52; x44; x54] 1024 = false
  /\ (validate_packet
        (magic ++ [x07; x00; x6f; x00; x00; x00; x01; x00; x00]
         ++ calculate_crc16
              (magic ++ [x07; x00; x6f; x00; x00; x00; x01; x00; x00])
         ++ [xff]) 1024 = true
      <-> 0 + 0 * 256 <= 24 - 17
          /\ calculate_crc16
               (magic ++ [x07; x00; x6f; x00; x00; x00; x01; x00; x00])
             = calculate_crc16
                 (magic ++ [x07; x00; x6f; x00; x00; x00; x01; x00; x00])).
Proof.
  split.
  - apply (proj1 (validate_packet_characterisation [x52; x44; x54] 1024)).
    simpl. lia.
  - apply (proj2 (validate_packet_characterisation
                    (magic ++ [x07; x00; x6f; x00; x00; x00; x01; x00; x00]
                     ++ calculate_crc16
                          (magic
                           ++ [x07; x00; x6f; x00; x00; x00; x01; x00; x00])
                     ++ [xff]) 1024)).
    simpl. lia.
Defined.

(** ** The encoder *)

Lemma land_ones_range (x n : Z) : 0 <= n -> 0 <= Z.land x (2 ^ n - 1) < 2 ^ n.
Proof.
  intros Hn. replace (2 ^ n - 1) with (Z.ones n)
    by (rewrite Z.ones_equiv; lia).
  rewrite Z.land_ones by lia. apply Z.mod_pos_bound.
  apply Z.pow_pos_nonneg; lia.
Qed.

Lemma get_send_packet_bytes_layout
  (data_type packet_index data_code packet_count : Z) (data_buffer : bytes) :
  let n := Z.of_nat (length data_buffer) in
  let data_part :=
    packet_header data_type packet_index data_code packet_count n
    ++ data_buffer in
  get_send_packet_bytes data_type packet_index data_code packet_count
                        data_buffer
  = if n <=? 65529
    then Ok (data_part ++ calculate_crc16 data_part ++ [xff])
    else Raise StructError.
Proof.
  cbv zeta. unfold get_send_packet_bytes, packet_header.
  set (n := Z.of_nat (length data_buffer)).
  assert (Hn : 0 <= n) by (unfold n; lia).
  pose proof (@land_ones_range data_type 8 ltac:(lia)) as H1.
  pose proof (@land_ones_range data_code 8 ltac:(lia)) as H2.
  pose proof (@land_ones_range packet_index 16 ltac:(lia)) as H3.
  pose proof (@land_ones_range packet_count 16 ltac:(lia)) as H4.
  change (2 ^ 8 - 1) with 0xFF in *. change (2 ^ 16 - 1) with 0xFFFF in *.
  change (2 ^ 8) with 256 in *. change (2 ^ 16) with 65536 in *.
  cbn [struct_pack pack_field].
  change (12 <? 0) with false. cbv iota.
  replace (n <? 0) with false by (symmetry; apply Z.ltb_ge; lia).
  replace ((0 <=? Z.land data_type 255) && (Z.land data_type 255 <=? 255))
    with true by (symmetry; apply andb_true_iff; split; apply Z.leb_le; lia).
  replace ((0 <=? Z.land data_code 255) && (Z.land data_code 255 <=? 255))
    with true by (symmetry; apply andb_true_iff; split; apply Z.leb_le; lia).
  replace ((0 <=? Z.land packet_index 65535)
           && (Z.land packet_index 65535 <=? 65535))
    with true by (symmetry; apply andb_true_iff; split; apply Z.leb_le; lia).
  replace ((0 <=? Z.land packet_count 65535)
           && (Z.land packet_count 65535 <=? 65535))
    with true by (symmetry; apply andb_true_iff; split; apply Z.leb_le; lia).
  replace (0 <=? n + 6) with true by (symmetry; apply Z.leb_le; lia).
  cbn [andb].
  destruct (Z.leb_spec (n + 6) 65535); destruct (Z.leb_spec n 65529);
    try lia; [|reflexivity].
  replace (firstn (Z.to_nat n) data_buffer) with data_buffer
    by (symmetry; apply firstn_all2; unfold n; lia).
  replace (Z.to_nat n - length data_buffer)%nat with 0%nat by (unfold n; lia).
  cbn [repeat]. rewrite !app_nil_r.
  change (firstn (Z.to_nat 12) magic ++ repeat x00 (Z.to_nat 12 - length magic))
    with magic.
  rewrite <- !app_assoc. reflexivity.
Qed.

Lemma nth_app_left {A} (d : A) (i : nat) (a b : list A) :
  (i < length a)%nat -> nth i (a ++ b) d = nth i a d.
Proof. intros H. apply app_nth1, H. Qed.


(** Validation of a frame [dp ++ c ++ [z]] whose checksum field is [c]. *)
Lemma validate_packet_framed (dp c : bytes) (z : byte) (chunk_size : Z) :
  length c = 2%nat -> (14 <= length dp)%nat ->
  let C := if 255 <? chunk_size then 256 else chunk_size + 1 in
  let b12 := byte_val (nth 12 dp x00) in
  let b13 := byte_val (nth 13 dp x00) in
  validate_packet (dp ++ c ++ [z]) chunk_size
  = if Z.of_nat (length dp) - 14
       <? (if 6 <? b12 then b12 - 6 else 0) + b13 * C
    then false
    else bytes_eqb c (calculate_crc16 dp).
Proof.
  intros Hc Hd. cbv zeta.
  destruct c as [|c0 [|c1 [|? ?]]]; try discriminate.
  pose proof (validate_packet_verdict (dp ++ [c0; c1] ++ [z])
                chunk_size) as [_ Hv].
  cbv zeta in Hv.
  assert (Hl : length (dp ++ [c0; c1] ++ [z]) = (length dp + 3)%nat)
    by (rewrite !length_app; simpl; lia).
  rewrite Hl in Hv. specialize (Hv ltac:(lia)).
  rewrite !nth_app_left in Hv by lia.
  replace (length dp + 3 - 3)%nat with (length dp) in Hv by lia.
  replace (length dp + 3 - 2)%nat with (S (length dp)) in Hv by lia.
  rewrite firstn_app, firstn_all, Nat.sub_diag in Hv.
  cbn [firstn] in Hv. rewrite app_nil_r in Hv.
  rewrite (app_nth2 dp _ _ (n := length dp)) in Hv by lia.
  rewrite (app_nth2 dp _ _ (n := S (length dp))) in Hv by lia.
  rewrite Nat.sub_diag in Hv.
  replace (S (length dp) - length dp)%nat with 1%nat in Hv by lia.
  cbn [nth app] in Hv.
  replace (Z.of_nat (length dp + 3) - 17) with (Z.of_nat (length dp) - 14)
    in Hv by lia.
  apply eq_true_iff_eq. rewrite Hv.
  match goal with |- context [?a <? ?b] =>
    match a with Z.of_nat _ - 14 =>
      destruct (Z.ltb_spec a b) as [Hlt|Hge] end end.
  - split; [intros [? _]; lia | discriminate].
  - rewrite bytes_eqb_eq. split; [intros [_ E]; congruence | intros E; split; [lia|congruence]].
Qed.

Lemma list_update_app_right {A} (a b : list A) (i : nat) (f : A -> A) :
  list_update (a ++ b) (length a + i) f = a ++ list_update b i f.
Proof.
  induction a as [|x a IH]; [reflexivity|].
  cbn [app length Nat.add list_update]. rewrite IH. reflexivity.
Qed.

Lemma flip_bit_changes (b : byte) (k : Z) :
  0 <= k < 8 -> byte_of_Z (Z.lxor (byte_val b) (2 ^ k)) <> b.
Proof.
  intros Hk E. apply (f_equal byte_val) in E.
  rewrite byte_val_of_Z in E.
  pose proof (byte_val_range b) as Hb.
  assert (Hp : 0 < 2 ^ k < 256).
  { split; [apply Z.pow_pos_nonneg; lia|].
    change 256 with (2 ^ 8). apply Z.pow_lt_mono_r; lia. }
  assert (Hx : 0 <= Z.lxor (byte_val b) (2 ^ k) < 2 ^ 8)
    by (apply CrcFacts.lxor_below; change (2 ^ 8) with 256; lia).
  change (2 ^ 8) with 256 in Hx. rewrite Z.mod_small in E by lia.
  apply (f_equal (Z.lxor (byte_val b))) in E.
  rewrite <- Z.lxor_assoc, Z.lxor_nilpotent, Z.lxor_0_l in E. lia.
Qed.

Lemma packet_header_length (data_type packet_index data_code packet_count n : Z) :
  length (packet_header data_type packet_index data_code packet_count n)
  = 20%nat.
Proof. reflexivity. Qed.

(** The length bound of the validator holds for a header that declares
    [n + 6] for a payload of [n] bytes. *)
Lemma declared_length_bound (n C : Z) :
  0 <= n <= 65529 -> C <= 256 ->
  let b12 := byte_val (byte_of_Z (n + 6)) in
  let b13 := byte_val (byte_of_Z ((n + 6) / 256)) in
  (if 6 <? b12 then b12 - 6 else 0) + b13 * C <= n + 6.
Proof.
  intros Hn HC. cbv zeta. rewrite !byte_val_of_Z.
  assert (Hq : 0 <= (n + 6) / 256 < 256)
    by (split; [apply Z.div_pos; lia | apply Z.div_lt_upper_bound; lia]).
  rewrite (Z.mod_small ((n + 6) / 256)) by lia.
  pose proof (Z.div_mod (n + 6) 256 ltac:(lia)) as Hdm.
  pose proof (Z.mod_pos_bound (n + 6) 256 ltac:(lia)) as Hr.
  assert ((n + 6) / 256 * C <= (n + 6) / 256 * 256)
    by (apply Z.mul_le_mono_nonneg_l; lia).
  destruct (Z.ltb_spec 6 ((n + 6) mod 256)); lia.
Qed.

(** C4. Every packet the encoder produces passes [validate_packet], and
    stops passing once a single bit of either checksum byte is inverted.
    The encoder produces a packet for every payload whose declared length
    fits the 16-bit field. *)
Theorem encoded_packet_validates
  (data_type packet_index data_code packet_count : Z) (payload : bytes)
  (chunk_size : Z) :
  (Z.of_nat (length payload) <= 65529 ->
   exists pkt,
     get_send_packet_bytes data_type packet_index data_code packet_count
                           payload = Ok pkt)
  /\ (forall pkt,
        get_send_packet_bytes data_type packet_index data_code packet_count
                              payload = Ok pkt ->
        validate_packet pkt chunk_size = true
        /\ (forall (pos : nat) (k : Z),
              (pos = length pkt - 3 \/ pos = length pkt - 2)%nat ->
              0 <= k < 8 ->
              validate_packet (flip_bit pkt pos k) chunk_size = false)).
Proof.
  rewrite get_send_packet_bytes_layout.
  set (n := Z.of_nat (length payload)).
  set (dp := packet_header data_type packet_index data_code packet_count n
             ++ payload).
  split.
  - intros Hn. destruct (Z.leb_spec n 65529); [eauto | lia].
  - intros pkt. destruct (Z.leb_spec n 65529) as [Hn|]; [|discriminate].
    intros E.
    assert (Epkt : pkt = dp ++ calculate_crc16 dp ++ [xff]) by congruence.
    clear E. subst pkt.
    assert (Hlen : length dp = (20 + length payload)%nat)
      by (unfold dp; rewrite length_app; reflexivity).
    assert (H12 : nth 12 dp x00 = byte_of_Z (n + 6)) by reflexivity.
    assert (H13 : nth 13 dp x00 = byte_of_Z ((n + 6) / 256)) by reflexivity.
    assert (HC : (if 255 <? chunk_size then 256 else chunk_size + 1) <= 256)
      by (destruct (Z.ltb_spec 255 chunk_size); lia).
    pose proof (@declared_length_bound n _ ltac:(unfold n; lia) HC) as Hb.
    cbv zeta in Hb.
    assert (Hframe : forall a b,
              validate_packet (dp ++ [a; b; xff]) chunk_size
              = bytes_eqb [a; b] (calculate_crc16 dp)).
    { intros a b. change [a; b; xff] with ([a; b] ++ [xff]).
      rewrite (@validate_packet_framed dp [a; b] xff chunk_size) by (simpl; lia).
      rewrite H12, H13.
      match goal with |- (if ?a <? ?b then _ else _) = _ =>
        destruct (Z.ltb_spec a b) end; [lia | reflexivity]. }
    assert (Hp : length (dp ++ calculate_crc16 dp ++ [xff])
                 = (length dp + 3)%nat)
      by (rewrite !length_app; simpl; lia).
    rewrite Hp.
    destruct (calculate_crc16 dp) as [|c0 [|c1 [|? ?]]] eqn:Ec;
      try discriminate.
    cbn [app]. split; [rewrite Hframe; apply bytes_eqb_refl|].
    intros pos k Hpos Hk. unfold flip_bit.
    destruct Hpos as [-> | ->].
    + replace (length dp + 3 - 3)%nat with (length dp + 0)%nat by lia.
      rewrite list_update_app_right. cbn [list_update].
      rewrite Hframe.
      cbn [bytes_eqb]. apply andb_false_iff. left.
      destruct (Byte.eqb _ c0) eqn:E; [|reflexivity].
      apply Byte.byte_dec_bl in E. exfalso.
      exact (@flip_bit_changes c0 k Hk E).
    + replace (length dp + 3 - 2)%nat with (length dp + 1)%nat by lia.
      rewrite list_update_app_right. cbn [list_update].
      rewrite Hframe.
      cbn [bytes_eqb]. apply andb_false_iff. right.
      rewrite andb_true_r.
      destruct (Byte.eqb _ c1) eqn:E; [|reflexivity].
      apply Byte.byte_dec_bl in E. exfalso.
      exact (@flip_bit_changes c1 k Hk E).
Qed.

Lemma encoded_packet_validates_witness :
  (exists pkt, get_send_packet_bytes 111 0 0 1 [x00] = Ok pkt)
  /\ validate_packet
       (magic ++ [x07; x00; x6f; x00; x00; x00; x01; x00; x00; x08; xb7; xff])
       1024 = true
  /\ validate_packet
       (flip_bit
          (magic
           ++ [x07; x00; x6f; x00; x00; x00; x01; x00; x00; x08; xb7; xff])
          21 5) 1024 = false.
Proof.
  pose proof (encoded_packet_validates 111 0 0 1 [x00] 1024) as [H1 H2].
  split; [apply H1; simpl; lia|].
  specialize (H2 (magic ++ [x07; x00; x6f; x00; x00; x00; x01; x00; x00;
                            x08; xb7; xff])).
  destruct H2 as [Ha Hb]; [vm_compute; reflexivity|].
  split; [exact Ha|].
  apply Hb; [left; reflexivity | lia].
Defined.

(** ** The handshake packet *)

Lemma Forall_repeat_x00 (n : nat) : Forall (eq x00) (repeat x00 n).
Proof. induction n; simpl; constructor; auto. Qed.

Lemma pack_Fs_exact (b : bytes) :
  pack_field (Fs (Z.of_nat (length b)) b) = Ok b.
Proof.
  unfold pack_field.
  replace (Z.of_nat (length b) <? 0) with false
    by (symmetry; apply Z.ltb_ge; lia).
  rewrite Nat2Z.id, firstn_all, Nat.sub_diag. apply f_equal, app_nil_r.
Qed.

Lemma pack_Fs_zeros (k : Z) :
  0 <= k ->
  pack_field (Fs k (repeat x00 (Z.to_nat k))) = Ok (repeat x00 (Z.to_nat k)).
Proof.
  intros Hk. unfold pack_field.
  replace (k <? 0) with false by (symmetry; apply Z.ltb_ge; lia).
  rewrite repeat_length, Nat.sub_diag.
  rewrite <- (repeat_length x00 (Z.to_nat k)) at 1.
  rewrite firstn_all. apply f_equal, app_nil_r.
Qed.

Lemma get_handshake_bytes_value (model : string) (name : bytes) :
  encode_ascii model = Ok name -> (length name <= 41)%nat ->
  let front :=
    magic ++ le16 47 ++ handshake_prefix ++ name
    ++ repeat x00 (41 - length name) in
  get_handshake_bytes model = Ok (front ++ calculate_crc16 front ++ [xff]).
Proof.
  intros He Hl. cbv zeta. unfold get_handshake_bytes. rewrite He.
  change (Z.of_nat (length [x00; x00; x00; x00; x01; x00])) with 6.
  replace (6 + Z.of_nat (length name) + (41 - Z.of_nat (length name)))
    with 47 by lia.
  cbn [struct_pack].
  rewrite pack_Fs_exact, pack_Fs_zeros by lia.
  replace (Z.to_nat (41 - Z.of_nat (length name)))
    with (41 - length name)%nat by lia.
  change (pack_field (Fs 12 magic)) with (Ok magic).
  change (pack_field (FH 47)) with (Ok (le16 47)).
  change (pack_field (Fs 6 [x00; x00; x00; x00; x01; x00]))
    with (Ok handshake_prefix).
  cbv iota. rewrite !app_nil_r, <- !app_assoc. reflexivity.
Qed.

(** C8, as the code has it.  For a model name of at most 41 ASCII
    characters the handshake packet is the 12-byte magic, the
    little-endian 16-bit length field holding 47, the 6-byte prefix, the
    name and zero padding so that name and padding make 41 bytes (47 with
    the prefix), the checksum of all that, and the byte 0xFF. *)
Theorem get_handshake_bytes_layout (model : string) (name : bytes) :
  encode_ascii model = Ok name -> (length name <= 41)%nat ->
  exists padding,
    let front := magic ++ le16 47 ++ handshake_prefix ++ name ++ padding in
    get_handshake_bytes model = Ok (front ++ calculate_crc16 front ++ [xff])
    /\ length magic = 12%nat
    /\ length handshake_prefix = 6%nat
    /\ Forall (eq x00) padding
    /\ length (name ++ padding) = 41%nat
    /\ length (handshake_prefix ++ name ++ padding) = 47%nat
    /\ handshake_layout 47 name (front ++ calculate_crc16 front ++ [xff]).
Proof.
  intros He Hl. exists (repeat x00 (41 - length name)). cbv zeta.
  split; [apply get_handshake_bytes_value; assumption|].
  split; [reflexivity|]. split; [reflexivity|].
  split; [apply Forall_repeat_x00|].
  assert (L41 : length (name ++ repeat x00 (41 - length name)) = 41%nat)
    by (rewrite length_app, repeat_length; lia).
  split; [exact L41|].
  assert (L47 : length (handshake_prefix ++ name
                        ++ repeat x00 (41 - length name)) = 47%nat)
    by (rewrite length_app, L41; reflexivity).
  split; [exact L47|].
  exists 47, (repeat x00 (41 - length name)), xff. cbv zeta.
  split; [lia|]. split; [apply Forall_repeat_x00|].
  split; [exact L47 | reflexivity].
Qed.

Lemma get_handshake_bytes_layout_witness :
  exists padding,
    let front :=
      magic ++ le16 47 ++ handshake_prefix ++ ascii_bytes "HA1G " ++ padding in
    get_handshake_bytes "HA1G " = Ok (front ++ calculate_crc16 front ++ [xff])
    /\ length magic = 12%nat
    /\ length handshake_prefix = 6%nat
    /\ Forall (eq x00) padding
    /\ length (ascii_bytes "HA1G " ++ padding) = 41%nat
    /\ length (handshake_prefix ++ ascii_bytes "HA1G " ++ padding) = 47%nat
    /\ handshake_layout 47 (ascii_bytes "HA1G ")
         (front ++ calculate_crc16 front ++ [xff]).
Proof.
  apply (@get_handshake_bytes_layout "HA1G " (ascii_bytes "HA1G ")).
  - reflexivity.
  - simpl. lia.
Defined.

(** The layout the specification gives, with prefix, name and padding
    making 41 bytes, is not the layout of the packet built for "HA1G ":
    that packet is 64 bytes long, the specified one would be 58. *)
Lemma handshake_layout_41_fails :
  exists pkt,
    get_handshake_bytes "HA1G " = Ok pkt
    /\ ~ handshake_layout 41 (ascii_bytes "HA1G ") pkt.
Proof.
  pose proof (@get_handshake_bytes_value "HA1G " (ascii_bytes "HA1G ")
                eq_refl ltac:(simpl; lia)) as Hg.
  cbv zeta in Hg.
  eexists. split; [exact Hg|].
  intros (declared & padding' & sentinel & _ & _ & Hlen & Heq).
  apply (f_equal (@length byte)) in Heq.
  rewrite !length_app in Heq. rewrite !length_app in Hlen.
  rewrite repeat_length in Heq.
  cbn [length le16 calculate_crc16 ascii_bytes list_ascii_of_string map
       handshake_prefix magic app] in Heq, Hlen.
  lia.
Qed.

(** ** The handshake classifier *)

(** What the classifier answers once byte 20 exists. *)
Lemma handshake_classifier_cases (self : Radio) (dataByte name : bytes) :
  encode_ascii (MODEL self) = Ok name ->
  (21 <= length dataByte)%nat ->
  handshake_handle_connect_event self dataByte
  = Ok (if negb (bytes_eqb (py_slice (Some 14) (Some 16) dataByte) [x00; x01])
        then Wrong
        else if byte_val (nth 20 dataByte x00) =? 1 then PwdWrong
        else if bytes_eqb
                  (py_slice (Some 20)
                     (Some (20 + Z.of_nat (String.length (MODEL self))))
                     dataByte) name
        then Normal
        else RadioWrong).
Proof.
  intros He Hl. unfold handshake_handle_connect_event.
  destruct (bytes_eqb (py_slice (Some 14) (Some 16) dataByte) [x00; x01]);
    [|reflexivity].
  cbn [negb]. destruct (nth_error dataByte 20) as [b20|] eqn:E.
  - rewrite (nth_error_nth _ _ x00 E), He.
    destruct (byte_val b20 =? 1); cbn [negb]; [reflexivity|].
    destruct (bytes_eqb _ name); reflexivity.
  - apply nth_error_None in E. lia.
Qed.

Lemma handshake_classifier_unmarked (self : Radio) (dataByte : bytes) :
  bytes_eqb (py_slice (Some 14) (Some 16) dataByte) [x00; x01] = false ->
  handshake_handle_connect_event self dataByte = Ok Wrong.
Proof.
  intros H. unfold handshake_handle_connect_event. rewrite H. reflexivity.
Qed.

(** C6, the failing input.  A response of twenty bytes that passes
    [validate_packet] and carries 00 01 at bytes 14 and 15 gets none of
    the four outcomes: reading byte 20 raises an index error. *)
Theorem handshake_classifier_short_response :
  length short_marked_response = 20%nat
  /\ validate_packet short_marked_response 1024 = true
  /\ py_slice (Some 14) (Some 16) short_marked_response = [x00; x01]
  /\ handshake_handle_connect_event HA1G short_marked_response
     = Raise IndexError.
Proof. repeat split; vm_compute; reflexivity. Qed.

(** ** Uploading one region: the page count *)

Lemma is_empty_nil {A} (l : list A) : is_empty l = true <-> l = [].
Proof. destruct l; simpl; split; (reflexivity || discriminate). Qed.

Lemma ceil_div_positive (a b : Z) :
  0 < a -> 0 < b -> exists n, ceil_div a b = Ok n /\ 0 < n.
Proof.
  intros Ha Hb. unfold ceil_div.
  destruct (Z.eqb_spec b 0); [lia|].
  eexists. split; [reflexivity|].
  assert (- a / b < 0) by (apply Z.div_lt_upper_bound; lia). lia.
Qed.

(** C9, as the code has it.  With empty region bytes the call raises
    [ValueError] before anything is sent; with region bytes that are not
    empty and a page count of zero it returns [True] and sends nothing;
    and with a positive page size region bytes that are not empty always
    make at least one page. *)
Theorem write_item_zero_pages {D} {T : Transport D}
  (self : Radio) (item_Bytes : bytes) (item : Z) (w : World D) :
  (item_Bytes = [] ->
   write_item_current_page_bytes self item_Bytes item w
   = (Raise (ValueError "item_bytes cannot be empty"), w))
  /\ (item_Bytes <> [] ->
      ceil_div (Z.of_nat (length item_Bytes)) (write_page_len self) = Ok 0 ->
      write_item_current_page_bytes self item_Bytes item w
      = (Ok (Some true), w))
  /\ (item_Bytes <> [] -> 0 < write_page_len self ->
      exists n,
        ceil_div (Z.of_nat (length item_Bytes)) (write_page_len self) = Ok n
        /\ 0 < n).
Proof.
  split; [|split].
  - intros ->. reflexivity.
  - intros Hne Hc. unfold write_item_current_page_bytes.
    destruct (is_empty item_Bytes) eqn:E;
      [apply is_empty_nil in E; contradiction|].
    unfold bind, lift. rewrite Hc. reflexivity.
  - intros Hne Hp. apply ceil_div_positive; [|exact Hp].
    destruct item_Bytes; [contradiction | simpl; lia].
Qed.

Lemma write_item_zero_pages_witness :
  write_item_current_page_bytes HA1G [] 6 (fresh (mkScript [] 5))
  = (Raise (ValueError "item_bytes cannot be empty"), fresh (mkScript [] 5))
  /\ write_item_current_page_bytes
       {| MODEL := "HA1G"; _memsize := 0xD868; read_packet_len := 1047;
          write_page_len := -1024 |} [x01] 6 (fresh (mkScript [] 5))
     = (Ok (Some true), fresh (mkScript [] 5))
  /\ exists n,
       ceil_div (Z.of_nat (length [x01])) (write_page_len HA1G) = Ok n
       /\ 0 < n.
Proof.
  split; [|split].
  - apply (proj1 (write_item_zero_pages HA1G [] 6 (fresh (mkScript [] 5)))).
    reflexivity.
  - apply (proj1 (proj2 (write_item_zero_pages
                           {| MODEL := "HA1G"; _memsize := 0xD868;
                              read_packet_len := 1047;
                              write_page_len := -1024 |}
                           [x01] 6 (fresh (mkScript [] 5)))));
      [discriminate | reflexivity].
  - apply (proj2 (proj2 (write_item_zero_pages HA1G [x01] 6
                           (fresh (mkScript [] 5)))));
      [discriminate | reflexivity].
Defined.

(** The region bytes that make zero pages with the page size of the
    radio are the empty ones, and the call does not succeed on them. *)
Lemma write_item_zero_pages_raises :
  ceil_div (Z.of_nat (length (@nil byte))) (write_page_len HA1G) = Ok 0
  /\ fst (write_item_current_page_bytes HA1G [] 6 (fresh (mkScript [] 5)))
     = Raise (ValueError "item_bytes cannot be empty")
  /\ fst (write_item_current_page_bytes HA1G [] 6 (fresh (mkScript [] 5)))
     <> Ok (Some true).
Proof. repeat split; try reflexivity. discriminate. Qed.

(** ** The monad and the wire *)

Section WireFacts.
Context {D : Type} {T : Transport D}.

Lemma halts_ret {A} (a : A) : halts (ret (D := D) a).
Proof. intros w. discriminate. Qed.

Lemma halts_raise {A} (e : exn) : halts (raise (D := D) (A := A) e).
Proof. intros w. discriminate. Qed.

Lemma halts_lift {A} (o : outcome A) : o <> Diverge -> halts (lift (D := D) o).
Proof. intros H w. exact H. Qed.

Lemma halts_bind {A B} (m : M D A) (k : A -> M D B) :
  halts m -> (forall a, halts (k a)) -> halts (bind m k).
Proof.
  intros Hm Hk w. unfold bind. specialize (Hm w).
  destruct (m w) as [[a|e|] w1]; cbn in *;
    [apply Hk | discriminate | congruence].
Qed.

Lemma halts_try_except {A} (m : M D A) (h : exn -> M D A) :
  halts m -> (forall e, halts (h e)) -> halts (try_except m h).
Proof.
  intros Hm Hh w. unfold try_except. specialize (Hm w).
  destruct (m w) as [[a|e|] w1]; cbn in *;
    [discriminate | apply Hh | congruence].
Qed.

Lemma halts_serial_write (p : bytes) : halts (serial_write p).
Proof.
  intros w. unfold serial_write.
  destruct (pipe_write p (pipe w)) as [[e|] d]; discriminate.
Qed.

Lemma halts_serial_read (n : Z) : halts (serial_read n).
Proof.
  intros w. unfold serial_read.
  destruct (pipe_read n (pipe w)) as [[r|e] d]; discriminate.
Qed.

(** One exchange: either both the write and the read went through, and
    the flag is the verdict of [validate_packet] on the response, or
    one of them raised. *)
Lemma exchange_outcome (send_byte : bytes) (chunk_size : Z) (w : World D) :
  match exchange_block_with_radio send_byte chunk_size w with
  | (Ok (flag, resp), w') =>
      flag = validate_packet resp 1024
      /\ wire w' = wire w ++ [Sent send_byte; Received resp]
      /\ naps w' = naps w
  | (Raise e, w') =>
      (wire w' = wire w ++ [SendFailed send_byte]
       \/ wire w' = wire w ++ [Sent send_byte; ReceiveFailed])
      /\ naps w' = naps w
  | (Diverge, _) => False
  end.
Proof.
  unfold exchange_block_with_radio, bind, serial_write, serial_read, ret.
  destruct (pipe_write send_byte (pipe w)) as [[e|] d]; cbn.
  - split; [left|]; reflexivity.
  - destruct (pipe_read chunk_size d) as [[r|e] d']; cbn.
    + destruct (validate_packet r 1024) eqn:E; cbn;
        rewrite <- app_assoc; repeat split; auto.
    + rewrite <- app_assoc. split; [right|]; reflexivity.
Qed.

Lemma halts_exchange (send_byte : bytes) (chunk_size : Z) :
  halts (exchange_block_with_radio send_byte chunk_size).
Proof.
  intros w. pose proof (exchange_outcome send_byte chunk_size w) as H.
  destruct (exchange_block_with_radio send_byte chunk_size w)
    as [[[f r]|e|] w']; cbn; [discriminate | discriminate | contradiction].
Qed.

End WireFacts.

Lemma struct_pack_halts (fs : list field) : struct_pack fs <> Diverge.
Proof.
  induction fs as [|f fs IH]; cbn; [discriminate|].
  assert (pack_field f <> Diverge).
  { destruct f; cbn.
    - destruct (n <? 0); discriminate.
    - destruct ((0 <=? v) && (v <=? 255)); discriminate.
    - destruct ((0 <=? v) && (v <=? 65535)); discriminate. }
  destruct (pack_field f); try congruence.
  destruct (struct_pack fs); congruence.
Qed.

Lemma get_send_packet_bytes_halts (a b c d : Z) (buf : bytes) :
  get_send_packet_bytes a b c d buf <> Diverge.
Proof.
  rewrite get_send_packet_bytes_layout. cbv zeta.
  destruct (_ <=? _); discriminate.
Qed.

Lemma get_handshake_bytes_halts (model : string) :
  get_handshake_bytes model <> Diverge.
Proof.
  unfold get_handshake_bytes.
  destruct (encode_ascii model) eqn:E; try discriminate.
  - match goal with |- context [struct_pack ?fs] =>
      pose proof (struct_pack_halts fs) as H; destruct (struct_pack fs) end;
      congruence.
  - unfold encode_ascii in E. destruct (forallb _ _); discriminate.
Qed.

Lemma handshake_handle_connect_event_halts (self : Radio) (dataByte : bytes) :
  handshake_handle_connect_event self dataByte <> Diverge.
Proof.
  unfold handshake_handle_connect_event.
  destruct (bytes_eqb _ _); [|discriminate].
  destruct (nth_error dataByte 20); [|discriminate].
  destruct (negb _); [|discriminate].
  unfold encode_ascii. destruct (forallb _ _); [|discriminate].
  destruct (bytes_eqb _ _); discriminate.
Qed.

(** ** Upload: the wire of [write_items] *)

Lemma request_region_of_packet (item i c n : Z) (buf p : bytes) :
  0 <= item < 256 ->
  get_send_packet_bytes item i c n buf = Ok p -> request_region p = item.
Proof.
  intros Hi. rewrite get_send_packet_bytes_layout. cbv zeta.
  destruct (_ <=? _); [|discriminate]. intros E.
  assert (Ep : p = (packet_header item i c n (Z.of_nat (length buf)) ++ buf)
                   ++ calculate_crc16
                        (packet_header item i c n (Z.of_nat (length buf))
                         ++ buf) ++ [xff]) by congruence.
  subst p. unfold request_region.
  rewrite <- app_assoc.
  rewrite nth_app_left by (rewrite packet_header_length; lia).
  change (nth 14 (packet_header item i c n (Z.of_nat (length buf))) x00)
    with (byte_of_Z (Z.land item 0xFF)).
  rewrite byte_val_of_Z.
  change 0xFF with (Z.ones 8). rewrite Z.land_ones by lia.
  change (2 ^ 8) with 256. rewrite Z.mod_mod by lia. apply Z.mod_small, Hi.
Qed.

Lemma exchanges_app (xs ys : list (bytes * bytes)) :
  exchanges (xs ++ ys) = exchanges xs ++ exchanges ys.
Proof.
  induction xs as [|[p r] xs IH]; [reflexivity|].
  cbn [app exchanges]. rewrite IH. reflexivity.
Qed.

Lemma transfer_trace_app {A B} (a : A) (res : outcome B) tr1 tr2 :
  transfer_trace (Ok a) tr1 -> transfer_trace res tr2 ->
  transfer_trace res (tr1 ++ tr2).
Proof.
  intros H1 H2. inversion H1 as [a' xs Hxs| |]; subst.
  inversion H2 as [b ys Hys|ys p r Hys Hr|ys e last Hys Hl]; subst.
  - rewrite <- exchanges_app. constructor. apply Forall_app; auto.
  - rewrite app_assoc, <- exchanges_app. constructor; [|exact Hr].
    apply Forall_app; auto.
  - rewrite app_assoc, <- exchanges_app. constructor; [|exact Hl].
    apply Forall_app; auto.
Qed.

Lemma transfer_trace_nothing {A} (e : exn) :
  transfer_trace (A := A) (Raise e) [].
Proof. apply (@trace_broken A [] e []); [constructor | left; reflexivity]. Qed.

Lemma region_value_byte (item : MemoryRegions) : 0 <= region_value item < 256.
Proof. destruct item; cbn; lia. Qed.

Section UploadWire.
Context {D : Type} {T : Transport D}.

Lemma leaves_intro {A} (m : M D A) :
  (forall w res w', m w = (res, w') ->
     exists tr, wire w' = wire w ++ tr /\ transfer_trace res tr) ->
  leaves m.
Proof.
  intros H w. destruct (m w) as [res w'] eqn:E. exact (H w res w' E).
Qed.

Lemma leaves_elim {A} (m : M D A) w res w' :
  leaves m -> m w = (res, w') ->
  exists tr, wire w' = wire w ++ tr /\ transfer_trace res tr.
Proof. intros H E. specialize (H w). rewrite E in H. exact H. Qed.

Lemma write_pages_leaves (self : Radio) (n : nat) (i : Z)
  (item_Bytes : bytes) (item packet_len packet_count : Z) :
  0 <= item < 256 ->
  leaves (write_pages self n i item_Bytes item packet_len packet_count).
Proof.
  intros Hitem. revert i. induction n as [|n IH]; intros i;
    apply leaves_intro; intros w res w' E.
  - injection E as <- <-. exists []. rewrite app_nil_r.
    split; [reflexivity|]. apply (@trace_done unit tt []). constructor.
  - cbn [write_pages] in E. unfold bind, lift in E.
    destruct (get_send_packet_bytes item i 0 packet_count _)
      as [pkt|e|] eqn:Epkt.
    + pose proof (request_region_of_packet _ _ _ _ Hitem Epkt) as Hreg.
      pose proof (exchange_outcome pkt (read_packet_len self) w) as Hx.
      destruct (exchange_block_with_radio pkt (read_packet_len self) w)
        as [[[flag resp]|e|] w1]; [| |contradiction].
      * destruct Hx as (Hflag & Hwire & _). cbn [fst snd] in E.
        assert (Hrej : negb flag
                       || ((14 <? Z.of_nat (length resp))
                           && negb (byte_val (nth 14 resp x00) =? item))
                       = reply_rejected item resp)
          by (unfold reply_rejected; rewrite Hflag; reflexivity).
        rewrite Hrej in E. destruct (reply_rejected item resp) eqn:Er.
        -- injection E as <- <-.
           exists [Sent pkt; Received resp]. split; [exact Hwire|].
           apply (@trace_rejected unit [] pkt resp);
             [constructor | rewrite Hreg; exact Er].
        -- unfold add_status_cur in E. cbn [fst snd] in E.
           destruct (@leaves_elim _ _ _ _ _ (IH (i + 1)) E) as (tr & Htr & Htt).
           exists ([Sent pkt; Received resp] ++ tr). split.
           ++ rewrite Htr. cbn [wire]. rewrite Hwire.
              rewrite <- !app_assoc. reflexivity.
           ++ apply (transfer_trace_app (a := tt)); [|exact Htt].
              apply (@trace_done unit tt [(pkt, resp)]).
              constructor; [|constructor].
              unfold accepted. cbn [fst snd]. rewrite Hreg. exact Er.
      * destruct Hx as ([Hw|Hw] & _); injection E as <- <-.
        -- exists [SendFailed pkt]. split; [exact Hw|].
           apply (@trace_broken unit [] e [SendFailed pkt]);
             [constructor | right; exists pkt; left; reflexivity].
        -- exists [Sent pkt; ReceiveFailed]. split; [exact Hw|].
           apply (@trace_broken unit [] e [Sent pkt; ReceiveFailed]);
             [constructor | right; exists pkt; right; reflexivity].
    + injection E as <- <-. exists []. rewrite app_nil_r.
      split; [reflexivity|]. apply transfer_trace_nothing.
    + exfalso. exact (get_send_packet_bytes_halts _ _ _ _ _ Epkt).
Qed.

Lemma write_item_leaves (self : Radio) (item_Bytes : bytes) (item : Z) :
  0 <= item < 256 ->
  leaves (write_item_current_page_bytes self item_Bytes item).
Proof.
  intros Hitem. apply leaves_intro. intros w res w' E.
  unfold write_item_current_page_bytes in E.
  destruct (is_empty item_Bytes).
  { injection E as <- <-. exists []. rewrite app_nil_r.
    split; [reflexivity | apply transfer_trace_nothing]. }
  unfold bind, lift in E.
  destruct (ceil_div _ _) as [packet_count|e|] eqn:Ec.
  - destruct (packet_count =? 0).
    + injection E as <- <-. exists []. rewrite app_nil_r.
      split; [reflexivity|].
      apply (@trace_done (option bool) (Some true) []). constructor.
    + destruct (write_pages self (Z.to_nat packet_count) 0 item_Bytes item
                  (write_page_len self) packet_count w)
        as [r1 w1] eqn:Ep.
      destruct (@leaves_elim _ _ _ _ _
                  (@write_pages_leaves self (Z.to_nat packet_count) 0
                     item_Bytes item (write_page_len self) packet_count
                     Hitem) Ep) as (tr & Htr & Htt).
      destruct r1 as [[]|e|]; injection E as <- <-;
        exists tr; (split; [exact Htr|]).
      * inversion Htt; subst.
        apply (@trace_done (option bool) None). assumption.
      * inversion Htt; subst; constructor; assumption.
      * inversion Htt.
  - injection E as <- <-. exists []. rewrite app_nil_r.
    split; [reflexivity | apply transfer_trace_nothing].
  - unfold ceil_div in Ec. destruct (_ =? 0); discriminate.
Qed.

Lemma write_regions_leaves (self : Radio) (items : list MemoryRegions)
  (data_bytes : bytes) :
  leaves (write_regions self items data_bytes).
Proof.
  induction items as [|item rest IH]; apply leaves_intro;
    intros w res w' E.
  - injection E as <- <-. exists []. rewrite app_nil_r.
    split; [reflexivity|]. apply (@trace_done unit tt []). constructor.
  - cbn [write_regions] in E.
    destruct (existsb (region_eqb item) _).
    + exact (@leaves_elim _ _ _ _ _ IH E).
    + unfold bind in E.
      destruct (write_item_current_page_bytes self
                  (get_write_item_bytes data_bytes item)
                  (region_value item) w) as [r1 w1] eqn:E1.
      destruct (@leaves_elim _ _ _ _ _
                  (@write_item_leaves self _ _ (region_value_byte item))
                  E1) as (tr1 & Hw1 & Ht1).
      destruct r1 as [a|e|].
      * destruct (@leaves_elim _ _ _ _ _ IH E) as (tr2 & Hw2 & Ht2).
        exists (tr1 ++ tr2). split.
        -- rewrite Hw2, Hw1, app_assoc. reflexivity.
        -- exact (transfer_trace_app Ht1 Ht2).
      * injection E as <- <-. exists tr1. split; [exact Hw1|].
        inversion Ht1; subst; constructor; assumption.
      * inversion Ht1.
Qed.

Lemma write_items_leaves (self : Radio) (mmap : bytes) :
  leaves (write_items self mmap).
Proof.
  apply leaves_intro. intros w res w' E.
  unfold write_items, bind, set_status_cur in E.
  destruct (@leaves_elim _ _ _ _ _
              (write_regions_leaves self all_regions mmap) E)
    as (tr & Htr & Htt).
  exists tr. split; [exact Htr | exact Htt].
Qed.

End UploadWire.

Lemma exchanges_split xs last pre p r post :
  Forall accepted xs ->
  reply_rejected (request_region p) r = true ->
  exchanges xs ++ last = pre ++ Sent p :: Received r :: post ->
  exists pre', last = pre' ++ Sent p :: Received r :: post.
Proof.
  intros Hxs Hr. revert pre. induction Hxs as [|[p0 r0] xs Hx Hxs IH];
    intros pre E.
  - exists pre. exact E.
  - cbn [exchanges app] in E. destruct pre as [|e1 [|e2 pre]].
    + injection E as -> -> _. unfold accepted in Hx. cbn [fst snd] in Hx.
      congruence.
    + discriminate E.
    + injection E as _ _ E. exact (IH pre E).
Qed.

(** A rejected exchange can only be the last thing on the wire, and the
    outcome is then the communication failure. *)
Lemma transfer_trace_rejected_last {A} (res : outcome A) tr pre p r post :
  transfer_trace res tr ->
  tr = pre ++ Sent p :: Received r :: post ->
  reply_rejected (request_region p) r = true ->
  post = [] /\ res = Raise (RadioError "radio reported failure").
Proof.
  intros Ht E Hr. subst tr.
  inversion Ht as [a xs Hxs Eres Etr | xs p' r' Hxs Hr' Eres Etr
                   | xs e last Hxs Hl Eres Etr].
  - rewrite <- (app_nil_r (exchanges xs)) in Etr.
    destruct (@exchanges_split _ _ _ _ _ _ Hxs Hr Etr) as (pre' & E').
    destruct pre'; discriminate E'.
  - destruct (@exchanges_split _ _ _ _ _ _ Hxs Hr Etr) as (pre' & E').
    destruct pre' as [|e1 [|e2 [|e3 pre']]]; try discriminate E'.
    injection E' as _ _ <-. split; reflexivity.
  - destruct (@exchanges_split _ _ _ _ _ _ Hxs Hr Etr) as (pre' & E').
    destruct Hl as [-> | (q & [-> | ->])];
      destruct pre' as [|e1 [|e2 [|e3 pre']]]; discriminate E'.
Qed.

(** C3. Whatever [write_items] puts on the wire, an exchange whose
    response fails validation or echoes another region than the request
    names is the last thing on it, and the upload has raised the
    communication failure: nothing is sent after it, for that region or
    for a later one. *)
Theorem write_items_aborts_on_first_failure {D} {T : Transport D}
  (self : Radio) (mmap : bytes) (w : World D) :
  exists tr,
    wire (snd (write_items self mmap w)) = wire w ++ tr
    /\ forall pre p r post,
         tr = pre ++ Sent p :: Received r :: post ->
         reply_rejected (request_region p) r = true ->
         post = []
         /\ fst (write_items self mmap w)
            = Raise (RadioError "radio reported failure").
Proof.
  destruct (write_items_leaves self mmap w) as (tr & Htr & Htt).
  exists tr. split; [exact Htr|].
  intros pre p r post E Hr.
  exact (@transfer_trace_rejected_last _ _ _ _ _ _ _ Htt E Hr).
Qed.

Lemma write_items_aborts_on_first_failure_witness :
  fst (write_items HA1G blank_image
         (fresh (mkScript [device_reply 6 0 []; []] 10)))
  = Raise (RadioError "radio reported failure")
  /\ count_sent
       (wire (snd (write_items HA1G blank_image
                     (fresh (mkScript [device_reply 6 0 []; []] 10)))))
     = 2%nat.
Proof.
  set (w0 := fresh (mkScript [device_reply 6 0 []; []] 10)).
  destruct (write_items_aborts_on_first_failure HA1G blank_image w0)
    as (tr & Htr & H).
  change (wire w0 ++ tr) with tr in Htr. subst tr.
  set (tr0 := wire (snd (write_items HA1G blank_image w0))) in *.
  set (p0 := match nth 2 tr0 ReceiveFailed with Sent p => p | _ => [] end).
  assert (E1 : tr0 = firstn 2 tr0 ++ Sent p0 :: Received [] :: [])
    by (vm_compute; reflexivity).
  assert (E2 : reply_rejected (request_region p0) [] = true)
    by (vm_compute; reflexivity).
  split.
  - exact (proj2 (H (firstn 2 tr0) p0 [] [] E1 E2)).
  - vm_compute. reflexivity.
Defined.

(** ** Slices of the device image *)

Lemma Forall_firstn_of {A} (P : A -> Prop) (n : nat) (l : list A) :
  Forall P l -> Forall P (firstn n l).
Proof.
  intros H. rewrite <- (firstn_skipn n l) in H.
  apply Forall_app in H. apply H.
Qed.

Lemma Forall_skipn_of {A} (P : A -> Prop) (n : nat) (l : list A) :
  Forall P l -> Forall P (skipn n l).
Proof.
  intros H. rewrite <- (firstn_skipn n l) in H.
  apply Forall_app in H. apply H.
Qed.

Lemma Forall_py_slice {A} (P : A -> Prop) lo hi (l : list A) :
  Forall P l -> Forall P (py_slice lo hi l).
Proof. intros H. apply Forall_firstn_of, Forall_skipn_of, H. Qed.

Lemma py_slice_window {A} (a l : Z) (img : list A) :
  0 <= a -> 0 <= l -> a + l <= Z.of_nat (length img) ->
  py_slice (Some a) (Some (a + l)) img
  = firstn (Z.to_nat l) (skipn (Z.to_nat a) img).
Proof.
  intros Ha Hl Hb. unfold py_slice, clip_index.
  destruct (Z.ltb_spec a 0); [lia|].
  destruct (Z.ltb_spec (a + l) 0); [lia|].
  rewrite !Z.min_l by lia. f_equal. lia.
Qed.

Lemma py_slice_prefix {A} (k : Z) (l : list A) :
  0 <= k <= Z.of_nat (length l) ->
  py_slice None (Some k) l = firstn (Z.to_nat k) l.
Proof.
  intros Hk. unfold py_slice, clip_index.
  destruct (Z.ltb_spec k 0); [lia|].
  rewrite Z.min_l by lia. rewrite Z.sub_0_r. reflexivity.
Qed.

Lemma py_slice_assign_window {A} (s k : Z) (v img : list A) :
  0 <= s -> 0 <= k -> s + k <= Z.of_nat (length img) ->
  py_slice_assign s (s + k) v img
  = firstn (Z.to_nat s) img ++ v ++ skipn (Z.to_nat s + Z.to_nat k) img.
Proof.
  intros Hs Hk Hb. unfold py_slice_assign, clip_index.
  destruct (Z.ltb_spec s 0); [lia|].
  destruct (Z.ltb_spec (s + k) 0); [lia|].
  rewrite !Z.min_l by lia. rewrite Z.max_r by lia.
  do 3 f_equal. lia.
Qed.

(** Writing [k] elements at offset [s] leaves every window that does not
    meet [s .. s + k) as it was. *)
Lemma window_after_write {A} (img v : list A) (s k a l : nat) :
  length v = k -> (s + k <= length img)%nat ->
  (a + l <= s \/ s + k <= a)%nat ->
  firstn l (skipn a (firstn s img ++ v ++ skipn (s + k) img))
  = firstn l (skipn a img).
Proof.
  intros Hv Hb Hd. apply nth_error_ext. intros i.
  rewrite !nth_error_firstn. destruct (Nat.ltb_spec i l); [|reflexivity].
  rewrite !nth_error_skipn, !nth_error_app, !nth_error_skipn.
  rewrite nth_error_firstn, length_firstn, Hv.
  rewrite Nat.min_l by lia.
  destruct (Nat.ltb_spec (a + i) s).
  - reflexivity.
  - destruct (Nat.ltb_spec (a + i - s) k); [lia|]. f_equal. lia.
Qed.

Lemma length_after_write {A} (img v : list A) (s k : nat) :
  length v = k -> (s + k <= length img)%nat ->
  length (firstn s img ++ v ++ skipn (s + k) img) = length img.
Proof.
  intros Hv Hb. rewrite !length_app, length_firstn, length_skipn. lia.
Qed.

(** The same for a region write as [read_item_handle_connect_event]
    makes it: at most [len_s] bytes of [item_bytes] go to offset [s]. *)
Lemma region_write_keeps (img item_bytes : bytes) (s len_s a l : Z) :
  0 <= s -> 0 <= len_s -> 0 <= a -> 0 <= l ->
  s + len_s <= Z.of_nat (length img) -> a + l <= Z.of_nat (length img) ->
  a + l <= s \/ s + len_s <= a ->
  let k := Z.min (Z.of_nat (length item_bytes)) len_s in
  let img' :=
    py_slice_assign s (s + k) (py_slice None (Some k) item_bytes) img in
  length img' = length img
  /\ py_slice (Some a) (Some (a + l)) img'
     = py_slice (Some a) (Some (a + l)) img.
Proof.
  intros Hs Hls Ha Hl Hbs Hba Hd. cbv zeta.
  set (k := Z.min (Z.of_nat (length item_bytes)) len_s).
  assert (Hk : 0 <= k <= len_s) by (unfold k; lia).
  assert (Hk' : k <= Z.of_nat (length item_bytes)) by (unfold k; lia).
  rewrite py_slice_prefix by lia.
  rewrite py_slice_assign_window by lia.
  assert (Hv : length (firstn (Z.to_nat k) item_bytes) = Z.to_nat k)
    by (rewrite length_firstn; lia).
  split.
  - apply length_after_write; [exact Hv | lia].
  - rewrite !py_slice_window;
      try lia; [|rewrite length_after_write; [lia | exact Hv | lia]].
    apply window_after_write; [exact Hv | lia | lia].
Qed.

(** ** Download: regions of the image *)

Lemma read_item_keeps (all_bytes item_bytes : bytes) (item other : MemoryRegions) :
  52114 <= Z.of_nat (length all_bytes) ->
  length (read_item_handle_connect_event all_bytes item_bytes item)
  = length all_bytes
  /\ (item <> other ->
      get_write_item_bytes
        (read_item_handle_connect_event all_bytes item_bytes item) other
      = get_write_item_bytes all_bytes other).
Proof.
  intros Hlen.
  unfold read_item_handle_connect_event, get_write_item_bytes.
  destruct item, other; cbn [ranges_get MEMORY_REGIONS_RANGES region_eqb
                              region_value Z.eqb Pos.eqb];
    (split; [ apply (@region_write_keeps all_bytes item_bytes _ _ 0 0); lia
            | intros Hne; try contradiction;
              apply region_write_keeps; lia ]).
Qed.

Lemma unpack_H_range (b : bytes) (v : Z) :
  unpack_H b = Ok v -> 0 <= v <= 65535.
Proof.
  destruct b as [|lo [|hi [|? ?]]]; try discriminate.
  unfold unpack_H. intros E.
  assert (Ev : v = byte_val lo + 256 * byte_val hi) by congruence.
  pose proof (byte_val_range lo). pose proof (byte_val_range hi). lia.
Qed.

Lemma unpack_H_halts (b : bytes) : unpack_H b <> Diverge.
Proof. destruct b as [|lo [|hi [|? ?]]]; discriminate. Qed.

Lemma to_bytes_2_little_halts (v : Z) : to_bytes_2_little v <> Diverge.
Proof. unfold to_bytes_2_little. destruct (_ && _); discriminate. Qed.

Section DownloadFacts.
Context {D : Type} {T : Transport D}.

Lemma halts_add_status_cur (n : Z) : halts (add_status_cur (D := D) n).
Proof. intros w. discriminate. Qed.

Lemma halts_bind_ret {A B} (a : A) (k : A -> M D B) :
  halts (k a) -> halts (bind (ret a) k).
Proof. intros H w. exact (H w). Qed.

(** Past the first packet the count is fixed, and fuel for the packets
    still to come is enough. *)
Lemma read_loop_halts_from (self : Radio) (item : Z) (fuel : nat) :
  forall packet_index packet_count item_bytes,
    1 <= packet_index ->
    packet_count - packet_index <= Z.of_nat fuel ->
    halts (read_loop self fuel item packet_index packet_count item_bytes).
Proof.
  induction fuel as [|fuel IH]; intros idx cnt acc Hidx Hfuel.
  - cbn [read_loop]. destruct (Z.ltb_spec idx cnt); [lia|].
    apply halts_ret.
  - cbn [read_loop]. destruct (Z.ltb_spec idx cnt); [|apply halts_ret].
    apply halts_bind; [apply halts_lift, to_bytes_2_little_halts|].
    intros idxb.
    apply halts_bind; [apply halts_lift, get_send_packet_bytes_halts|].
    intros pkt. apply halts_bind; [apply halts_exchange|]. intros r.
    destruct (negb (fst r) || _); [apply halts_raise|].
    destruct (Z.eqb_spec idx 0); [lia|].
    apply halts_bind_ret.
    apply halts_bind; [apply halts_add_status_cur|]. intros _.
    apply IH; lia.
Qed.

Lemma get_read_current_packet_bytes_halts (self : Radio) (item : Z) :
  halts (get_read_current_packet_bytes self item).
Proof.
  unfold get_read_current_packet_bytes.
  replace (Z.to_nat 65536) with (S (Z.to_nat 65535)) by lia.
  remember (Z.to_nat 65535) as fuel eqn:Hfuel.
  cbn [read_loop]. change (0 <? 1) with true. cbv iota.
  apply halts_bind; [apply halts_lift, to_bytes_2_little_halts|].
  intros idxb.
  apply halts_bind; [apply halts_lift, get_send_packet_bytes_halts|].
  intros pkt. apply halts_bind; [apply halts_exchange|]. intros r.
  destruct (negb (fst r) || _); [apply halts_raise|].
  change (0 =? 0) with true. cbv iota.
  intros w. unfold bind at 1, lift at 1.
  destruct (unpack_H _) as [cnt| |] eqn:Eu; cbn [fst];
    [|discriminate|destruct (unpack_H_halts _ Eu)].
  apply unpack_H_range in Eu.
  assert (Hh : halts (add_status_cur (D := D)
                        (Z.of_nat (length (snd r))) ;;;
                      read_loop self fuel item (0 + 1) cnt
                        ([] ++ py_slice (Some 20) (Some (-3)) (snd r)))).
  { apply halts_bind; [apply halts_add_status_cur|]. intros _.
    apply read_loop_halts_from; lia. }
  exact (Hh w).
Qed.

End DownloadFacts.

Lemma all_regions_NoDup : NoDup all_regions.
Proof.
  unfold all_regions.
  repeat (constructor; [cbn [In]; intuition discriminate|]). constructor.
Qed.

Lemma zero_filled_blank (n : nat) (item : MemoryRegions) :
  zero_filled (repeat x00 n) item.
Proof.
  unfold zero_filled, get_write_item_bytes.
  destruct (ranges_get MEMORY_REGIONS_RANGES item) as [[start len]|];
    [|constructor].
  apply Forall_py_slice, Forall_repeat_x00.
Qed.

Section DownloadImage.
Context {D : Type} {T : Transport D}.

Lemma read_regions_cons (self : Radio) item rest img (w : World D) :
  read_regions self (item :: rest) img w
  = match try_except
          (item_bytes <-
             get_read_current_packet_bytes self (region_value item) ;;
           if negb (is_empty item_bytes)
           then ret (read_item_handle_connect_event img item_bytes item)
           else ret img)
          (fun _ => ret img) w with
    | (Ok a, w1) => read_regions self rest a w1
    | (Raise e, w1) => (Raise e, w1)
    | (Diverge, w1) => (Diverge, w1)
    end.
Proof. reflexivity. Qed.

(** The loop over the regions always returns an image, of the length it
    started with, and only the slices of the regions it went through
    can have changed. *)
Lemma read_regions_keeps (self : Radio) (items : list MemoryRegions) :
  forall all_bytes w,
    52114 <= Z.of_nat (length all_bytes) ->
    exists all_bytes',
      fst (read_regions self items all_bytes w) = Ok all_bytes'
      /\ length all_bytes' = length all_bytes
      /\ forall other, ~ In other items ->
           get_write_item_bytes all_bytes' other
           = get_write_item_bytes all_bytes other.
Proof.
  induction items as [|item rest IH]; intros img w Hlen.
  - exists img. repeat split; reflexivity.
  - rewrite read_regions_cons. unfold try_except, bind.
    pose proof (get_read_current_packet_bytes_halts self
                  (region_value item) w) as Hh.
    destruct (get_read_current_packet_bytes self (region_value item) w)
      as [[ib|e|] w1]; cbn [fst] in Hh; [| |congruence].
    + destruct (negb (is_empty ib)); cbn [ret].
      * destruct (read_item_keeps img ib item item Hlen) as [Hl _].
        destruct (IH (read_item_handle_connect_event img ib item) w1
                    ltac:(rewrite Hl; exact Hlen))
          as (img' & Hr & Hl' & Hk).
        exists img'. split; [exact Hr|]. split; [congruence|].
        intros other Hni. rewrite Hk by (intros Hin; apply Hni; right; exact Hin).
        apply (read_item_keeps img ib item other Hlen).
        intros ->. apply Hni. left. reflexivity.
      * destruct (IH img w1 Hlen) as (img' & Hr & Hl' & Hk).
        exists img'. split; [exact Hr|]. split; [exact Hl'|].
        intros other Hni. apply Hk. intros Hin. apply Hni. right. exact Hin.
    + cbn [ret]. destruct (IH img w1 Hlen) as (img' & Hr & Hl' & Hk).
      exists img'. split; [exact Hr|]. split; [exact Hl'|].
      intros other Hni. apply Hk. intros Hin. apply Hni. right. exact Hin.
Qed.

Lemma read_regions_app (self : Radio) (pre rest : list MemoryRegions) :
  forall all_bytes w img1 w1,
    read_regions self pre all_bytes w = (Ok img1, w1) ->
    read_regions self (pre ++ rest) all_bytes w
    = read_regions self rest img1 w1.
Proof.
  induction pre as [|item pre IH]; intros img w img1 w1 E.
  - injection E as <- <-. reflexivity.
  - rewrite <- app_comm_cons. rewrite read_regions_cons in *.
    destruct (try_except _ _ w) as [[a|e|] w']; try discriminate E.
    exact (IH _ _ _ _ E).
Qed.

(** A region whose transfer raises is skipped: the image is not
    touched and the loop goes on with the next region. *)
Lemma read_regions_skip (self : Radio) (item : MemoryRegions)
  (rest : list MemoryRegions) (all_bytes : bytes) (w : World D) (e : exn) :
  fst (get_read_current_packet_bytes self (region_value item) w) = Raise e ->
  read_regions self (item :: rest) all_bytes w
  = read_regions self rest all_bytes
      (snd (get_read_current_packet_bytes self (region_value item) w)).
Proof.
  intros E. rewrite read_regions_cons. unfold try_except, bind.
  destruct (get_read_current_packet_bytes self (region_value item) w)
    as [[ib|e'|] w1]; try discriminate E. reflexivity.
Qed.

Lemma read_items_unfold (self : Radio) (w : World D) :
  0 <= _memsize self ->
  read_items self w
  = read_regions self all_regions (repeat x00 (Z.to_nat (_memsize self)))
      (snd (set_status_cur 0 w)).
Proof.
  intros H. unfold read_items, bind, lift, bytearray.
  destruct (Z.ltb_spec (_memsize self) 0); [lia | reflexivity].
Qed.

End DownloadImage.

(** ** Download: the wire of a region transfer *)

Section DownloadWire.
Context {D : Type} {T : Transport D}.

(** One turn of the loop. *)
Lemma read_loop_S (self : Radio) (fuel : nat) (item idx cnt : Z)
  (acc : bytes) (w : World D) :
  idx < cnt ->
  read_loop self (S fuel) item idx cnt acc w
  = match to_bytes_2_little idx with
    | Ok idxb =>
        match get_send_packet_bytes item 0 2 1 idxb with
        | Ok pkt =>
            match exchange_block_with_radio pkt (read_packet_len self) w with
            | (Ok r, w1) =>
                if negb (fst r)
                   || ((14 <? Z.of_nat (length (snd r)))
                       && negb (byte_val (nth 14 (snd r) x00) =? item))
                then (Raise (RadioError "radio reported failure"), w1)
                else
                  match (if idx =? 0
                         then unpack_H (py_slice (Some 18) (Some 20) (snd r))
                         else Ok cnt) with
                  | Ok cnt' =>
                      read_loop self fuel item (idx + 1) cnt'
                        (acc ++ payload_of (snd r))
                        (mkWorld (pipe w1) (wire w1) (naps w1)
                           (status_cur w1 + Z.of_nat (length (snd r))))
                  | Raise e => (Raise e, w1)
                  | Diverge => (Diverge, w1)
                  end
            | (Raise e, w1) => (Raise e, w1)
            | (Diverge, w1) => (Diverge, w1)
            end
        | Raise e => (Raise e, w)
        | Diverge => (Diverge, w)
        end
    | Raise e => (Raise e, w)
    | Diverge => (Diverge, w)
    end.
Proof.
  intros Hlt. cbn [read_loop].
  destruct (Z.ltb_spec idx cnt); [|lia].
  unfold bind at 1, lift at 1.
  destruct (to_bytes_2_little idx) as [idxb| |]; [|reflexivity|reflexivity].
  unfold bind at 1, lift at 1.
  destruct (get_send_packet_bytes item 0 2 1 idxb) as [pkt| |];
    [|reflexivity|reflexivity].
  unfold bind at 1.
  destruct (exchange_block_with_radio pkt (read_packet_len self) w)
    as [[r| |] w1]; [|reflexivity|reflexivity].
  destruct (negb (fst r) || _); [reflexivity|].
  unfold bind at 1.
  destruct (Z.eqb_spec idx 0).
  - unfold lift at 1.
    destruct (unpack_H _) as [c| |]; reflexivity.
  - reflexivity.
Qed.

Lemma read_loop_done (self : Radio) (fuel : nat) (item idx cnt : Z)
  (acc : bytes) (w : World D) :
  cnt <= idx -> read_loop self fuel item idx cnt acc w = (Ok acc, w).
Proof.
  intros Hge. destruct fuel; cbn [read_loop];
    destruct (Z.ltb_spec idx cnt); try lia; reflexivity.
Qed.

(** What a region download leaves on the wire, as for the upload; and
    every request it writes names the region. *)
Lemma read_loop_leaves (self : Radio) (item : Z) (fuel : nat) :
  0 <= item < 256 ->
  forall packet_index packet_count item_bytes (w : World D),
    fst (read_loop self fuel item packet_index packet_count item_bytes w)
    <> Diverge ->
    exists tr,
      wire (snd (read_loop self fuel item packet_index packet_count
                   item_bytes w)) = wire w ++ tr
      /\ transfer_trace
           (fst (read_loop self fuel item packet_index packet_count
                   item_bytes w)) tr
      /\ Forall (fun p => request_region p = item) (written tr).
Proof.
  intros Hitem. induction fuel as [|fuel IH]; intros idx cnt acc w.
  - destruct (Z.lt_ge_cases idx cnt) as [Hlt|Hge].
    + cbn [read_loop]. destruct (Z.ltb_spec idx cnt); [|lia].
      intros Hnd. exfalso. apply Hnd. reflexivity.
    + rewrite read_loop_done by lia. intros _.
      exists []. rewrite app_nil_r. split; [reflexivity|].
      split; [apply (@trace_done bytes acc []); constructor | constructor].
  - destruct (Z.lt_ge_cases idx cnt) as [Hlt|Hge].
    2:{ rewrite read_loop_done by lia. intros _.
        exists []. rewrite app_nil_r. split; [reflexivity|].
        split; [apply (@trace_done bytes acc []); constructor
               | constructor]. }
    rewrite read_loop_S by exact Hlt.
    destruct (to_bytes_2_little idx) as [idxb|e|].
    2:{ intros _. exists []. rewrite app_nil_r. split; [reflexivity|].
        split; [apply transfer_trace_nothing | constructor]. }
    2:{ intros Hnd. exfalso. apply Hnd. reflexivity. }
    destruct (get_send_packet_bytes item 0 2 1 idxb) as [pkt|e|] eqn:Epkt.
    2:{ intros _. exists []. rewrite app_nil_r. split; [reflexivity|].
        split; [apply transfer_trace_nothing | constructor]. }
    2:{ intros Hnd. exfalso. apply Hnd. reflexivity. }
    pose proof (request_region_of_packet _ _ _ _ Hitem Epkt) as Hreg.
    pose proof (exchange_outcome pkt (read_packet_len self) w) as Hx.
    destruct (exchange_block_with_radio pkt (read_packet_len self) w)
      as [[[flag resp]|e|] w1]; [| |contradiction].
    + destruct Hx as (Hflag & Hwire & _). cbn [fst snd].
      assert (Hrej : negb flag
                     || ((14 <? Z.of_nat (length resp))
                         && negb (byte_val (nth 14 resp x00) =? item))
                     = reply_rejected item resp)
        by (unfold reply_rejected; rewrite Hflag; reflexivity).
      rewrite Hrej. destruct (reply_rejected item resp) eqn:Er.
      * intros _. exists [Sent pkt; Received resp]. split; [exact Hwire|].
        split.
        -- apply (@trace_rejected bytes [] pkt resp);
             [constructor | rewrite Hreg; exact Er].
        -- cbn. constructor; [exact Hreg | constructor].
      * assert (Hacc : Forall accepted [(pkt, resp)]).
        { constructor; [|constructor]. unfold accepted. cbn [fst snd].
          rewrite Hreg. exact Er. }
        destruct (if idx =? 0
                  then unpack_H (py_slice (Some 18) (Some 20) resp)
                  else Ok cnt) as [cnt'|e|].
        -- intros Hnd.
           destruct (IH (idx + 1) cnt' (acc ++ payload_of resp) _ Hnd)
             as (tr & Hw & Htt & Hall).
           exists ([Sent pkt; Received resp] ++ tr). split.
           ++ rewrite Hw. cbn [wire]. rewrite Hwire.
              rewrite <- !app_assoc. reflexivity.
           ++ split.
              ** apply (transfer_trace_app (a := tt)); [|exact Htt].
                 apply (@trace_done unit tt [(pkt, resp)]). exact Hacc.
              ** unfold written in *. rewrite flat_map_app.
                 apply Forall_app. split; [|exact Hall].
                 cbn. constructor; [exact Hreg | constructor].
        -- intros _. exists [Sent pkt; Received resp].
           split; [exact Hwire|]. split.
           ++ apply (@trace_broken bytes [(pkt, resp)] e []);
                [exact Hacc | left; reflexivity].
           ++ cbn. constructor; [exact Hreg | constructor].
        -- intros Hnd. exfalso. apply Hnd. reflexivity.
    + destruct Hx as ([Hw|Hw] & _); cbn [fst snd]; intros _.
      * exists [SendFailed pkt]. split; [exact Hw|]. split.
        -- apply (@trace_broken bytes [] e [SendFailed pkt]);
             [constructor | right; exists pkt; left; reflexivity].
        -- cbn. constructor; [exact Hreg | constructor].
      * exists [Sent pkt; ReceiveFailed]. split; [exact Hw|]. split.
        -- apply (@trace_broken bytes [] e [Sent pkt; ReceiveFailed]);
             [constructor | right; exists pkt; right; reflexivity].
        -- cbn. constructor; [exact Hreg | constructor].
Qed.

Lemma get_read_current_packet_bytes_eq (self : Radio) (item : Z) :
  get_read_current_packet_bytes self item
  = read_loop self (Z.to_nat 65536) item 0 1 [].
Proof. reflexivity. Qed.

Lemma region_download_leaves (self : Radio) (item : MemoryRegions)
  (w : World D) :
  exists tr,
    wire (snd (get_read_current_packet_bytes self (region_value item) w))
    = wire w ++ tr
    /\ transfer_trace
         (fst (get_read_current_packet_bytes self (region_value item) w)) tr
    /\ Forall (fun p => request_region p = region_value item) (written tr).
Proof.
  pose proof (get_read_current_packet_bytes_halts self (region_value item) w)
    as Hh.
  rewrite get_read_current_packet_bytes_eq in *.
  generalize dependent (Z.to_nat 65536). intros fuel Hh.
  exact (@read_loop_leaves self (region_value item) fuel
           (region_value_byte item) 0 1 [] w Hh).
Qed.
End DownloadWire.

(** C2. With an image size that holds all the regions, [read_items]
    returns an image of exactly [_memsize] bytes whatever the device
    does.  For each region [item] of the catalogue, reached with the
    image [img1] in the state [w1]: every request of its transfer names
    the region at byte 14; an exchange of the transfer whose response
    fails [validate_packet], or is longer than 14 bytes and carries
    another region at byte 14, is the last thing the transfer puts on
    the wire, and the transfer raises the communication failure; and
    when the transfer raises, for this or any other reason, the image is
    left as it was, the loop goes on with the regions after it, and the
    slice of that region holds zero bytes in the image returned. *)
Theorem read_items_skips_failed_region {D} {T : Transport D}
  (self : Radio) (w : World D) :
  52114 <= _memsize self ->
  exists all_bytes,
    fst (read_items self w) = Ok all_bytes
    /\ Z.of_nat (length all_bytes) = _memsize self
    /\ forall pre item post img1 w1,
         all_regions = pre ++ item :: post ->
         read_regions self pre (repeat x00 (Z.to_nat (_memsize self)))
                      (snd (set_status_cur 0 w)) = (Ok img1, w1) ->
         exists tr,
           wire (snd (get_read_current_packet_bytes self
                        (region_value item) w1)) = wire w1 ++ tr
           /\ (forall before p r after,
                 tr = before ++ Sent p :: Received r :: after ->
                 request_region p = region_value item
                 /\ (reply_rejected (region_value item) r = true ->
                     after = []
                     /\ fst (get_read_current_packet_bytes self
                               (region_value item) w1)
                        = Raise (RadioError "radio reported failure")))
           /\ (forall e,
                 fst (get_read_current_packet_bytes self
                        (region_value item) w1) = Raise e ->
                 zero_filled all_bytes item
                 /\ read_items self w
                    = read_regions self post img1
                        (snd (get_read_current_packet_bytes self
                                (region_value item) w1))).
Proof.
  intros Hm.
  set (blank := repeat x00 (Z.to_nat (_memsize self))).
  set (w0 := snd (set_status_cur 0 w)).
  assert (Hb : 52114 <= Z.of_nat (length blank))
    by (unfold blank; rewrite repeat_length; lia).
  rewrite read_items_unfold by lia. fold blank w0.
  destruct (read_regions_keeps self all_regions blank w0 Hb)
    as (img & Hr & Hl & _).
  exists img. split; [exact Hr|]. split.
  { rewrite Hl. unfold blank. rewrite repeat_length. lia. }
  intros pre item post img1 w1 Hsplit Hpre.
  destruct (region_download_leaves self item w1) as (tr & Hw & Htt & Hreq).
  exists tr. split; [exact Hw|]. split.
  { intros before p r after Etr.
    assert (Hp : request_region p = region_value item).
    { rewrite Etr in Hreq. unfold written in Hreq.
      rewrite flat_map_app in Hreq. apply Forall_app in Hreq.
      destruct Hreq as [_ Hreq]. cbn in Hreq.
      inversion Hreq; assumption. }
    split; [exact Hp|]. intros Hrej. rewrite <- Hp in Hrej.
    exact (@transfer_trace_rejected_last _ _ _ _ _ _ _ Htt Etr Hrej). }
  intros e Hfail.
  pose proof all_regions_NoDup as Hnd. rewrite Hsplit in Hnd.
  apply NoDup_remove_2 in Hnd.
  assert (Hstep : read_regions self all_regions blank w0
                  = read_regions self post img1
                      (snd (get_read_current_packet_bytes self
                              (region_value item) w1))).
  { rewrite Hsplit, (read_regions_app self pre (item :: post) _ _ Hpre).
    apply (read_regions_skip self item post img1 w1 Hfail). }
  split; [|exact Hstep].
  unfold zero_filled.
  assert (H1 : 52114 <= Z.of_nat (length img1)).
  { destruct (read_regions_keeps self pre blank w0 Hb) as (i1 & Hr1 & Hl1 & _).
    rewrite Hpre in Hr1. injection Hr1 as <-. rewrite Hl1. exact Hb. }
  destruct (read_regions_keeps self pre blank w0 Hb) as (i1 & Hr1 & _ & Hk1).
  rewrite Hpre in Hr1. injection Hr1 as <-.
  destruct (read_regions_keeps self post img1
              (snd (get_read_current_packet_bytes self (region_value item) w1))
              H1) as (i2 & Hr2 & _ & Hk2).
  rewrite <- Hstep, Hr in Hr2. injection Hr2 as <-.
  rewrite Hk2 by (intros Hin; apply Hnd, in_or_app; right; exact Hin).
  rewrite Hk1 by (intros Hin; apply Hnd, in_or_app; left; exact Hin).
  apply zero_filled_blank.
Qed.

Lemma read_items_skips_failed_region_witness :
  exists all_bytes,
    fst (read_items HA1G
           (fresh (mkScript [device_reply 7 1 (ascii_bytes "HA1G-head-0001")]
                            30)))
    = Ok all_bytes
    /\ Z.of_nat (length all_bytes) = _memsize HA1G
    /\ validate_packet
         (device_reply 7 1 (ascii_bytes "HA1G-head-0001")) 1024 = true
    /\ fst (get_read_current_packet_bytes HA1G (region_value radioHead)
              (snd (set_status_cur 0
                      (fresh (mkScript
                                [device_reply 7 1
                                   (ascii_bytes "HA1G-head-0001")] 30)))))
       = Raise (RadioError "radio reported failure")
    /\ zero_filled all_bytes radioHead.
Proof.
  set (w := fresh (mkScript [device_reply 7 1 (ascii_bytes "HA1G-head-0001")]
                            30)).
  assert (Hm : 52114 <= _memsize HA1G) by (cbn; lia).
  destruct (read_items_skips_failed_region HA1G w Hm)
    as (all_bytes & Hr & Hl & Hskip).
  exists all_bytes. split; [exact Hr|]. split; [exact Hl|].
  split; [vm_compute; reflexivity|].
  assert (E1 : all_regions
               = [] ++ radioHead
                 :: [radioInfo; radioVer; settingData; zoneData; channelData;
                     scanData; vfoScanData; alarmData; dTMFData])
    by reflexivity.
  destruct (Hskip _ _ _ _ _ E1 eq_refl) as (tr & Hw & Hrej & Hraise).
  set (w0 := snd (set_status_cur 0 w)) in *.
  change (wire w0 ++ tr) with tr in Hw. subst tr.
  set (tr0 := wire (snd (get_read_current_packet_bytes HA1G
                           (region_value radioHead) w0))) in *.
  set (p0 := match nth 0 tr0 ReceiveFailed with Sent p => p | _ => [] end).
  assert (E2 : tr0 = [] ++ Sent p0
                     :: Received (device_reply 7 1
                                    (ascii_bytes "HA1G-head-0001")) :: [])
    by (vm_compute; reflexivity).
  assert (E3 : reply_rejected (region_value radioHead)
                 (device_reply 7 1 (ascii_bytes "HA1G-head-0001")) = true)
    by (vm_compute; reflexivity).
  pose proof (proj2 (proj2 (Hrej _ _ _ _ E2) E3)) as Hfail.
  split; [exact Hfail|].
  exact (proj1 (Hraise _ Hfail)).
Defined.

(** ** Sessions: [do_download] and [do_upload] *)

Section SessionFacts.
Context {D : Type} {T : Transport D}.

Lemma halts_sleep : halts (sleep (D := D)).
Proof. intros w. discriminate. Qed.

Lemma halts_set_status_cur (v : Z) : halts (set_status_cur (D := D) v).
Proof. intros w. discriminate. Qed.

Lemma handshake_loop_halts (self : Radio) (n : nat) (databytes : bytes) :
  halts (handshake_loop self n databytes).
Proof.
  revert databytes. induction n as [|n IH]; intros databytes.
  - apply halts_ret.
  - cbn [handshake_loop].
    apply halts_bind; [apply halts_lift, get_handshake_bytes_halts|].
    intros pkt. apply halts_bind; [apply halts_exchange|]. intros r.
    apply halts_bind; [apply halts_sleep|]. intros _.
    destruct (fst r); [apply halts_ret | apply IH].
Qed.

Lemma handshake_halts (self : Radio) : halts (handshake self).
Proof.
  apply halts_bind; [apply handshake_loop_halts|]. intros databytes.
  apply halts_lift, handshake_handle_connect_event_halts.
Qed.

Lemma read_regions_halts (self : Radio) (items : list MemoryRegions)
  (all_bytes : bytes) : halts (read_regions self items all_bytes).
Proof.
  revert all_bytes. induction items as [|item rest IH]; intros img.
  - apply halts_ret.
  - cbn [read_regions]. apply halts_bind; [|intros a; apply IH].
    apply halts_try_except; [|intros e; apply halts_ret].
    apply halts_bind; [apply get_read_current_packet_bytes_halts|].
    intros ib. destruct (negb (is_empty ib)); apply halts_ret.
Qed.

Lemma read_items_halts (self : Radio) : halts (read_items self).
Proof.
  apply halts_bind.
  - apply halts_lift. unfold bytearray. destruct (_ <? 0); discriminate.
  - intros img. apply halts_bind; [apply halts_set_status_cur|].
    intros _. apply read_regions_halts.
Qed.

Lemma write_items_halts (self : Radio) (mmap : bytes) :
  halts (write_items self mmap).
Proof.
  intros w. destruct (write_items_leaves self mmap w) as (tr & _ & Ht).
  intros E. rewrite E in Ht. inversion Ht.
Qed.

(** The [except] clauses leave a result or a [RadioError]. *)
Lemma normalized_outcome {A} (m : M D A) (w : World D) :
  halts m ->
  (exists a, fst (try_except m normalize_error w) = Ok a)
  \/ (exists msg,
        fst (try_except m normalize_error w) = Raise (RadioError msg)).
Proof.
  intros Hm. specialize (Hm w). unfold try_except.
  destruct (m w) as [[a|e|] w1]; cbn [fst] in *.
  - left. exists a. reflexivity.
  - right. destruct e; cbn; eexists; reflexivity.
  - congruence.
Qed.

Lemma exit_programming_mode_outcome (w : World D) :
  (fst (exit_programming_mode w) = Ok tt
   /\ wire (snd (exit_programming_mode w)) = wire w ++ [Sent exit_packet])
  \/ (fst (exit_programming_mode w)
      = Raise (RadioError "Radio refused to exit programming mode")
      /\ wire (snd (exit_programming_mode w))
         = wire w ++ [SendFailed exit_packet]).
Proof.
  unfold exit_programming_mode.
  change (get_send_packet_bytes 111 0 0 1 [x00]) with (Ok exit_packet).
  unfold try_except, bind, lift, serial_write, raise.
  destruct (pipe_write exit_packet (pipe w)) as [[e|] d]; cbn.
  - right. split; reflexivity.
  - left. split; reflexivity.
Qed.

Lemma try_finally_exit_outcome {A} (guarded : M D A) (w : World D) :
  ((exists a, fst (guarded w) = Ok a)
   \/ (exists msg, fst (guarded w) = Raise (RadioError msg))) ->
  session_outcome guarded (try_finally guarded exit_programming_mode) w.
Proof.
  intros Hg. unfold session_outcome. split; [exact Hg|].
  unfold try_finally.
  destruct (guarded w) as [r w1]. cbn [fst snd] in *.
  destruct (exit_programming_mode_outcome w1) as [[Hx Hw]|[Hx Hw]];
    destruct (exit_programming_mode w1) as [x w2]; cbn [fst snd] in *;
    subst x.
  - left. destruct Hg as [[a ->]|[msg ->]]; cbn; auto.
  - right. destruct Hg as [[a ->]|[msg ->]]; cbn; auto.
Qed.

End SessionFacts.

(** C1, as the code has it.  From every state and with every device,
    [do_download] and [do_upload] end with the write of the exit packet
    as the last event on the wire, after a [try] block that returned or
    raised a [RadioError].  When that write goes through, the outcome of
    the [try] block stands; when it fails, the outcome is the error
    "Radio refused to exit programming mode", whether the [try] block
    had returned or raised. *)
Theorem exit_programming_mode_always_runs {D} {T : Transport D}
  (self : Radio) (mmap : bytes) (w : World D) :
  session_outcome (do_download_guarded self) (do_download self) w
  /\ session_outcome (do_upload_guarded self mmap) (do_upload self mmap) w.
Proof.
  split; apply try_finally_exit_outcome; apply normalized_outcome.
  - apply halts_bind; [apply handshake_halts|]. intros s.
    destruct (is_Normal s); [apply read_items_halts | apply halts_raise].
  - apply halts_bind; [apply handshake_halts|]. intros s.
    destruct (is_Normal s); [apply write_items_halts | apply halts_raise].
Qed.

(** With a device of another model whose line breaks after the first
    write, the [try] block of both entry points raises "Radio model
    mismatch" and the entry point raises the exit error in its place. *)
Lemma exit_failure_replaces_prior_error :
  let w := fresh (mkScript [device_reply 0 0 (ascii_bytes "HA1X")] 1) in
  fst (do_download_guarded HA1G w) = Raise (RadioError "Radio model mismatch")
  /\ fst (do_download HA1G w)
     = Raise (RadioError "Radio refused to exit programming mode")
  /\ fst (do_upload_guarded HA1G blank_image w)
     = Raise (RadioError "Radio model mismatch")
  /\ fst (do_upload HA1G blank_image w)
     = Raise (RadioError "Radio refused to exit programming mode").
Proof. cbv zeta. repeat split; vm_compute; reflexivity. Qed.

(** ** The handshake loop on replies that never validate *)

(** C7, the failing input.  A device answers each attempt with the same
    reply, which fails [validate_packet] but carries 00 01 at bytes 14
    and 15 and 1 at byte 20.  The handshake makes its 15 attempts and
    then classifies the last reply although it never validated: the
    outcome is [PwdWrong], and the session reports a locked radio rather
    than the generic communication failure. *)
Theorem handshake_classifies_unvalidated_reply :
  let w := fresh (mkScript (repeat forged_locked_reply 15) 20) in
  validate_packet forged_locked_reply 1024 = false
  /\ fst (handshake HA1G w) = Ok PwdWrong
  /\ count_sent (wire (snd (handshake HA1G w))) = 15%nat
  /\ naps (snd (handshake HA1G w)) = 15%nat
  /\ fst (do_download HA1G w)
     = Raise (RadioError "Radio is password protected").
Proof. cbv zeta. repeat split; vm_compute; reflexivity. Qed.

(** * Further properties of the codec *)

(** ** The checksum of a frame with its own checksum appended *)

Lemma crc_shift_even (y : Z) : Crc.crc_shift (2 * y) = y.
Proof.
  unfold Crc.crc_shift.
  replace (Z.land (2 * y) 1) with 0.
  - cbn [Z.eqb negb]. rewrite Z.shiftr_div_pow2 by lia.
    change (2 ^ 1) with 2. rewrite Z.mul_comm. apply Z.div_mul. lia.
  - symmetry. change 1 with (Z.ones 1). rewrite Z.land_ones by lia.
    change (2 ^ 1) with 2. rewrite Z.mul_comm. apply Z.mod_mul. lia.
Qed.

Lemma crc_shift_out_zero_bits (k : nat) (q : Z) :
  Nat.iter k Crc.crc_shift (2 ^ Z.of_nat k * q) = q.
Proof.
  revert q. induction k as [|k IH]; intros q.
  - cbn. destruct q; reflexivity.
  - rewrite Nat.iter_succ_r.
    replace (2 ^ Z.of_nat (S k) * q) with (2 * (2 ^ Z.of_nat k * q))
      by (rewrite Nat2Z.inj_succ, Z.pow_succ_r by lia; ring).
    rewrite crc_shift_even. apply IH.
Qed.

Lemma lxor_low_byte (r : Z) : Z.lxor r (r mod 256) = 256 * (r / 256).
Proof.
  change 256 with (2 ^ 8).
  rewrite <- Z.land_ones by lia.
  rewrite <- Z.shiftr_div_pow2, Z.mul_comm, <- Z.shiftl_mul_pow2 by lia.
  rewrite <- Z.ldiff_ones_r by lia.
  apply Z.bits_inj'. intros i Hi.
  rewrite Z.lxor_spec, Z.land_spec, Z.ldiff_spec.
  destruct (Z.testbit r i), (Z.testbit (Z.ones 8) i); reflexivity.
Qed.

(** X1. Running the checksum over a buffer followed by its own two
    checksum bytes leaves the register at zero. *)
Theorem crc_of_frame_with_checksum_is_zero (buf : bytes) :
  Crc.crc_register (buf ++ calculate_crc16 buf) = 0.
Proof.
  unfold Crc.crc_register. rewrite fold_left_app.
  fold (Crc.crc_register buf).
  pose proof (CrcFacts.crc_register_range buf) as Hr.
  set (r := Crc.crc_register buf) in *.
  unfold calculate_crc16, le16. cbn [fold_left]. fold r.
  assert (Hq : 0 <= r / 256 < 256)
    by (split; [apply Z.div_pos; lia | apply Z.div_lt_upper_bound; lia]).
  assert (H1 : Crc.crc_byte r (byte_of_Z r) = r / 256).
  { unfold Crc.crc_byte. rewrite byte_val_of_Z, lxor_low_byte.
    exact (crc_shift_out_zero_bits 8 (r / 256)). }
  rewrite H1. unfold Crc.crc_byte.
  rewrite byte_val_of_Z, Z.mod_small, Z.lxor_nilpotent by lia.
  reflexivity.
Qed.

(** ** What the validator looks at *)

(** X2. With a chunk size of -1 or more, a packet that passes
    [validate_packet] has at least 17 bytes: the 14 to 16 byte inputs
    that get past the first length test are all rejected. *)
Theorem validated_packet_min_length (pkt : bytes) (chunk_size : Z) :
  -1 <= chunk_size ->
  validate_packet pkt chunk_size = true ->
  (17 <= length pkt)%nat.
Proof.
  intros Hc Hv.
  destruct (validate_packet_verdict pkt chunk_size) as [Hs Hl].
  cbv zeta in Hs, Hl.
  destruct (Nat.le_gt_cases (length pkt) 13) as [H13|H13].
  - rewrite (Hs H13) in Hv. discriminate.
  - apply (Hl H13) in Hv. destruct Hv as [Hb _].
    pose proof (byte_val_range (nth 12 pkt x00)) as H12.
    pose proof (byte_val_range (nth 13 pkt x00)) as H13'.
    assert (0 <= if 255 <? chunk_size then 256 else chunk_size + 1)
      by (destruct (255 <? chunk_size); lia).
    assert (0 <= byte_val (nth 13 pkt x00)
                 * (if 255 <? chunk_size then 256 else chunk_size + 1))
      by (apply Z.mul_nonneg_nonneg; lia).
    destruct (Z.ltb_spec 6 (byte_val (nth 12 pkt x00))); lia.
Qed.

Lemma validated_packet_min_length_witness : (17 <= length exit_packet)%nat.
Proof.
  apply (@validated_packet_min_length exit_packet 1024); [lia|].
  vm_compute. reflexivity.
Defined.

(** X3. The verdict does not depend on the last byte of a packet of 15
    bytes or more: the sentinel is never looked at. *)
Theorem validate_packet_ignores_sentinel (body : bytes) (z z' : byte)
  (chunk_size : Z) :
  (14 <= length body)%nat ->
  validate_packet (body ++ [z]) chunk_size
  = validate_packet (body ++ [z']) chunk_size.
Proof.
  intros Hb.
  destruct (validate_packet_verdict (body ++ [z]) chunk_size)
    as [_ Hl].
  destruct (validate_packet_verdict (body ++ [z']) chunk_size)
    as [_ Hl'].
  cbv zeta in *. rewrite !length_app in *. cbn [length] in *.
  specialize (Hl ltac:(lia)). specialize (Hl' ltac:(lia)).
  rewrite !nth_app_left in Hl, Hl' by lia.
  replace (length body + 1 - 3)%nat with (length body - 2)%nat in * by lia.
  rewrite !firstn_app in Hl, Hl'.
  replace (length body - 2 - length body)%nat with 0%nat in * by lia.
  cbn [firstn] in Hl, Hl'.
  apply eq_true_iff_eq. rewrite Hl, Hl'. reflexivity.
Qed.

Lemma validate_packet_ignores_sentinel_witness :
  validate_packet (firstn 23 exit_packet ++ [xff]) 1024
  = validate_packet (firstn 23 exit_packet ++ [x00]) 1024.
Proof.
  apply (@validate_packet_ignores_sentinel (firstn 23 exit_packet)).
  simpl. lia.
Defined.

Lemma framed_with_checksum_validates (dp : bytes) (z : byte)
  (chunk_size : Z) :
  (14 <= length dp)%nat ->
  (if 6 <? byte_val (nth 12 dp x00) then byte_val (nth 12 dp x00) - 6 else 0)
  + byte_val (nth 13 dp x00)
    * (if 255 <? chunk_size then 256 else chunk_size + 1)
  <= Z.of_nat (length dp) - 14 ->
  validate_packet (dp ++ calculate_crc16 dp ++ [z]) chunk_size = true.
Proof.
  intros Hd Hb. rewrite validate_packet_framed by (reflexivity || lia).
  match goal with |- (if ?a <? ?b then _ else _) = _ =>
    destruct (Z.ltb_spec a b) end; [lia | apply bytes_eqb_refl].
Qed.

(** X4. A frame made of any 14 bytes or more, their checksum and any
    closing byte passes as soon as the length bound holds: neither the
    magic nor the sentinel is compared with anything. *)
Theorem validate_packet_accepts_any_magic (dp : bytes) (z : byte)
  (chunk_size : Z) :
  (14 <= length dp)%nat ->
  (if 6 <? byte_val (nth 12 dp x00) then byte_val (nth 12 dp x00) - 6 else 0)
  + byte_val (nth 13 dp x00)
    * (if 255 <? chunk_size then 256 else chunk_size + 1)
  <= Z.of_nat (length dp) - 14 ->
  validate_packet (dp ++ calculate_crc16 dp ++ [z]) chunk_size = true.
Proof.
  intros Hd Hb. rewrite validate_packet_framed by (reflexivity || lia).
  match goal with |- (if ?a <? ?b then _ else _) = _ =>
    destruct (Z.ltb_spec a b) end; [lia | apply bytes_eqb_refl].
Qed.

Lemma validate_packet_accepts_any_magic_witness :
  validate_packet
    (repeat x00 14 ++ calculate_crc16 (repeat x00 14) ++ [x00]) 1024 = true.
Proof.
  apply (@validate_packet_accepts_any_magic (repeat x00 14) x00 1024).
  - simpl. lia.
  - vm_compute. discriminate.
Defined.

(** X5. The handshake packet of a model name of at most 41 ASCII
    characters passes [validate_packet], whatever the chunk size. *)
Theorem handshake_packet_validates (model : string) (name pkt : bytes)
  (chunk_size : Z) :
  encode_ascii model = Ok name -> (length name <= 41)%nat ->
  get_handshake_bytes model = Ok pkt ->
  length pkt = 64%nat /\ validate_packet pkt chunk_size = true.
Proof.
  intros He Hl Hp.
  rewrite (@get_handshake_bytes_value model name He Hl) in Hp.
  cbv zeta in Hp.
  set (front := magic ++ le16 47 ++ handshake_prefix ++ name
                ++ repeat x00 (41 - length name)) in *.
  assert (Ep : pkt = front ++ calculate_crc16 front ++ [xff]) by congruence.
  assert (Hf : length front = 61%nat).
  { unfold front. rewrite !length_app, repeat_length.
    change (length magic) with 12%nat.
    change (length (le16 47)) with 2%nat.
    change (length handshake_prefix) with 6%nat. lia. }
  subst pkt. split.
  - rewrite !length_app, Hf. reflexivity.
  - apply framed_with_checksum_validates; [lia|].
    rewrite Hf.
    change (nth 12 front x00) with (byte_of_Z 47).
    change (nth 13 front x00) with (byte_of_Z (47 / 256)).
    change (byte_val (byte_of_Z 47)) with 47.
    change (byte_val (byte_of_Z (47 / 256))) with 0.
    cbn. lia.
Qed.

Lemma handshake_packet_validates_witness :
  exists pkt,
    get_handshake_bytes "HA1UV " = Ok pkt
    /\ length pkt = 64%nat /\ validate_packet pkt 1047 = true.
Proof.
  eexists. split; [vm_compute; reflexivity|].
  apply (@handshake_packet_validates "HA1UV " (ascii_bytes "HA1UV ") _ 1047).
  - reflexivity.
  - simpl. lia.
  - vm_compute. reflexivity.
Defined.

(** ** Reading back the fields of an encoded packet *)

Lemma py_slice_to_tail {A} (a : Z) (l : list A) :
  0 <= a -> a + 3 <= Z.of_nat (length l) ->
  py_slice (Some a) (Some (-3)) l
  = firstn (length l - 3 - Z.to_nat a) (skipn (Z.to_nat a) l).
Proof.
  intros Ha Hl. unfold py_slice, clip_index.
  destruct (Z.ltb_spec a 0); [lia|]. cbn [Z.ltb Z.compare].
  rewrite Z.min_l, Z.max_r by lia. f_equal. lia.
Qed.

(** X6. The fields the driver reads from a packet are the ones the
    encoder put there.  For a packet built by [get_send_packet_bytes]:
    it is 23 bytes longer than the payload, starts with the magic,
    declares the payload length plus 6 at bytes 12..13, carries the
    region at byte 14 and the direction at byte 15 (both modulo 256), the
    packet index and the packet count as little-endian 16-bit fields at
    16..17 and 18..19 (both modulo 65536), the payload at [20:-3], and
    ends with 0xFF. *)
Theorem packet_fields_round_trip
  (data_type packet_index data_code packet_count : Z) (payload pkt : bytes) :
  get_send_packet_bytes data_type packet_index data_code packet_count payload
  = Ok pkt ->
  length pkt = (23 + length payload)%nat
  /\ py_slice None (Some 12) pkt = magic
  /\ unpack_H (py_slice (Some 12) (Some 14) pkt)
     = Ok (Z.of_nat (length payload) + 6)
  /\ byte_val (nth 14 pkt x00) = data_type mod 256
  /\ byte_val (nth 15 pkt x00) = data_code mod 256
  /\ unpack_H (py_slice (Some 16) (Some 18) pkt) = Ok (packet_index mod 65536)
  /\ unpack_H (py_slice (Some 18) (Some 20) pkt) = Ok (packet_count mod 65536)
  /\ py_slice (Some 20) (Some (-3)) pkt = payload
  /\ py_slice (Some (-1)) None pkt = [xff].
Proof.
  rewrite get_send_packet_bytes_layout. cbv zeta.
  destruct (Z.leb_spec (Z.of_nat (length payload)) 65529) as [Hn|];
    [|discriminate].
  intros E.
  set (h := packet_header data_type packet_index data_code packet_count
              (Z.of_nat (length payload))) in *.
  assert (Ep : pkt = h ++ payload ++ calculate_crc16 (h ++ payload) ++ [xff])
    by (rewrite <- app_assoc in E; congruence).
  clear E.
  assert (Hh : length h = 20%nat) by reflexivity.
  assert (Hlen : length pkt = (23 + length payload)%nat).
  { subst pkt. rewrite !length_app, Hh. cbn [length calculate_crc16 le16]. lia. }
  assert (Hmod8 : forall x, Z.land x 0xFF = x mod 256).
  { intros x. change 0xFF with (Z.ones 8). apply Z.land_ones. lia. }
  assert (Hmod16 : forall x, Z.land x 0xFFFF = x mod 65536).
  { intros x. change 0xFFFF with (Z.ones 16). apply Z.land_ones. lia. }
  assert (Hhead : forall a l, 0 <= a -> 0 <= l -> a + l <= 20 ->
            py_slice (Some a) (Some (a + l)) pkt
            = firstn (Z.to_nat l) (skipn (Z.to_nat a) h)).
  { intros a l Ha Hl Hal. rewrite py_slice_window by lia.
    subst pkt. rewrite skipn_app, firstn_app.
    replace (Z.to_nat a - length h)%nat with 0%nat by lia.
    replace (Z.to_nat l - length (skipn (Z.to_nat a) h))%nat with 0%nat
      by (rewrite length_skipn; lia).
    cbn [firstn skipn]. apply app_nil_r. }
  split; [exact Hlen|].
  split.
  { rewrite py_slice_prefix by lia.
    subst pkt. rewrite firstn_app. rewrite Hh. reflexivity. }
  split.
  { change (Some 14) with (Some (12 + 2)). rewrite Hhead by lia.
    change (firstn (Z.to_nat 2) (skipn (Z.to_nat 12) h)) with (le16 (Z.of_nat (length payload) + 6)).
    apply unpack_H_le16. lia. }
  split.
  { subst pkt. rewrite nth_app_left by lia.
    change (nth 14 h x00) with (byte_of_Z (Z.land data_type 0xFF)).
    rewrite byte_val_of_Z, Hmod8. apply Z.mod_mod. lia. }
  split.
  { subst pkt. rewrite nth_app_left by lia.
    change (nth 15 h x00) with (byte_of_Z (Z.land data_code 0xFF)).
    rewrite byte_val_of_Z, Hmod8. apply Z.mod_mod. lia. }
  split.
  { change (Some 18) with (Some (16 + 2)). rewrite Hhead by lia.
    change (firstn (Z.to_nat 2) (skipn (Z.to_nat 16) h)) with (le16 (Z.land packet_index 0xFFFF)).
    rewrite Hmod16. apply unpack_H_le16. apply Z.mod_pos_bound. lia. }
  split.
  { change (Some 20) with (Some (18 + 2)). rewrite Hhead by lia.
    change (firstn (Z.to_nat 2) (skipn (Z.to_nat 18) h)) with (le16 (Z.land packet_count 0xFFFF)).
    rewrite Hmod16. apply unpack_H_le16. apply Z.mod_pos_bound. lia. }
  split.
  { rewrite py_slice_to_tail by lia. rewrite Hlen.
    change (Z.to_nat 20) with 20%nat.
    replace (23 + length payload - 3 - 20)%nat with (length payload) by lia.
    subst pkt. rewrite skipn_app, Hh.
    change (skipn 20 h) with (@nil byte). rewrite Nat.sub_diag.
    cbn [skipn app]. rewrite firstn_app, firstn_all, Nat.sub_diag.
    cbn [firstn]. apply app_nil_r. }
  { unfold py_slice, clip_index. cbn [Z.ltb Z.compare].
    rewrite Z.max_r by lia.
    replace (Z.to_nat (Z.of_nat (length pkt) - (-1 + Z.of_nat (length pkt))))
      with 1%nat by lia.
    replace (Z.to_nat (-1 + Z.of_nat (length pkt)))
      with (length (h ++ payload ++ calculate_crc16 (h ++ payload)))
      by (rewrite Hlen, !length_app, Hh; cbn [length calculate_crc16 le16]; lia).
    subst pkt.
    replace (h ++ payload ++ calculate_crc16 (h ++ payload) ++ [xff])
      with ((h ++ payload ++ calculate_crc16 (h ++ payload)) ++ [xff])
      by (rewrite <- !app_assoc; reflexivity).
    rewrite skipn_app, skipn_all, Nat.sub_diag. reflexivity. }
Qed.

Lemma packet_fields_round_trip_witness :
  length exit_packet = (23 + length [x00])%nat
  /\ py_slice None (Some 12) exit_packet = magic
  /\ unpack_H (py_slice (Some 12) (Some 14) exit_packet)
     = Ok (Z.of_nat (length [x00]) + 6)
  /\ byte_val (nth 14 exit_packet x00) = 111 mod 256
  /\ byte_val (nth 15 exit_packet x00) = 0 mod 256
  /\ unpack_H (py_slice (Some 16) (Some 18) exit_packet) = Ok (0 mod 65536)
  /\ unpack_H (py_slice (Some 18) (Some 20) exit_packet) = Ok (1 mod 65536)
  /\ py_slice (Some 20) (Some (-3)) exit_packet = [x00]
  /\ py_slice (Some (-1)) None exit_packet = [xff].
Proof.
  apply (@packet_fields_round_trip 111 0 0 1 [x00] exit_packet).
  reflexivity.
Defined.

(** X7. The encoder raises [struct.error] exactly for payloads of more
    than 65529 bytes, whose declared length no longer fits 16 bits, and
    returns a packet for every other input. *)
Theorem get_send_packet_bytes_raises_iff
  (data_type packet_index data_code packet_count : Z) (payload : bytes) :
  (get_send_packet_bytes data_type packet_index data_code packet_count payload
   = Raise StructError <-> 65529 < Z.of_nat (length payload))
  /\ ((exists pkt,
         get_send_packet_bytes data_type packet_index data_code packet_count
                               payload = Ok pkt)
      <-> Z.of_nat (length payload) <= 65529).
Proof.
  rewrite get_send_packet_bytes_layout. cbv zeta.
  destruct (Z.leb_spec (Z.of_nat (length payload)) 65529); split; split;
    try (intros; lia); try discriminate.
  - intros _. eexists. reflexivity.
  - intros _. reflexivity.
  - intros [pkt E]. discriminate E.
Qed.

(** ** Errors of the handshake encoder *)

(** X8. [get_handshake_bytes] raises [UnicodeEncodeError] for a model name
    with a character above 127, and [struct.error] for an ASCII name of
    more than 41 characters, for which the padding length is negative. *)
Theorem get_handshake_bytes_errors (model : string) :
  (encode_ascii model = Raise UnicodeEncodeError ->
   get_handshake_bytes model = Raise UnicodeEncodeError)
  /\ (forall name, encode_ascii model = Ok name -> (41 < length name)%nat ->
      get_handshake_bytes model = Raise StructError).
Proof.
  split.
  - intros E. unfold get_handshake_bytes. rewrite E. reflexivity.
  - intros name E Hl. unfold get_handshake_bytes. rewrite E.
    change (Z.of_nat (length [x00; x00; x00; x00; x01; x00])) with 6.
    replace (6 + Z.of_nat (length name) + (41 - Z.of_nat (length name)))
      with 47 by lia.
    cbn [struct_pack]. rewrite pack_Fs_exact.
    change (pack_field (Fs 12 magic)) with (Ok magic).
    change (pack_field (FH 47)) with (Ok (le16 47)).
    change (pack_field (Fs 6 [x00; x00; x00; x00; x01; x00]))
      with (Ok handshake_prefix).
    cbv iota. unfold pack_field.
    destruct (Z.ltb_spec (41 - Z.of_nat (length name)) 0); [reflexivity|lia].
Qed.

Lemma get_handshake_bytes_errors_witness :
  get_handshake_bytes (String (ascii_of_nat 200) "HA1G")
  = Raise UnicodeEncodeError
  /\ get_handshake_bytes "0123456789012345678901234567890123456789-X"
     = Raise StructError.
Proof.
  split.
  - apply (proj1 (get_handshake_bytes_errors
                    (String (ascii_of_nat 200) "HA1G"))).
    reflexivity.
  - apply (proj2 (get_handshake_bytes_errors
                    "0123456789012345678901234567890123456789-X")
             (ascii_bytes "0123456789012345678901234567890123456789-X")).
    + reflexivity.
    + simpl. lia.
Defined.

(** ** The retry loop of the handshake *)



Section HandshakeFacts.
Context {D : Type} {T : Transport D}.

Lemma handshake_loop_S (self : Radio) (n : nat) (databytes pkt : bytes)
  (w : World D) :
  get_handshake_bytes (MODEL self ++ " ")%string = Ok pkt ->
  handshake_loop self (S n) databytes w
  = match exchange_block_with_radio pkt (read_packet_len self) w with
    | (Ok r, w1) =>
        if fst r
        then (Ok (snd r),
              mkWorld (pipe w1) (wire w1) (S (naps w1)) (status_cur w1))
        else handshake_loop self n (snd r)
               (mkWorld (pipe w1) (wire w1) (S (naps w1)) (status_cur w1))
    | (Raise e, w1) => (Raise e, w1)
    | (Diverge, w1) => (Diverge, w1)
    end.
Proof.
  intros Hp. cbn [handshake_loop]. unfold bind at 1, lift at 1.
  rewrite Hp. unfold bind at 1.
  destruct (exchange_block_with_radio pkt (read_packet_len self) w)
    as [[[flag resp]|e|] w1]; try reflexivity.
  unfold bind, sleep. cbn [fst snd]. destruct flag; reflexivity.
Qed.



End HandshakeFacts.



(** X10. When the first reply passes [validate_packet], the handshake has
    made one attempt and one sleep and returns the classification of
    that reply: no outcome of a validated reply is retried. *)
Theorem handshake_stops_at_validated_reply {D} {T : Transport D}
  (self : Radio) (pkt resp : bytes) (w w1 : World D) :
  get_handshake_bytes (MODEL self ++ " ")%string = Ok pkt ->
  exchange_block_with_radio pkt (read_packet_len self) w
  = (Ok (true, resp), w1) ->
  fst (handshake self w) = handshake_handle_connect_event self resp
  /\ wire (snd (handshake self w)) = wire w ++ [Sent pkt; Received resp]
  /\ naps (snd (handshake self w)) = S (naps w)
  /\ validate_packet resp 1024 = true.
Proof.
  intros Hp Hx.
  pose proof (exchange_outcome pkt (read_packet_len self) w) as Ho.
  rewrite Hx in Ho. destruct Ho as (Hflag & Hwire & Hnaps).
  unfold handshake, bind.
  change 15%nat with (S 14).
  rewrite (handshake_loop_S self 14 [] w Hp), Hx. cbn [fst snd lift].
  repeat split; auto. rewrite Hnaps. reflexivity.
Qed.

Lemma handshake_stops_at_validated_reply_witness :
  fst (handshake HA1G
         (fresh (mkScript [device_reply 0 0 [x01]] 3)))
  = handshake_handle_connect_event HA1G (device_reply 0 0 [x01])
  /\ fst (handshake HA1G (fresh (mkScript [device_reply 0 0 [x01]] 3)))
     = Ok PwdWrong.
Proof.
  set (w := fresh (mkScript [device_reply 0 0 [x01]] 3)).
  set (pkt := magic ++ le16 47 ++ handshake_prefix
              ++ ascii_bytes "HA1G " ++ repeat x00 36
              ++ calculate_crc16
                   (magic ++ le16 47 ++ handshake_prefix
                    ++ ascii_bytes "HA1G " ++ repeat x00 36)
              ++ [xff]).
  assert (Hp : get_handshake_bytes (MODEL HA1G ++ " ")%string = Ok pkt)
    by (vm_compute; reflexivity).
  assert (Hx : exchange_block_with_radio pkt (read_packet_len HA1G) w
               = (Ok (true, device_reply 0 0 [x01]),
                  snd (exchange_block_with_radio pkt (read_packet_len HA1G) w)))
    by (vm_compute; reflexivity).
  destruct (handshake_stops_at_validated_reply HA1G w Hp Hx) as (H1 & _).
  split; [exact H1|]. rewrite H1. vm_compute. reflexivity.
Defined.

(** ** Storing a region and loading it again *)

Lemma window_of_write {A} (img v : list A) (s k l : nat) :
  length v = k -> (k <= l)%nat -> (s + l <= length img)%nat ->
  firstn l (skipn s (firstn s img ++ v ++ skipn (s + k) img))
  = v ++ skipn k (firstn l (skipn s img)).
Proof.
  intros Hv Hk Hb. apply nth_error_ext. intros i.
  rewrite ?nth_error_firstn, ?nth_error_skipn, ?nth_error_app,
    ?nth_error_firstn, ?nth_error_skipn, ?length_firstn, ?Hv.
  rewrite ?Nat.min_l by lia.
  destruct (Nat.ltb_spec i l).
  - destruct (Nat.ltb_spec (s + i) s); [lia|].
    replace (s + i - s)%nat with i by lia.
    destruct (Nat.ltb_spec i k); [reflexivity|].
    rewrite nth_error_firstn, nth_error_skipn.
    destruct (Nat.ltb_spec (k + (i - k)) l); [|lia].
    f_equal. lia.
  - destruct (Nat.ltb_spec i k); [lia|].
    rewrite nth_error_firstn.
    destruct (Nat.ltb_spec (k + (i - k)) l); [lia|reflexivity].
Qed.

Lemma region_write_reads_back (img item_bytes : bytes) (s len_s : Z) :
  0 <= s -> 0 <= len_s -> s + len_s <= Z.of_nat (length img) ->
  let k := Z.min (Z.of_nat (length item_bytes)) len_s in
  let old := py_slice (Some s) (Some (s + len_s)) img in
  py_slice (Some s) (Some (s + len_s))
    (py_slice_assign s (s + k) (py_slice None (Some k) item_bytes) img)
  = firstn (length old) (item_bytes ++ skipn (length item_bytes) old).
Proof.
  intros Hs Hl Hb. cbv zeta.
  set (k := Z.min (Z.of_nat (length item_bytes)) len_s).
  assert (Hk : 0 <= k <= len_s) by (unfold k; lia).
  assert (Hk' : k <= Z.of_nat (length item_bytes)) by (unfold k; lia).
  rewrite py_slice_prefix by lia.
  rewrite py_slice_assign_window by lia.
  assert (Hv : length (firstn (Z.to_nat k) item_bytes) = Z.to_nat k)
    by (rewrite length_firstn; lia).
  rewrite !py_slice_window;
    try lia; [|rewrite length_after_write; [lia | exact Hv | lia]].
  rewrite (@window_of_write _ img _ (Z.to_nat s) (Z.to_nat k) (Z.to_nat len_s));
    [| exact Hv | lia | lia].
  set (old := firstn (Z.to_nat len_s) (skipn (Z.to_nat s) img)).
  assert (Hold : length old = Z.to_nat len_s)
    by (unfold old; rewrite length_firstn, length_skipn; lia).
  rewrite Hold.
  destruct (Z.le_gt_cases (Z.of_nat (length item_bytes)) len_s) as [Hle|Hgt].
  - replace k with (Z.of_nat (length item_bytes)) by (unfold k; lia).
    rewrite Nat2Z.id, firstn_all.
    symmetry. apply firstn_all2.
    rewrite length_app, length_skipn. lia.
  - replace k with len_s by (unfold k; lia).
    rewrite (skipn_all2 old) by lia.
    rewrite (skipn_all2 (n := length item_bytes) old) by lia.
    rewrite !app_nil_r. reflexivity.
Qed.

(** X11. Storing the bytes received for a region into an image that holds
    all the regions, and loading the region again: the region then reads
    as the received bytes cut to the length of the region, followed,
    when fewer bytes were received, by what the region held before at
    those places; every other region reads as before; and the image
    keeps its length. *)
Theorem region_store_then_load
  (all_bytes item_bytes : bytes) (item : MemoryRegions) :
  52114 <= Z.of_nat (length all_bytes) ->
  let stored := read_item_handle_connect_event all_bytes item_bytes item in
  let old := get_write_item_bytes all_bytes item in
  get_write_item_bytes stored item
  = firstn (length old) (item_bytes ++ skipn (length item_bytes) old)
  /\ (forall other, other <> item ->
        get_write_item_bytes stored other
        = get_write_item_bytes all_bytes other)
  /\ length stored = length all_bytes.
Proof.
  intros Hlen. cbv zeta. split; [|split].
  - unfold read_item_handle_connect_event, get_write_item_bytes.
    destruct item; cbn [ranges_get MEMORY_REGIONS_RANGES region_eqb
                        region_value Z.eqb Pos.eqb];
      apply region_write_reads_back; lia.
  - intros other Hne.
    apply (proj2 (@read_item_keeps all_bytes item_bytes item other Hlen)).
    congruence.
  - apply (proj1 (@read_item_keeps all_bytes item_bytes item item Hlen)).
Qed.

Lemma region_store_then_load_witness :
  get_write_item_bytes
    (read_item_handle_connect_event blank_image [x01; x02; x03] radioVer)
    radioVer
  = [x01; x02; x03; x00; x00; x00; x00; x00; x00; x00].
Proof.
  assert (Hlen : 52114 <= Z.of_nat (length blank_image))
    by (unfold blank_image; rewrite repeat_length; lia).
  rewrite (proj1 (@region_store_then_load blank_image [x01; x02; x03]
                    radioVer Hlen)).
  vm_compute. reflexivity.
Defined.

(** ** Downloading one region *)

Lemma read_request_packet (item i : Z) (idxb : bytes) :
  to_bytes_2_little i = Ok idxb ->
  0 <= i < 65536
  /\ get_send_packet_bytes item 0 2 1 idxb = Ok (read_request item i).
Proof.
  unfold to_bytes_2_little.
  destruct (Z.leb_spec 0 i); [|discriminate].
  destruct (Z.leb_spec i 65535); [|discriminate].
  cbn [andb]. intros E.
  assert (Ei : idxb = le16 i) by congruence. subst idxb.
  split; [lia|].
  rewrite get_send_packet_bytes_layout. reflexivity.
Qed.

Lemma read_requests_S (item from : Z) (n : nat) :
  read_requests item from (S n)
  = read_request item from :: read_requests item (from + 1) n.
Proof.
  unfold read_requests. cbn [seq map]. rewrite Z.add_0_r.
  apply (f_equal (cons (read_request item from))).
  rewrite <- seq_shift, map_map. apply map_ext. intros i.
  apply (f_equal (read_request item)). lia.
Qed.

Section RegionDownload.
Context {D : Type} {T : Transport D}.

Lemma exchange_keeps_status (send_byte : bytes) (chunk_size : Z)
  (w : World D) :
  status_cur (snd (exchange_block_with_radio send_byte chunk_size w))
  = status_cur w.
Proof.
  unfold exchange_block_with_radio, bind, serial_write, serial_read, ret.
  destruct (pipe_write send_byte (pipe w)) as [[e|] d]; cbn; [reflexivity|].
  destruct (pipe_read chunk_size d) as [[r|e] d']; cbn; [|reflexivity].
  destruct (validate_packet r 1024); reflexivity.
Qed.

(** The turns after the first one. *)
Lemma read_loop_returns_from (self : Radio) (item : Z) (fuel : nat) :
  forall idx cnt acc (w : World D) item_bytes,
    1 <= idx ->
    fst (read_loop self fuel item idx cnt acc w) = Ok item_bytes ->
    exists rs,
      let w' := snd (read_loop self fuel item idx cnt acc w) in
      wire w' = wire w
                ++ exchanges (combine (read_requests item idx (length rs)) rs)
      /\ length rs = Z.to_nat (cnt - idx)
      /\ Forall (fun r => reply_rejected item r = false) rs
      /\ item_bytes = acc ++ concat (map payload_of rs)
      /\ status_cur w' = status_cur w + Z.of_nat (length (concat rs))
      /\ naps w' = naps w.
Proof.
  induction fuel as [|fuel IH]; intros idx cnt acc w bs Hidx.
  - cbn [read_loop]. destruct (Z.ltb_spec idx cnt).
    + cbn. discriminate.
    + cbn. intros E. exists []. cbn.
      rewrite !app_nil_r, Z.add_0_r.
      repeat split; auto; try lia. congruence.
  - destruct (Z.lt_ge_cases idx cnt) as [Hlt|Hge].
    2:{ rewrite read_loop_done by lia. cbn. intros E. exists []. cbn.
        rewrite !app_nil_r, Z.add_0_r.
        repeat split; auto; try lia. congruence. }
    rewrite read_loop_S by exact Hlt.
    destruct (to_bytes_2_little idx) as [idxb| |] eqn:Eidx;
      [|discriminate|discriminate].
    destruct (read_request_packet item idx Eidx) as [Hrange ->].
    pose proof (exchange_outcome (read_request item idx)
                  (read_packet_len self) w) as Hx.
    destruct (exchange_block_with_radio (read_request item idx)
                (read_packet_len self) w) as [[[flag r]| |] w1] eqn:Ex;
      [|discriminate|discriminate].
    destruct Hx as (Hflag & Hwire & Hnaps).
    cbn [fst snd].
    destruct (negb flag || _) eqn:Erej; [discriminate|].
    destruct (Z.eqb_spec idx 0); [lia|].
    intros E.
    set (w2 := mkWorld (pipe w1) (wire w1) (naps w1)
                 (status_cur w1 + Z.of_nat (length r))) in *.
    destruct (IH (idx + 1) cnt (acc ++ payload_of r) w2 bs ltac:(lia) E)
      as (rs & Hw & Hlen & Hall & Hbs & Hst & Hn).
    exists (r :: rs). cbv zeta in *.
    cbn [length]. rewrite read_requests_S. cbn [combine exchanges].
    rewrite Hw, Hst, Hn. subst w2. cbn [wire status_cur naps].
    rewrite Hwire, <- app_assoc. cbn [app].
    split; [reflexivity|].
    split; [lia|].
    split.
    { constructor; [|exact Hall]. unfold reply_rejected.
      rewrite <- Hflag. exact Erej. }
    split.
    { rewrite Hbs, <- app_assoc. reflexivity. }
    split; [|exact Hnaps].
    cbn [concat]. rewrite length_app.
    pose proof (exchange_keeps_status (read_request item idx)
                  (read_packet_len self) w) as Hs.
    rewrite Ex in Hs. cbn [snd] in Hs.
    lia.
Qed.

End RegionDownload.

(** X12. What [get_read_current_packet_bytes] has done when it returns.
    It never loops for ever.  When it returns, it has asked for the
    packets 0, 1, 2, ... in this order, each request carrying the packet
    number as payload; the number of packets is the count field (bytes
    18 and 19) of the first response, or one when that field is zero;
    no response was rejected; the result is the payloads (bytes 20 to
    the checksum) of the responses put end to end; the progress counter
    went up by the length of all the responses; and nothing slept. *)
Theorem region_download_returns {D} {T : Transport D}
  (self : Radio) (item : Z) (w : World D) :
  match fst (get_read_current_packet_bytes self item w) with
  | Ok item_bytes =>
      exists first rest count,
        unpack_H (py_slice (Some 18) (Some 20) first) = Ok count
        /\ length (first :: rest) = Z.to_nat (Z.max 1 count)
        /\ region_downloaded item w
             (snd (get_read_current_packet_bytes self item w))
             item_bytes (first :: rest)
  | Raise _ => True
  | Diverge => False
  end.
Proof.
  pose proof (get_read_current_packet_bytes_halts self item w) as Hh.
  destruct (fst (get_read_current_packet_bytes self item w))
    as [bs|e|] eqn:E; [|exact I|congruence].
  clear Hh. revert E. unfold get_read_current_packet_bytes.
  replace (Z.to_nat 65536) with (S (Z.to_nat 65535)) by lia.
  remember (Z.to_nat 65535) as fuel eqn:Hfuel. clear Hfuel.
  rewrite read_loop_S by lia.
  destruct (to_bytes_2_little 0) as [idxb| |] eqn:Eidx;
    [|discriminate|discriminate].
  destruct (read_request_packet item 0 Eidx) as [Hrange ->].
  pose proof (exchange_outcome (read_request item 0)
                (read_packet_len self) w) as Hx.
  pose proof (exchange_keeps_status (read_request item 0)
                (read_packet_len self) w) as Hs.
  destruct (exchange_block_with_radio (read_request item 0)
              (read_packet_len self) w) as [[[flag r]| |] w1] eqn:Ex;
    [|discriminate|discriminate].
  destruct Hx as (Hflag & Hwire & Hnaps).
  cbn [fst snd] in *.
  destruct (negb flag || _) eqn:Erej; [discriminate|].
  change (0 =? 0) with true. cbv iota.
  destruct (unpack_H (py_slice (Some 18) (Some 20) r)) as [cnt| |] eqn:Eu;
    [|discriminate|discriminate].
  intros E.
  set (w2 := mkWorld (pipe w1) (wire w1) (naps w1)
               (status_cur w1 + Z.of_nat (length r))) in *.
  destruct (@read_loop_returns_from D T self item fuel (0 + 1) cnt
              ([] ++ payload_of r) w2 bs ltac:(lia) E)
    as (rs & Hw & Hlen & Hall & Hbs & Hst & Hn).
  exists r, rs, cnt. cbv zeta in *.
  split; [exact Eu|].
  split; [cbn [length]; unfold bytes in *; lia|].
  unfold region_downloaded.
  cbn [length]. rewrite read_requests_S. cbn [combine exchanges].
  rewrite Hw, Hst, Hn. subst w2. cbn [wire status_cur naps].
  rewrite Hwire, <- app_assoc. cbn [app].
  split; [reflexivity|].
  split.
  { constructor; [|exact Hall]. unfold reply_rejected.
    rewrite <- Hflag. exact Erej. }
  split; [exact Hbs|].
  split; [|exact Hnaps].
  cbn [concat]. rewrite length_app. lia.
Qed.

(** A download of two packets from a scripted device. *)
Example region_download_two_packets :
  fst (get_read_current_packet_bytes HA1G 4
         (fresh (mkScript [device_reply 4 2 [x01; x02];
                           device_reply 4 0 [x03]] 5)))
  = Ok [x01; x02; x03].
Proof. vm_compute. reflexivity. Qed.

(** ** Uploading one region *)

Lemma write_request_packet (item i count : Z) (pg pkt : bytes) :
  get_send_packet_bytes item i 0 count pg = Ok pkt ->
  pkt = write_request item i count pg.
Proof.
  rewrite get_send_packet_bytes_layout. cbv zeta.
  destruct (_ <=? _); [|discriminate]. intros E.
  unfold write_request. congruence.
Qed.

Lemma write_requests_S (item plen count : Z) (l : bytes) (from : Z) (n : nat) :
  write_requests item plen count l from (S n)
  = write_request item from count (page plen from l)
    :: write_requests item plen count l (from + 1) n.
Proof.
  unfold write_requests. cbn [seq map]. rewrite Z.add_0_r.
  apply (f_equal (cons (write_request item from count (page plen from l)))).
  rewrite <- seq_shift, map_map. apply map_ext. intros k.
  replace (from + Z.of_nat (S k)) with (from + 1 + Z.of_nat k) by lia.
  reflexivity.
Qed.

Lemma firstn_plus {A} (a p : nat) (l : list A) :
  firstn (a + p) l = firstn a l ++ firstn p (skipn a l).
Proof.
  revert l. induction a as [|a IH]; intros l; [reflexivity|].
  destruct l as [|x l]; cbn [Nat.add firstn skipn app].
  - rewrite firstn_nil. reflexivity.
  - rewrite IH. reflexivity.
Qed.

Lemma firstn_beyond {A} (m p : nat) (x : list A) :
  (m <= p)%nat -> (length x <= m)%nat -> firstn m x = firstn p x.
Proof.
  intros Hmp Hx. rewrite !firstn_all2 by lia. reflexivity.
Qed.

(** The pages [0 .. n-1] put end to end are the first [n * packet_len]
    bytes. *)
Lemma pages_concat {A} (plen : Z) (l : list A) (n : nat) :
  0 < plen ->
  concat (map (fun k => py_slice (Some (Z.of_nat k * plen))
                          (Some ((Z.of_nat k + 1) * plen)) l) (seq 0 n))
  = firstn (n * Z.to_nat plen) l.
Proof.
  intros Hp. induction n as [|n IH].
  - reflexivity.
  - rewrite seq_S, map_app, concat_app, IH. cbn [map concat Nat.add].
    rewrite app_nil_r. unfold py_slice, clip_index.
    destruct (Z.ltb_spec (Z.of_nat n * plen) 0); [lia|].
    destruct (Z.ltb_spec ((Z.of_nat n + 1) * plen) 0); [lia|].
    set (a := (n * Z.to_nat plen)%nat).
    assert (Ha : Z.of_nat n * plen = Z.of_nat a) by (unfold a; lia).
    assert (Hb : (Z.of_nat n + 1) * plen = Z.of_nat (a + Z.to_nat plen))
      by (unfold a; lia).
    replace (S n * Z.to_nat plen)%nat with (a + Z.to_nat plen)%nat
      by (unfold a; lia).
    rewrite Ha, Hb, firstn_plus.
    destruct (Nat.le_gt_cases (length l) a) as [Hle|Hgt].
    + rewrite (skipn_all2 l) by lia.
      rewrite (skipn_all2 (n := a) l) by lia.
      rewrite !firstn_nil. reflexivity.
    + replace (Z.to_nat (Z.min (Z.of_nat a) (Z.of_nat (length l))))
        with a by lia.
      apply (f_equal (app (firstn a l))).
      destruct (Nat.le_gt_cases (a + Z.to_nat plen) (length l)).
      * f_equal. lia.
      * apply firstn_beyond; [lia|]. rewrite length_skipn. lia.
Qed.

Lemma ceil_div_covers (a b : Z) :
  0 <= a -> 0 < b -> a <= (- ((- a) / b)) * b /\ 0 <= - ((- a) / b).
Proof.
  intros Ha Hb.
  pose proof (Z.div_mod (- a) b ltac:(lia)) as Hdm.
  pose proof (Z.mod_pos_bound (- a) b Hb) as Hm.
  split; [nia|].
  assert ((- a) / b <= 0); [|lia].
  apply Z.div_le_upper_bound; lia.
Qed.

Section RegionUpload.
Context {D : Type} {T : Transport D}.

(** One turn of the loop over the pages. *)
Lemma write_pages_S (self : Radio) (n : nat) (i : Z) (item_Bytes : bytes)
  (item plen count : Z) (w : World D) :
  write_pages self (S n) i item_Bytes item plen count w
  = match get_send_packet_bytes item i 0 count (page plen i item_Bytes) with
    | Ok pkt =>
        match exchange_block_with_radio pkt (read_packet_len self) w with
        | (Ok r, w1) =>
            if negb (fst r)
               || ((14 <? Z.of_nat (length (snd r)))
                   && negb (byte_val (nth 14 (snd r) x00) =? item))
            then (Raise (RadioError "radio reported failure"), w1)
            else
              write_pages self n (i + 1) item_Bytes item plen count
                (mkWorld (pipe w1) (wire w1) (naps w1)
                   (status_cur w1 + Z.of_nat (length pkt)))
        | (Raise e, w1) => (Raise e, w1)
        | (Diverge, w1) => (Diverge, w1)
        end
    | Raise e => (Raise e, w)
    | Diverge => (Diverge, w)
    end.
Proof.
  cbn [write_pages]. unfold page.
  unfold bind at 1, lift at 1.
  destruct (get_send_packet_bytes item i 0 count _) as [pkt| |];
    [|reflexivity|reflexivity].
  unfold bind at 1.
  destruct (exchange_block_with_radio pkt (read_packet_len self) w)
    as [[r| |] w1]; [|reflexivity|reflexivity].
  destruct (negb (fst r) || _); reflexivity.
Qed.

Lemma write_pages_returns (self : Radio) (item_Bytes : bytes)
  (item plen count : Z) (n : nat) :
  forall i (w : World D),
    fst (write_pages self n i item_Bytes item plen count w) = Ok tt ->
    exists rs,
      let w' := snd (write_pages self n i item_Bytes item plen count w) in
      let reqs := write_requests item plen count item_Bytes i n in
      length rs = n
      /\ wire w' = wire w ++ exchanges (combine reqs rs)
      /\ Forall (fun r => reply_rejected item r = false) rs
      /\ status_cur w' = status_cur w + Z.of_nat (length (concat reqs))
      /\ naps w' = naps w.
Proof.
  induction n as [|n IH]; intros i w.
  - intros _. exists []. cbn. rewrite app_nil_r, Z.add_0_r.
    repeat split; auto.
  - rewrite write_pages_S.
    destruct (get_send_packet_bytes item i 0 count (page plen i item_Bytes))
      as [pkt| |] eqn:Epkt; [|discriminate|discriminate].
    apply write_request_packet in Epkt.
    pose proof (exchange_outcome pkt (read_packet_len self) w) as Hx.
    pose proof (exchange_keeps_status pkt (read_packet_len self) w) as Hs.
    destruct (exchange_block_with_radio pkt (read_packet_len self) w)
      as [[[flag r]| |] w1] eqn:Ex; [|discriminate|discriminate].
    destruct Hx as (Hflag & Hwire & Hnaps).
    cbn [fst snd] in *.
    destruct (negb flag || _) eqn:Erej; [discriminate|].
    intros E.
    set (w2 := mkWorld (pipe w1) (wire w1) (naps w1)
                 (status_cur w1 + Z.of_nat (length pkt))) in *.
    destruct (IH (i + 1) w2 E) as (rs & Hlen & Hw & Hall & Hst & Hn).
    exists (r :: rs). cbv zeta in *.
    rewrite write_requests_S. cbn [length combine exchanges concat].
    rewrite Hw, Hst, Hn. subst w2. cbn [wire status_cur naps].
    rewrite Hwire, <- app_assoc, <- Epkt. cbn [app].
    split; [congruence|].
    split; [reflexivity|].
    split.
    { constructor; [|exact Hall]. unfold reply_rejected.
      rewrite <- Hflag. exact Erej. }
    split; [|exact Hnaps].
    rewrite length_app. lia.
Qed.
End RegionUpload.

(** X13. What [write_item_current_page_bytes] has done when it returns,
    for a page size above zero.  It has sent the bytes of the region in
    pages of the page size, the last one possibly shorter, in order and
    all of them: the pages put end to end are the bytes given; there are
    as many packets as the bytes divided by the page size, rounded up;
    each packet names its page number and that count; no response was
    rejected; the progress counter went up by the length of the packets
    sent; and it returned no value. *)
Theorem region_upload_returns {D} {T : Transport D}
  (self : Radio) (item_Bytes : bytes) (item : Z) (w : World D) :
  0 < write_page_len self ->
  match fst (write_item_current_page_bytes self item_Bytes item w) with
  | Ok v =>
      v = None /\ item_Bytes <> []
      /\ exists rs,
           region_uploaded self item item_Bytes w
             (snd (write_item_current_page_bytes self item_Bytes item w)) rs
  | Raise _ => True
  | Diverge => False
  end.
Proof.
  intros Hp.
  destruct item_Bytes as [|b0 tl] eqn:El; [exact I|].
  rewrite <- El.
  assert (Hne : item_Bytes <> []) by (rewrite El; discriminate).
  assert (Hlen : 0 < Z.of_nat (length item_Bytes))
    by (rewrite El; cbn [length]; lia).
  set (count := - ((- Z.of_nat (length item_Bytes)) / write_page_len self)).
  destruct (@ceil_div_covers (Z.of_nat (length item_Bytes))
              (write_page_len self) ltac:(lia) Hp) as [Hcov Hc0].
  fold count in Hcov, Hc0.
  assert (Hrun :
    write_item_current_page_bytes self item_Bytes item w
    = match write_pages self (Z.to_nat count) 0 item_Bytes item
              (write_page_len self) count w with
      | (Ok _, w1) => (Ok None, w1)
      | (Raise e, w1) => (Raise e, w1)
      | (Diverge, w1) => (Diverge, w1)
      end).
  { unfold write_item_current_page_bytes.
    destruct (is_empty item_Bytes) eqn:Ee;
      [apply is_empty_nil in Ee; contradiction|].
    unfold bind at 1, lift at 1, ceil_div.
    destruct (Z.eqb_spec (write_page_len self) 0); [lia|].
    fold count.
    destruct (Z.eqb_spec count 0) as [Hz|Hnz]; [lia|].
    unfold bind, ret.
    destruct (write_pages self (Z.to_nat count) 0 item_Bytes item
                (write_page_len self) count w) as [[[]| |] w1];
      reflexivity. }
  rewrite Hrun. clear Hrun El b0 tl.
  destruct (write_pages self (Z.to_nat count) 0 item_Bytes item
              (write_page_len self) count w) as [[[]| |] w1] eqn:Ew;
    cbn [fst snd]; [|exact I|].
  - split; [reflexivity|]. split; [exact Hne|].
    destruct (@write_pages_returns D T self item_Bytes item
                (write_page_len self) count (Z.to_nat count) 0 w)
      as (rs & Hl & Hw & Hall & Hst & Hn); [rewrite Ew; reflexivity|].
    rewrite Ew in Hw, Hst, Hn. cbn [snd] in *.
    exists rs. unfold region_uploaded. cbv zeta. fold count.
    rewrite Hl.
    split; [reflexivity|]. split; [exact Hw|]. split; [exact Hall|].
    split; [|split; [exact Hst | exact Hn]].
    etransitivity;
      [exact (@pages_concat byte (write_page_len self) item_Bytes
                (Z.to_nat count) Hp)|].
    apply firstn_all2. nia.
  - assert (Hh : forall n i (w0 : World D),
               fst (write_pages self n i item_Bytes item
                      (write_page_len self) count w0) <> Diverge).
    { clear. induction n as [|n IH]; intros i w.
      - discriminate.
      - rewrite write_pages_S.
        destruct (get_send_packet_bytes item i 0 count _) as [pkt| |] eqn:Ep;
          [|discriminate
           |destruct (get_send_packet_bytes_halts _ _ _ _ _ Ep)].
        pose proof (exchange_outcome pkt (read_packet_len self) w) as Hx.
        destruct (exchange_block_with_radio pkt (read_packet_len self) w)
          as [[[flag r]| |] w1]; [|discriminate|contradiction].
        cbn [fst snd]. destruct (negb flag || _); [discriminate|].
        apply IH. }
    apply (Hh (Z.to_nat count) 0 w). rewrite Ew. reflexivity.
Qed.

Lemma region_upload_returns_witness :
  match fst (write_item_current_page_bytes HA1G [x01; x02; x03] 6
               (fresh (mkScript [device_reply 6 1 []] 4))) with
  | Ok v =>
      v = None /\ [x01; x02; x03] <> []
      /\ exists rs,
           region_uploaded HA1G 6 [x01; x02; x03]
             (fresh (mkScript [device_reply 6 1 []] 4))
             (snd (write_item_current_page_bytes HA1G [x01; x02; x03] 6
                     (fresh (mkScript [device_reply 6 1 []] 4)))) rs
  | Raise _ => True
  | Diverge => False
  end.
Proof.
  apply (@region_upload_returns Script Script_transport HA1G).
  reflexivity.
Defined.

(** An upload of three bytes to a scripted device that acknowledges. *)
Example region_upload_three_bytes :
  fst (write_item_current_page_bytes HA1G [x01; x02; x03] 6
         (fresh (mkScript [device_reply 6 1 []] 4)))
  = Ok None.
Proof. vm_compute. reflexivity. Qed.

(** ** The regions an upload writes *)

Lemma written_app (a b : list event) : written (a ++ b) = written a ++ written b.
Proof. unfold written. apply flat_map_app. Qed.

Lemma writes_only_weaken {D A} (P Q : Z -> Prop) (m : M D A) :
  (forall z, P z -> Q z) -> writes_only P m -> writes_only Q m.
Proof.
  intros HPQ Hm w. destruct (Hm w) as (tr & Hw & Hall).
  exists tr. split; [exact Hw|].
  revert Hall. apply Forall_impl. intros p. apply HPQ.
Qed.

Section UploadRegions.
Context {D : Type} {T : Transport D}.

Lemma writes_only_bind {A B} (P : Z -> Prop) (m : M D A) (k : A -> M D B) :
  writes_only P m -> (forall a, writes_only P (k a)) ->
  writes_only P (bind m k).
Proof.
  intros Hm Hk w. unfold bind.
  destruct (Hm w) as (tr & Hw & Hall).
  destruct (m w) as [[a|e|] w1]; cbn [snd] in *.
  - destruct (Hk a w1) as (tr2 & Hw2 & Hall2).
    exists (tr ++ tr2). split.
    + rewrite Hw2, Hw, app_assoc. reflexivity.
    + rewrite written_app. apply Forall_app. split; assumption.
  - exists tr. split; assumption.
  - exists tr. split; assumption.
Qed.

Lemma writes_only_quiet {A} (P : Z -> Prop) (m : M D A) :
  (forall w, wire (snd (m w)) = wire w) -> writes_only P m.
Proof.
  intros H w. exists []. rewrite app_nil_r. split; [apply H|constructor].
Qed.

Lemma write_pages_writes_only (self : Radio) (item_Bytes : bytes)
  (item plen count : Z) (n : nat) :
  0 <= item < 256 ->
  forall i, writes_only (eq item)
              (write_pages self n i item_Bytes item plen count).
Proof.
  intros Hitem. induction n as [|n IH]; intros i w.
  - exists []. rewrite app_nil_r. split; [reflexivity|constructor].
  - rewrite write_pages_S.
    destruct (get_send_packet_bytes item i 0 count (page plen i item_Bytes))
      as [pkt| |] eqn:Epkt.
    + pose proof (request_region_of_packet _ _ _ _ Hitem Epkt) as Hreg.
      pose proof (exchange_outcome pkt (read_packet_len self) w) as Hx.
      destruct (exchange_block_with_radio pkt (read_packet_len self) w)
        as [[[flag r]| |] w1]; [| |contradiction].
      * destruct Hx as (_ & Hwire & _). cbn [fst snd].
        destruct (negb flag || _).
        -- exists [Sent pkt; Received r]. split; [exact Hwire|].
           cbn. constructor; [congruence|constructor].
        -- set (w2 := mkWorld (pipe w1) (wire w1) (naps w1)
                        (status_cur w1 + Z.of_nat (length pkt))).
           destruct (IH (i + 1) w2) as (tr & Hw & Hall).
           exists ([Sent pkt; Received r] ++ tr). split.
           ++ rewrite Hw. subst w2. cbn [wire]. rewrite Hwire.
              rewrite <- !app_assoc. reflexivity.
           ++ rewrite written_app. apply Forall_app. split; [|exact Hall].
              cbn. constructor; [congruence|constructor].
      * destruct Hx as ([Hw|Hw] & _); cbn [snd].
        -- exists [SendFailed pkt]. split; [exact Hw|].
           cbn. constructor; [congruence|constructor].
        -- exists [Sent pkt; ReceiveFailed]. split; [exact Hw|].
           cbn. constructor; [congruence|constructor].
    + exists []. rewrite app_nil_r. split; [reflexivity|constructor].
    + exists []. rewrite app_nil_r. split; [reflexivity|constructor].
Qed.

Lemma write_item_writes_only (self : Radio) (item_Bytes : bytes) (item : Z) :
  0 <= item < 256 ->
  writes_only (eq item) (write_item_current_page_bytes self item_Bytes item).
Proof.
  intros Hitem. unfold write_item_current_page_bytes.
  destruct (is_empty item_Bytes);
    [apply writes_only_quiet; reflexivity|].
  apply writes_only_bind; [apply writes_only_quiet; reflexivity|].
  intros count. destruct (count =? 0);
    [apply writes_only_quiet; reflexivity|].
  apply writes_only_bind;
    [apply write_pages_writes_only; exact Hitem|].
  intros _. apply writes_only_quiet. reflexivity.
Qed.

Lemma write_regions_writes_only (self : Radio) (data_bytes : bytes)
  (items : list MemoryRegions) :
  writes_only
    (fun z => exists item,
        In item items
        /\ existsb (region_eqb item)
             [radioHead; radioInfo; radioVer; zoneData] = false
        /\ z = region_value item)
    (write_regions self items data_bytes).
Proof.
  induction items as [|item rest IH].
  - apply writes_only_quiet. reflexivity.
  - cbn [write_regions].
    destruct (existsb (region_eqb item) _) eqn:Eskip.
    + revert IH. apply writes_only_weaken.
      intros z (it & Hin & Hs & Hz). exists it.
      split; [right; exact Hin|]. split; assumption.
    + apply writes_only_bind.
      * apply (@writes_only_weaken _ _ (eq (region_value item)));
          [|apply write_item_writes_only, region_value_byte].
        intros z <-. exists item.
        split; [left; reflexivity|]. split; [exact Eskip|reflexivity].
      * intros _. revert IH. apply writes_only_weaken.
        intros z (it & Hin & Hs & Hz). exists it.
        split; [right; exact Hin|]. split; assumption.
Qed.
End UploadRegions.

(** X14. Every packet [write_items] writes, or tries to write, names one
    of the regions settingData, channelData, scanData, vfoScanData,
    alarmData and dTMFData at byte 14: the regions radioHead, radioInfo,
    radioVer and zoneData of the image are never sent to the radio,
    whatever the image holds and whatever the radio answers. *)
Theorem write_items_never_sends_skipped_regions {D} {T : Transport D}
  (self : Radio) (mmap : bytes) (w : World D) :
  exists tr,
    wire (snd (write_items self mmap w)) = wire w ++ tr
    /\ Forall (fun p =>
                 exists item,
                   In item [settingData; channelData; scanData;
                            vfoScanData; alarmData; dTMFData]
                   /\ request_region p = region_value item)
              (written tr).
Proof.
  unfold write_items, bind, set_status_cur.
  set (w0 := mkWorld (pipe w) (wire w) (naps w) 0).
  destruct (write_regions_writes_only self mmap all_regions w0)
    as (tr & Hw & Hall).
  exists tr. split; [exact Hw|].
  revert Hall. apply Forall_impl.
  intros p (item & Hin & Hskip & Hz). exists item. split; [|exact Hz].
  destruct item; cbn in Hskip; try discriminate; cbn; tauto.
Qed.

(** ** Sessions that do not transfer *)

Lemma py_slice_past_end {A} (a b : Z) (l : list A) :
  0 <= a -> 0 <= b -> Z.of_nat (length l) <= a ->
  py_slice (Some a) (Some b) l = [].
Proof.
  intros Ha Hb Hl. unfold py_slice, clip_index.
  destruct (Z.ltb_spec a 0); [lia|]. destruct (Z.ltb_spec b 0); [lia|].
  replace (Z.to_nat (Z.min b (Z.of_nat (length l))
                     - Z.min a (Z.of_nat (length l)))) with 0%nat by lia.
  reflexivity.
Qed.

(** X15. An image of 92 bytes or fewer has no byte of the first region
    that is uploaded: [write_items] raises [ValueError] without writing
    anything, and [do_upload], once the handshake has been accepted,
    turns this into the general communication error; the only thing
    that has changed is the progress counter, set to zero. *)
Theorem write_items_short_image {D} {T : Transport D}
  (self : Radio) (mmap : bytes) (w : World D) :
  (length mmap <= 92)%nat ->
  write_items self mmap w
  = (Raise (ValueError "item_bytes cannot be empty"),
     mkWorld (pipe w) (wire w) (naps w) 0)
  /\ (fst (handshake self w) = Ok Normal ->
      do_upload_guarded self mmap w
      = (Raise (RadioError "Unknown error communicating with radio"),
         mkWorld (pipe (snd (handshake self w))) (wire (snd (handshake self w)))
                 (naps (snd (handshake self w))) 0)).
Proof.
  intros Hlen.
  assert (Hw : forall w0 : World D,
             write_items self mmap w0
             = (Raise (ValueError "item_bytes cannot be empty"),
                mkWorld (pipe w0) (wire w0) (naps w0) 0)).
  { intros w0. unfold write_items, bind, set_status_cur.
    unfold all_regions. cbn [write_regions existsb region_eqb region_value
                             Z.eqb Pos.eqb orb].
    unfold get_write_item_bytes.
    cbn [ranges_get MEMORY_REGIONS_RANGES region_eqb region_value
         Z.eqb Pos.eqb].
    rewrite py_slice_past_end by lia.
    reflexivity. }
  split; [apply Hw|].
  intros Hh. unfold do_upload_guarded, try_except, bind.
  destruct (handshake self w) as [[s| |] w1]; cbn [fst snd] in *;
    try discriminate.
  assert (Es : s = Normal) by congruence. subst s. cbn [is_Normal].
  rewrite Hw. reflexivity.
Qed.

Lemma write_items_short_image_witness :
  write_items HA1G [x01; x02] (fresh (mkScript [] 3))
  = (Raise (ValueError "item_bytes cannot be empty"),
     fresh (mkScript [] 3)).
Proof.
  exact (proj1 (@write_items_short_image Script Script_transport HA1G
                  [x01; x02] (fresh (mkScript [] 3)) ltac:(cbn; lia))).
Defined.

(** X16. A handshake that is answered with a status other than [Normal]
    ends the session without any transfer: [do_download] and [do_upload]
    add to what the handshake left on the wire the write of the exit
    packet and nothing else, and raise [RadioError]: with the message
    that goes with the status when the exit packet went out ("Radio
    model mismatch", "Radio is password protected", and the general
    message otherwise), and with the message of
    [exit_programming_mode] when it did not. *)
Theorem refused_handshake_ends_session {D} {T : Transport D}
  (self : Radio) (mmap : bytes) (w : World D) (s : HandshakeStatuses) :
  fst (handshake self w) = Ok s -> s <> Normal ->
  let w1 := snd (handshake self w) in
  let refused :=
    RadioError (error_map_get s "Unknown error communicating with radio") in
  let no_exit := RadioError "Radio refused to exit programming mode" in
  ((wire (snd (do_download self w)) = wire w1 ++ [Sent exit_packet]
    /\ fst (do_download self w) = Raise refused)
   \/ (wire (snd (do_download self w)) = wire w1 ++ [SendFailed exit_packet]
       /\ fst (do_download self w) = Raise no_exit))
  /\ ((wire (snd (do_upload self mmap w)) = wire w1 ++ [Sent exit_packet]
       /\ fst (do_upload self mmap w) = Raise refused)
      \/ (wire (snd (do_upload self mmap w))
          = wire w1 ++ [SendFailed exit_packet]
          /\ fst (do_upload self mmap w) = Raise no_exit)).
Proof.
  intros Hs Hne. cbv zeta.
  assert (Hd : do_download_guarded self w
               = (Raise (RadioError
                           (error_map_get s
                              "Unknown error communicating with radio")),
                  snd (handshake self w))).
  { unfold do_download_guarded, try_except, bind.
    destruct (handshake self w) as [[s'| |] w1]; cbn [fst snd] in *;
      try discriminate.
    assert (Es : s' = s) by congruence. subst s'.
    destruct s; try contradiction; reflexivity. }
  assert (Hu : do_upload_guarded self mmap w
               = (Raise (RadioError
                           (error_map_get s
                              "Unknown error communicating with radio")),
                  snd (handshake self w))).
  { unfold do_upload_guarded, try_except, bind.
    destruct (handshake self w) as [[s'| |] w1]; cbn [fst snd] in *;
      try discriminate.
    assert (Es : s' = s) by congruence. subst s'.
    destruct s; try contradiction; reflexivity. }
  pose proof (exit_programming_mode_outcome (snd (handshake self w))) as Hx.
  split.
  - unfold do_download, try_finally. rewrite Hd.
    destruct (exit_programming_mode (snd (handshake self w)))
      as [[[]|e|] w2]; cbn [fst snd] in *.
    + left. destruct Hx as [[_ Hw]|[He _]]; [|discriminate].
      split; [exact Hw|reflexivity].
    + right. destruct Hx as [[He _]|[He Hw]]; [discriminate|].
      split; [exact Hw|congruence].
    + destruct Hx as [[He _]|[He _]]; discriminate.
  - unfold do_upload, try_finally. rewrite Hu.
    destruct (exit_programming_mode (snd (handshake self w)))
      as [[[]|e|] w2]; cbn [fst snd] in *.
    + left. destruct Hx as [[_ Hw]|[He _]]; [|discriminate].
      split; [exact Hw|reflexivity].
    + right. destruct Hx as [[He _]|[He Hw]]; [discriminate|].
      split; [exact Hw|congruence].
    + destruct Hx as [[He _]|[He _]]; discriminate.
Qed.

Lemma refused_handshake_ends_session_witness :
  fst (do_download HA1G (fresh (mkScript [device_reply 0 0 [x01]] 3)))
  = Raise (RadioError "Radio is password protected")
  \/ fst (do_download HA1G (fresh (mkScript [device_reply 0 0 [x01]] 3)))
     = Raise (RadioError "Radio refused to exit programming mode").
Proof.
  assert (H1 : fst (handshake HA1G
                      (fresh (mkScript [device_reply 0 0 [x01]] 3)))
               = Ok PwdWrong) by (vm_compute; reflexivity).
  assert (H2 : PwdWrong <> Normal) by discriminate.
  destruct (@refused_handshake_ends_session Script Script_transport HA1G []
              (fresh (mkScript [device_reply 0 0 [x01]] 3)) PwdWrong H1 H2)
    as [[[_ H]|[_ H]] _]; [left|right]; exact H.
Defined.

(** ** What [sync_in] and [sync_out] report *)

Section SyncFacts.
Context {D : Type} {T : Transport D}.

Lemma do_download_outcome (self : Radio) (w : World D) :
  (exists a, fst (do_download self w) = Ok a)
  \/ (exists msg, fst (do_download self w) = Raise (RadioError msg)).
Proof.
  assert (Hs : session_outcome (do_download_guarded self)
                 (do_download self) w).
  { apply try_finally_exit_outcome, normalized_outcome.
    apply halts_bind; [apply handshake_halts|]. intros s.
    destruct (is_Normal s); [apply read_items_halts | apply halts_raise]. }
  destruct Hs as [Hg [[_ Hr]|[_ Hr]]].
  - rewrite Hr. exact Hg.
  - right. eexists. exact Hr.
Qed.

Lemma do_upload_outcome (self : Radio) (mmap : bytes) (w : World D) :
  (exists a, fst (do_upload self mmap w) = Ok a)
  \/ (exists msg, fst (do_upload self mmap w) = Raise (RadioError msg)).
Proof.
  assert (Hs : session_outcome (do_upload_guarded self mmap)
                 (do_upload self mmap) w).
  { apply try_finally_exit_outcome, normalized_outcome.
    apply halts_bind; [apply handshake_halts|]. intros s.
    destruct (is_Normal s); [apply write_items_halts | apply halts_raise]. }
  destruct Hs as [Hg [[_ Hr]|[_ Hr]]].
  - rewrite Hr. exact Hg.
  - right. eexists. exact Hr.
Qed.
End SyncFacts.

(** X17. [sync_out] hides the reason of a failed upload.  It leaves the
    session as [do_upload] left it, returns when [do_upload] returned,
    and for every error of [do_upload], the messages "Radio model
    mismatch" and "Radio is password protected" included, raises
    [RadioError] with the one message "Unexpected error communicating
    with the radio". *)
Theorem sync_out_masks_errors {D} {T : Transport D}
  (self : Radio) (mmap : bytes) (w : World D) :
  snd (sync_out self mmap w) = snd (do_upload self mmap w)
  /\ match fst (do_upload self mmap w) with
     | Ok _ => fst (sync_out self mmap w) = Ok tt
     | Raise _ =>
         fst (sync_out self mmap w)
         = Raise (RadioError "Unexpected error communicating with the radio")
     | Diverge => False
     end.
Proof.
  pose proof (do_upload_outcome self mmap w) as Ho.
  unfold sync_out, try_except.
  destruct (do_upload self mmap w) as [[[]|e|] w1]; cbn [fst snd] in *.
  - split; reflexivity.
  - split; reflexivity.
  - destruct Ho as [[a Ha]|[msg Ha]]; discriminate.
Qed.

(** X18. [sync_in] passes on every error of [do_download] as it is: when
    [do_download] raises, the error is a [RadioError], [sync_in] raises
    the same error with the same message, the image is not parsed, and
    the session is left as [do_download] left it. *)
Theorem sync_in_forwards_errors {D} {T : Transport D}
  (process_mmap : bytes -> outcome unit) (str : exn -> string)
  (self : Radio) (w : World D) (e : exn) :
  fst (do_download self w) = Raise e ->
  sync_in process_mmap str self w = (Raise e, snd (do_download self w))
  /\ exists msg, e = RadioError msg.
Proof.
  intros He.
  pose proof (do_download_outcome self w) as Ho.
  rewrite He in Ho.
  assert (Hm : exists msg, e = RadioError msg).
  { destruct Ho as [[a Ha]|[msg Ha]]; [discriminate|].
    exists msg. congruence. }
  split; [|exact Hm].
  destruct Hm as [msg ->].
  unfold sync_in, try_except, bind.
  destruct (do_download self w) as [[a|e'|] w1]; cbn [fst snd] in *;
    try discriminate.
  assert (Ee : e' = RadioError msg) by congruence. subst e'.
  reflexivity.
Qed.

Lemma sync_in_forwards_errors_witness :
  fst (sync_in (fun _ => Ok tt) (fun _ => "error"%string) HA1G
         (fresh (mkScript [device_reply 0 0 [x01]] 3)))
  = Raise (RadioError "Radio is password protected").
Proof.
  assert (He : fst (do_download HA1G
                      (fresh (mkScript [device_reply 0 0 [x01]] 3)))
               = Raise (RadioError "Radio is password protected"))
    by (vm_compute; reflexivity).
  rewrite (proj1 (@sync_in_forwards_errors Script Script_transport
                    (fun _ => Ok tt) (fun _ => "error"%string) HA1G
                    (fresh (mkScript [device_reply 0 0 [x01]] 3)) _ He)).
  reflexivity.
Defined.

(** The same refusal seen through [sync_out]. *)
Example sync_out_password_protected :
  fst (sync_out HA1G [] (fresh (mkScript [device_reply 0 0 [x01]] 3)))
  = Raise (RadioError "Unexpected error communicating with the radio").
Proof. vm_compute. reflexivity. Qed.

(** * Further properties of the settings helpers *)

(** ** Swapping the bytes of a 16-bit value *)

(** X19. On a value of 16 bits [swap_high_low_bytes_16bit_int] exchanges
    the low and the high byte, and doing it twice gives the value
    back. *)
Theorem swap_high_low_bytes_involution (value : Z) :
  0 <= value < 65536 ->
  exists swapped,
    swap_high_low_bytes_16bit_int value = Ok swapped
    /\ swapped = 256 * (value mod 256) + value / 256
    /\ 0 <= swapped < 65536
    /\ swap_high_low_bytes_16bit_int swapped = Ok value.
Proof.
  intros Hv.
  assert (Hswap : forall v, 0 <= v < 65536 ->
            swap_high_low_bytes_16bit_int v
            = Ok (256 * (v mod 256) + v / 256)).
  { intros v Hr. unfold swap_high_low_bytes_16bit_int.
    cbn [struct_pack pack_field].
    destruct (Z.leb_spec 0 v); [|lia].
    destruct (Z.leb_spec v 65535); [|lia].
    cbn [andb app le16 unpack_H_big]. unfold le16. cbn [app unpack_H_big].
    rewrite !byte_val_of_Z.
    rewrite (Z.mod_small (v / 256) 256)
      by (split; [apply Z.div_pos; lia
                 |apply Z.div_lt_upper_bound; lia]).
    reflexivity. }
  pose proof (Z.mod_pos_bound value 256 ltac:(lia)) as Hm.
  assert (Hd : 0 <= value / 256 < 256)
    by (split; [apply Z.div_pos; lia|apply Z.div_lt_upper_bound; lia]).
  exists (256 * (value mod 256) + value / 256).
  split; [apply Hswap, Hv|]. split; [reflexivity|]. split; [lia|].
  rewrite Hswap by lia. f_equal.
  pose proof (Z.div_mod value 256 ltac:(lia)) as Hdm.
  set (a := value mod 256) in *. set (b := value / 256) in *.
  assert (Hq : (256 * a + b) / 256 = a)
    by (symmetry; apply (Z.div_unique (256 * a + b) 256 a b); lia).
  assert (Hr : (256 * a + b) mod 256 = b)
    by (symmetry; apply (Z.mod_unique (256 * a + b) 256 a b); lia).
  rewrite Hq, Hr. lia.
Qed.

Lemma swap_high_low_bytes_involution_witness :
  exists swapped,
    swap_high_low_bytes_16bit_int 0x1234 = Ok swapped
    /\ swapped = 256 * (0x1234 mod 256) + 0x1234 / 256
    /\ 0 <= swapped < 65536
    /\ swap_high_low_bytes_16bit_int swapped = Ok 0x1234.
Proof.
  apply (@swap_high_low_bytes_involution 0x1234). lia.
Defined.

(** ** The receive frequency of a channel *)

(** X20. [get_ch_rxfreq] gives a frequency the radio can hold: zero, or a
    value in one of the bands 134-174 MHz and 400-480 MHz; always a
    multiple of ten; zero exactly for an empty memory or a frequency of
    zero; and a value it gives is left as it is when given back. *)
Theorem get_ch_rxfreq_in_band (empty : bool) (freq : Z) :
  let f := get_ch_rxfreq empty freq in
  (f = 0 \/ 134000000 <= f <= 174000000 \/ 400000000 <= f <= 480000000)
  /\ f mod 10 = 0
  /\ (f = 0 <-> empty = true \/ freq = 0)
  /\ get_ch_rxfreq false f = f.
Proof.
  cbv zeta.
  assert (Hdm := Z.div_mod freq 10 ltac:(lia)).
  assert (Hmb := Z.mod_pos_bound freq 10 ltac:(lia)).
  assert (Hr : forall g, g mod 10 = 0 ->
             g = 0 \/ 134000000 <= g <= 174000000
             \/ 400000000 <= g <= 480000000 ->
             get_ch_rxfreq false g = g).
  { intros g Hg Hb. unfold get_ch_rxfreq.
    assert (Hgd := Z.div_mod g 10 ltac:(lia)).
    destruct (Z.eqb_spec g 0); [reflexivity|].
    destruct (Z.ltb_spec g 134000000); [lia|].
    destruct (Z.ltb_spec 174000000 g), (Z.ltb_spec g 400000000);
      cbn [andb]; try lia;
      destruct (Z.ltb_spec 480000000 g); lia. }
  assert (Hm : get_ch_rxfreq empty freq mod 10 = 0).
  { unfold get_ch_rxfreq. destruct empty; [reflexivity|].
    destruct (Z.eqb_spec freq 0); [subst; reflexivity|].
    destruct (Z.ltb_spec freq 134000000); [reflexivity|].
    destruct ((174000000 <? freq) && (freq <? 400000000)); [reflexivity|].
    destruct (Z.ltb_spec 480000000 freq); [reflexivity|].
    apply Z.mod_mul. lia. }
  assert (Hb : get_ch_rxfreq empty freq = 0
               \/ 134000000 <= get_ch_rxfreq empty freq <= 174000000
               \/ 400000000 <= get_ch_rxfreq empty freq <= 480000000).
  { unfold get_ch_rxfreq. destruct empty; [lia|].
    destruct (Z.eqb_spec freq 0); [lia|].
    destruct (Z.ltb_spec freq 134000000); [lia|].
    destruct (Z.ltb_spec 174000000 freq), (Z.ltb_spec freq 400000000);
      cbn [andb]; try lia;
      destruct (Z.ltb_spec 480000000 freq); lia. }
  split; [exact Hb|]. split; [exact Hm|]. split; [|apply Hr; assumption].
  unfold get_ch_rxfreq. destruct empty; [intuition lia|].
  destruct (Z.eqb_spec freq 0); [intuition lia|].
  destruct (Z.ltb_spec freq 134000000); [intuition (try discriminate; lia)|].
  destruct (Z.ltb_spec 174000000 freq), (Z.ltb_spec freq 400000000);
    cbn [andb]; try (intuition (try discriminate; lia));
    destruct (Z.ltb_spec 480000000 freq);
    intuition (try discriminate; lia).
Qed.

(** ** The band selection *)

Lemma list_index_range (opts : list string) (v : string) (i : Z) :
  list_index opts v = Ok i -> 0 <= i < Z.of_nat (length opts).
Proof.
  revert i. induction opts as [|o rest IH]; intros i; cbn [list_index length].
  - discriminate.
  - destruct (String.eqb o v).
    + intros E. assert (i = 0) by congruence. lia.
    + destruct (list_index rest v) as [j| |]; try discriminate.
      intros E. assert (i = j + 1) by congruence.
      specialize (IH j eq_refl). lia.
Qed.

(** X21. Choosing a band selection and showing it again: for the choice
    at place 0, 1, 2 or 3 of the list, [set_band_selection] writes two
    fields from which [get_band_selection] gives the same place; a
    choice at a later place is stored as the first one. *)
Theorem band_selection_round_trip (opts : list string) (v : string) (i : Z) :
  list_index opts v = Ok i ->
  exists f,
    set_band_selection v opts = Ok f
    /\ get_band_selection (homeselect f) (homeindex f)
       = (if i <=? 3 then i else 0).
Proof.
  intros Hi. pose proof (list_index_range opts v Hi) as Hr.
  unfold set_band_selection. rewrite Hi.
  destruct (Z.eqb_spec i 3); [subst; eexists; split; reflexivity|].
  destruct (Z.eqb_spec i 2); [subst; eexists; split; reflexivity|].
  destruct (Z.eqb_spec i 1); [subst; eexists; split; reflexivity|].
  eexists. split; [reflexivity|]. cbn.
  destruct (Z.leb_spec i 3); lia.
Qed.

Lemma band_selection_round_trip_witness :
  exists f,
    set_band_selection "Band A & Band B"
      ["Band A"; "Band B"; "Band A & Band B"; "Band B & Band A"]%string
    = Ok f
    /\ get_band_selection (homeselect f) (homeindex f) = 2.
Proof.
  apply (@band_selection_round_trip
           ["Band A"; "Band B"; "Band A & Band B"; "Band B & Band A"]%string
           "Band A & Band B" 2).
  reflexivity.
Defined.

(** ** Lists of choices *)

Lemma get_item_by_id_from_found (items : list choice) (value : Z) :
  In value (map choice_id items) ->
  forall i,
    get_item_by_id_from i items value
    = i + get_item_by_id_from 0 items value
    /\ 0 <= get_item_by_id_from 0 items value < Z.of_nat (length items).
Proof.
  induction items as [|item rest IH]; intros Hin i; [destruct Hin|].
  cbn [get_item_by_id_from length].
  destruct (Z.eqb_spec (choice_id item) value) as [E|E]; [lia|].
  destruct Hin as [Hin|Hin]; [contradiction|].
  destruct (IH Hin (i + 1)) as [H1 Hr].
  destruct (IH Hin (0 + 1)) as [H2 _].
  rewrite H1, H2. lia.
Qed.

Lemma first_id_named_found (items : list choice) (name : string) (d d' : Z) :
  In name (map choice_name items) ->
  first_id_named items name d = first_id_named items name d'.
Proof.
  induction items as [|item rest IH]; intros Hin; [destruct Hin|].
  cbn [first_id_named].
  destruct (String.eqb_spec (choice_name item) name) as [E|E];
    [reflexivity|].
  destruct Hin as [Hin|Hin]; [contradiction|]. exact (IH Hin).
Qed.

Lemma round_trip_of_choices (items : list choice) (value : Z) :
  NoDup (map choice_name items) ->
  In value (map choice_id items) ->
  forall d,
    nth_error (map choice_name items)
              (Z.to_nat (get_item_by_id_from 0 items value))
    = Some (get_item_name_by_id items value)
    /\ In (get_item_name_by_id items value) (map choice_name items)
    /\ first_id_named items (get_item_name_by_id items value) d = value.
Proof.
  induction items as [|item rest IH]; intros Hnd Hin d; [destruct Hin|].
  cbn [map] in Hnd. apply NoDup_cons_iff in Hnd. destruct Hnd as [Hni Hnd].
  cbn [get_item_by_id_from get_item_name_by_id first_id_named map].
  destruct (Z.eqb_spec (choice_id item) value) as [E|E].
  - rewrite String.eqb_refl. split; [reflexivity|].
    split; [left; reflexivity|exact E].
  - destruct Hin as [Hin|Hin]; [contradiction|].
    destruct (IH Hnd Hin d) as (Hn & Hname & Hid).
    destruct (@get_item_by_id_from_found rest value Hin (0 + 1))
      as [Hshift Hr].
    rewrite Hshift.
    replace (Z.to_nat (0 + 1 + get_item_by_id_from 0 rest value))
      with (S (Z.to_nat (get_item_by_id_from 0 rest value))) by lia.
    cbn [nth_error]. split; [exact Hn|]. split; [right; exact Hname|].
    destruct (String.eqb_spec (choice_name item)
                (get_item_name_by_id rest value)) as [En|En].
    + exfalso. apply Hni. rewrite En. exact Hname.
    + exact Hid.
Qed.

(** X22. Showing a stored id as a choice and storing the choice shown: in
    a list of choices with distinct names, [get_item_by_id] gives the
    place of an id of the list, the name shown at that place is the one
    [get_item_name_by_id] gives, and [get_item_by_name] of that name is
    the id again. *)
Theorem choice_round_trip (items : list choice) (value : Z) :
  NoDup (get_namedict_by_items items) ->
  In value (map choice_id items) ->
  let shown := get_item_by_id items value in
  0 <= shown < Z.of_nat (length items)
  /\ nth_error (get_namedict_by_items items) (Z.to_nat shown)
     = Some (get_item_name_by_id items value)
  /\ get_item_by_name items (get_item_name_by_id items value) = value.
Proof.
  intros Hnd Hin. cbv zeta. unfold get_item_by_id, get_item_by_name.
  destruct (@get_item_by_id_from_found items value Hin 0) as [_ Hr].
  destruct (@round_trip_of_choices items value Hnd Hin
              (match items with
               | item :: _ => choice_id item
               | [] => 0
               end)) as (Hn & _ & Hid).
  split; [exact Hr|]. split; [exact Hn|exact Hid].
Qed.

Lemma choice_round_trip_witness :
  0 <= get_item_by_id
         [ {| choice_name := "Off"; choice_id := 0 |};
           {| choice_name := "Alarm 2"; choice_id := 7 |} ] 7 < 2
  /\ nth_error
       (get_namedict_by_items
          [ {| choice_name := "Off"; choice_id := 0 |};
            {| choice_name := "Alarm 2"; choice_id := 7 |} ])
       (Z.to_nat
          (get_item_by_id
             [ {| choice_name := "Off"; choice_id := 0 |};
               {| choice_name := "Alarm 2"; choice_id := 7 |} ] 7))
     = Some "Alarm 2"%string
  /\ get_item_by_name
       [ {| choice_name := "Off"; choice_id := 0 |};
         {| choice_name := "Alarm 2"; choice_id := 7 |} ]
       "Alarm 2" = 7.
Proof.
  apply (@choice_round_trip
           [ {| choice_name := "Off"; choice_id := 0 |};
             {| choice_name := "Alarm 2"; choice_id := 7 |} ] 7).
  - repeat constructor; cbn; intuition discriminate.
  - cbn. tauto.
Defined.

(** X23. An id that is not in the list is shown as the first choice, and
    a name that is not in the list is stored as the id of the first
    choice: what the radio held is replaced by the first choice when the
    setting is applied. *)
Theorem unknown_choice_becomes_first (items : list choice) (value : Z)
  (name : string) :
  ~ In value (map choice_id items) ->
  ~ In name (map choice_name items) ->
  get_item_by_id items value = 0
  /\ get_item_name_by_id items value = ""%string
  /\ get_item_by_name items name
     = match items with item :: _ => choice_id item | [] => 0 end.
Proof.
  intros Hv Hn. unfold get_item_by_id, get_item_by_name.
  generalize (match items with item :: _ => choice_id item | [] => 0 end).
  intros d. generalize 0 at 1. revert Hv Hn.
  induction items as [|item rest IH]; intros Hv Hn i.
  - repeat split.
  - cbn [get_item_by_id_from get_item_name_by_id first_id_named].
    cbn [map In] in Hv, Hn.
    destruct (Z.eqb_spec (choice_id item) value); [tauto|].
    destruct (String.eqb_spec (choice_name item) name); [tauto|].
    apply IH; tauto.
Qed.

Lemma unknown_choice_becomes_first_witness :
  get_item_by_id [ {| choice_name := "Off"; choice_id := 5 |} ] 9 = 0
  /\ get_item_name_by_id [ {| choice_name := "Off"; choice_id := 5 |} ] 9
     = ""%string
  /\ get_item_by_name [ {| choice_name := "Off"; choice_id := 5 |} ] "On" = 5.
Proof.
  apply (@unknown_choice_becomes_first
           [ {| choice_name := "Off"; choice_id := 5 |} ] 9 "On").
  - cbn. intuition discriminate.
  - cbn. intuition discriminate.
Defined.

(** ** Cleaning a text *)

Lemma string_app_assoc (a b c : string) :
  ((a ++ b) ++ c = a ++ (b ++ c))%string.
Proof. induction a as [|x a IH]; cbn; [reflexivity|]. rewrite IH. reflexivity. Qed.

Lemma string_app_nil_r (a : string) : (a ++ "" = a)%string.
Proof. induction a as [|x a IH]; cbn; [reflexivity|]. rewrite IH. reflexivity. Qed.

Lemma string_length_list (s : string) :
  String.length s = length (list_ascii_of_string s).
Proof. induction s as [|x s IH]; cbn; [reflexivity|]. rewrite IH. reflexivity. Qed.

Lemma list_ascii_inj (a b : string) :
  list_ascii_of_string a = list_ascii_of_string b -> a = b.
Proof.
  intros H. rewrite <- (string_of_list_ascii_of_string a), H.
  apply string_of_list_ascii_of_string.
Qed.

Section FilterFacts.
Variable upper : ascii -> string.

Lemma filter_chars_plain (chars : list ascii) (char_set s_ : string) :
  Text.filter_chars upper chars char_set false s_
  = (s_ ++ string_of_list_ascii (List.filter (Text.kept char_set) chars))%string.
Proof.
  revert s_. induction chars as [|x rest IH]; intros s_.
  - cbn. rewrite string_app_nil_r. reflexivity.
  - cbn [Text.filter_chars List.filter]. rewrite IH. unfold Text.kept at 2.
    destruct (Text.occurs_in (String x EmptyString) char_set).
    + rewrite string_app_assoc. reflexivity.
    + rewrite string_app_nil_r. reflexivity.
Qed.

Lemma filter_plain (s char_set : string) (max_length : Z) :
  list_ascii_of_string (Text.filter upper s char_set max_length false)
  = List.filter (Text.kept char_set)
      (firstn (Z.to_nat (Z.min max_length (Z.of_nat (String.length s))))
              (list_ascii_of_string s)).
Proof.
  unfold Text.filter. rewrite filter_chars_plain. cbn [String.append].
  apply list_ascii_of_string_of_list_ascii.
Qed.

Lemma filter_length_le {A} (f : A -> bool) (l : list A) :
  (length (List.filter f l) <= length l)%nat.
Proof.
  induction l as [|x l IH]; cbn; [lia|]. destruct (f x); cbn; lia.
Qed.

Lemma In_firstn_of {A} (x : A) (n : nat) (l : list A) :
  In x (firstn n l) -> In x l.
Proof.
  intros H. rewrite <- (firstn_skipn n l). apply in_or_app. left. exact H.
Qed.

Lemma filter_all_kept {A} (f : A -> bool) (l : list A) :
  (forall x, In x l -> f x = true) -> List.filter f l = l.
Proof.
  induction l as [|x l IH]; intros H; cbn; [reflexivity|].
  rewrite (H x) by (left; reflexivity).
  rewrite IH by (intros y Hy; apply H; right; exact Hy). reflexivity.
Qed.

End FilterFacts.

(** X24. [filter] without the upper-case option.  The text it gives is
    not longer than [max_length] nor than the text given; every
    character of it is a character of the text given that occurs in
    [char_set]; cleaning it again changes nothing; and a text that is
    short enough and made of characters of [char_set] comes back as it
    is. *)
Theorem filter_keeps_allowed_characters (upper : ascii -> string)
  (s char_set : string) (max_length : Z) :
  let cleaned := Text.filter upper s char_set max_length false in
  Z.of_nat (String.length cleaned)
  <= Z.max 0 (Z.min max_length (Z.of_nat (String.length s)))
  /\ (forall x, In x (list_ascii_of_string cleaned) ->
        Text.kept char_set x = true
        /\ In x (list_ascii_of_string s))
  /\ Text.filter upper cleaned char_set max_length false = cleaned
  /\ ((forall x, In x (list_ascii_of_string s) ->
         Text.kept char_set x = true) ->
      Z.of_nat (String.length s) <= max_length ->
      cleaned = s).
Proof.
  cbv zeta.
  set (n := Z.to_nat (Z.min max_length (Z.of_nat (String.length s)))).
  pose proof (filter_plain upper s char_set max_length) as Hc. fold n in Hc.
  assert (Hlen : (length (list_ascii_of_string
                            (Text.filter upper s char_set max_length false))
                  <= n)%nat).
  { rewrite Hc. etransitivity; [apply filter_length_le|].
    rewrite length_firstn. lia. }
  rewrite <- string_length_list in Hlen.
  split; [lia|].
  split.
  { intros x Hx. rewrite Hc in Hx. apply filter_In in Hx.
    destruct Hx as [Hin Hk]. split; [exact Hk|].
    exact (In_firstn_of _ _ _ Hin). }
  split.
  { apply list_ascii_inj. rewrite filter_plain.
    rewrite firstn_all2 by (rewrite <- string_length_list; lia).
    apply filter_all_kept. intros x Hx. rewrite Hc in Hx.
    apply filter_In in Hx. exact (proj2 Hx). }
  intros Hall Hmax.
  apply list_ascii_inj. rewrite Hc.
  rewrite firstn_all2 by (rewrite <- string_length_list; lia).
  apply filter_all_kept. exact Hall.
Qed.

(** A name with a character outside the set, cut to twelve characters. *)
Example filter_channel_name :
  Text.filter (fun x => String x EmptyString)
    "Call {ch} 123456789" "Calch 123456789" 12 false
  = "Call ch 12"%string.
Proof. vm_compute. reflexivity. Qed.

(** * Further properties of the download *)

(** ** A region that was downloaded is in the image *)

Lemma Forall_eq_repeat {A} (x : A) (l : list A) :
  Forall (eq x) l -> l = repeat x (length l).
Proof.
  induction 1 as [|y l Hy _ IH]; [reflexivity|].
  cbn. rewrite <- IH, Hy. reflexivity.
Qed.

Lemma pad_then_cut {A} (x : A) (v : list A) (L : nat) :
  firstn L (v ++ skipn (length v) (repeat x L))
  = firstn L (v ++ repeat x L).
Proof.
  rewrite !firstn_app. apply (f_equal (app (firstn L v))).
  assert (H1 : Forall (eq x) (firstn (L - length v)
                                (skipn (length v) (repeat x L)))).
  { apply Forall_firstn_of, Forall_skipn_of, Forall_forall.
    intros y Hy. symmetry. exact (repeat_spec _ _ _ Hy). }
  assert (H2 : Forall (eq x) (firstn (L - length v) (repeat x L))).
  { apply Forall_firstn_of, Forall_forall.
    intros y Hy. symmetry. exact (repeat_spec _ _ _ Hy). }
  rewrite (Forall_eq_repeat H1), (Forall_eq_repeat H2).
  f_equal. rewrite !length_firstn, length_skipn, !repeat_length. lia.
Qed.

Lemma region_of_blank (n : nat) (item : MemoryRegions) :
  52114 <= Z.of_nat n ->
  exists start len,
    ranges_get MEMORY_REGIONS_RANGES item = Some (start, len)
    /\ 0 <= len
    /\ get_write_item_bytes (repeat x00 n) item = repeat x00 (Z.to_nat len).
Proof.
  intros Hn.
  pose proof (zero_filled_blank n item) as Hz. unfold zero_filled in Hz.
  apply Forall_eq_repeat in Hz. revert Hz.
  unfold get_write_item_bytes.
  destruct item; cbn [ranges_get MEMORY_REGIONS_RANGES region_eqb
                      region_value Z.eqb Pos.eqb];
    intros Hz; eexists; eexists; (split; [reflexivity|]);
    (split; [lia|]); rewrite Hz at 1; f_equal;
    rewrite py_slice_window by (rewrite ?repeat_length; lia);
    rewrite length_firstn, length_skipn, repeat_length; lia.
Qed.

Lemma read_item_reads_back (all_bytes item_bytes : bytes)
  (item : MemoryRegions) :
  52114 <= Z.of_nat (length all_bytes) ->
  get_write_item_bytes
    (read_item_handle_connect_event all_bytes item_bytes item) item
  = firstn (length (get_write_item_bytes all_bytes item))
      (item_bytes
       ++ skipn (length item_bytes) (get_write_item_bytes all_bytes item)).
Proof.
  intros Hlen.
  unfold read_item_handle_connect_event, get_write_item_bytes.
  destruct item; cbn [ranges_get MEMORY_REGIONS_RANGES region_eqb
                      region_value Z.eqb Pos.eqb];
    apply region_write_reads_back; lia.
Qed.

Lemma read_regions_store {D} {T : Transport D} (self : Radio)
  (item : MemoryRegions) (rest : list MemoryRegions)
  (all_bytes : bytes) (w : World D) (item_bytes : bytes) :
  fst (get_read_current_packet_bytes self (region_value item) w)
  = Ok item_bytes ->
  read_regions self (item :: rest) all_bytes w
  = read_regions self rest
      (if negb (is_empty item_bytes)
       then read_item_handle_connect_event all_bytes item_bytes item
       else all_bytes)
      (snd (get_read_current_packet_bytes self (region_value item) w)).
Proof.
  intros E. rewrite read_regions_cons. unfold try_except, bind.
  destruct (get_read_current_packet_bytes self (region_value item) w)
    as [[ib|e'|] w1]; try discriminate E.
  cbn [fst snd] in *. assert (Eib : ib = item_bytes) by congruence.
  subst ib. destruct (negb (is_empty item_bytes)); reflexivity.
Qed.

(** X25. A region whose download returns is in the image [read_items]
    gives, at the place of the region: its bytes as received, cut to the
    length of the region when more were received, and followed by zero
    bytes up to that length when fewer were.  [pre] are the regions read
    before [item], which left the image [img1] and the state [w1]. *)
Theorem read_items_stores_downloaded_region {D} {T : Transport D}
  (self : Radio) (w : World D)
  (pre post : list MemoryRegions) (item : MemoryRegions)
  (img1 item_bytes all_bytes : bytes) (w1 : World D) :
  52114 <= _memsize self ->
  all_regions = pre ++ item :: post ->
  read_regions self pre (repeat x00 (Z.to_nat (_memsize self)))
               (snd (set_status_cur 0 w)) = (Ok img1, w1) ->
  fst (get_read_current_packet_bytes self (region_value item) w1)
  = Ok item_bytes ->
  fst (read_items self w) = Ok all_bytes ->
  exists start len,
    ranges_get MEMORY_REGIONS_RANGES item = Some (start, len)
    /\ get_write_item_bytes all_bytes item
       = firstn (Z.to_nat len) (item_bytes ++ repeat x00 (Z.to_nat len)).
Proof.
  intros Hm Hsplit Hpre Hget Hall.
  set (blank := repeat x00 (Z.to_nat (_memsize self))) in *.
  set (w0 := snd (set_status_cur 0 w)) in *.
  assert (Hb : 52114 <= Z.of_nat (length blank))
    by (unfold blank; rewrite repeat_length; lia).
  rewrite read_items_unfold in Hall by lia. fold blank w0 in Hall.
  pose proof all_regions_NoDup as Hnd. rewrite Hsplit in Hnd.
  apply NoDup_remove_2 in Hnd.
  destruct (read_regions_keeps self pre blank w0 Hb) as (i1 & Hr1 & Hl1 & Hk1).
  rewrite Hpre in Hr1. cbn [fst] in Hr1.
  assert (Ei1 : i1 = img1) by congruence. subst i1.
  assert (H1 : 52114 <= Z.of_nat (length img1)) by (rewrite Hl1; exact Hb).
  assert (Hold : get_write_item_bytes img1 item
                 = get_write_item_bytes blank item).
  { apply Hk1. intros Hin. apply Hnd, in_or_app. left. exact Hin. }
  destruct (@region_of_blank (Z.to_nat (_memsize self)) item ltac:(lia))
    as (start & len & Hrange & Hlen0 & Hblank).
  fold blank in Hblank.
  exists start, len. split; [exact Hrange|].
  set (w2 := snd (get_read_current_packet_bytes self (region_value item) w1)).
  set (img2 := if negb (is_empty item_bytes)
               then read_item_handle_connect_event img1 item_bytes item
               else img1).
  assert (Hall2 : fst (read_regions self post img2 w2) = Ok all_bytes).
  { rewrite <- Hall, Hsplit.
    rewrite (read_regions_app self pre (item :: post) _ _ Hpre).
    symmetry. apply (f_equal fst).
    apply (read_regions_store self item post img1 w1 Hget). }
  assert (H2 : 52114 <= Z.of_nat (length img2)).
  { unfold img2. destruct (negb (is_empty item_bytes)); [|exact H1].
    rewrite (proj1 (read_item_keeps img1 item_bytes item item H1)).
    exact H1. }
  destruct (read_regions_keeps self post img2 w2 H2) as (i2 & Hr2 & _ & Hk2).
  assert (Ei2 : i2 = all_bytes) by congruence. subst i2.
  rewrite Hk2 by (intros Hin; apply Hnd, in_or_app; right; exact Hin).
  unfold img2. destruct (is_empty item_bytes) eqn:Ee; cbn [negb].
  - apply is_empty_nil in Ee. subst item_bytes. cbn [app].
    rewrite Hold, Hblank.
    symmetry. apply firstn_all2. rewrite repeat_length. lia.
  - rewrite read_item_reads_back by exact H1.
    rewrite Hold, Hblank, repeat_length. apply pad_then_cut.
Qed.

Lemma read_items_stores_downloaded_region_witness :
  exists start len,
    ranges_get MEMORY_REGIONS_RANGES radioHead = Some (start, len)
    /\ get_write_item_bytes
         (match fst (read_items HA1G
                       (fresh (mkScript [device_reply 2 1 [x05; x06]] 40)))
          with Ok all_bytes => all_bytes | _ => [] end)
         radioHead
       = firstn (Z.to_nat len) ([x05; x06] ++ repeat x00 (Z.to_nat len)).
Proof.
  set (w := fresh (mkScript [device_reply 2 1 [x05; x06]] 40)).
  pose proof (@read_regions_keeps Script Script_transport HA1G all_regions
                (repeat x00 (Z.to_nat (_memsize HA1G)))
                (snd (set_status_cur 0 w))
                ltac:(rewrite repeat_length; cbn; lia))
    as (all_bytes & Hr & _).
  assert (Hall : fst (read_items HA1G w) = Ok all_bytes).
  { rewrite read_items_unfold by (cbn; lia). exact Hr. }
  rewrite Hall.
  apply (@read_items_stores_downloaded_region Script Script_transport HA1G w
           [] [radioInfo; radioVer; settingData; zoneData; channelData;
               scanData; vfoScanData; alarmData; dTMFData]
           radioHead _ [x05; x06] all_bytes _
           ltac:(cbn; lia) eq_refl eq_refl).
  - vm_compute. reflexivity.
  - exact Hall.
Defined.

(** ** A download after an accepted handshake *)

(** X26. Once the handshake has been accepted, [do_download] cannot
    fail on the transfer: whatever the radio answers or fails to answer
    afterwards, the guarded part returns an image of [_memsize] bytes.
    What [do_download] then gives depends on the write of the exit
    packet alone: when the serial line takes it, the packet is the last
    thing on the wire and [do_download] returns that image; when the
    serial line raises, the failed write is the last thing on the wire
    and [do_download] raises the error of [exit_programming_mode].
    Regions that could not be read are not reported. *)
Theorem do_download_returns_image {D} {T : Transport D}
  (self : Radio) (w : World D) :
  52114 <= _memsize self ->
  fst (handshake self w) = Ok Normal ->
  exists all_bytes,
    fst (do_download_guarded self w) = Ok all_bytes
    /\ Z.of_nat (length all_bytes) = _memsize self
    /\ match fst (pipe_write exit_packet
                   (pipe (snd (do_download_guarded self w)))) with
       | None =>
           fst (do_download self w) = Ok all_bytes
           /\ wire (snd (do_download self w))
              = wire (snd (do_download_guarded self w))
                ++ [Sent exit_packet]
       | Some _ =>
           fst (do_download self w)
           = Raise (RadioError "Radio refused to exit programming mode")
           /\ wire (snd (do_download self w))
              = wire (snd (do_download_guarded self w))
                ++ [SendFailed exit_packet]
       end.
Proof.
  intros Hm Hh.
  set (w1 := snd (handshake self w)).
  set (blank := repeat x00 (Z.to_nat (_memsize self))).
  assert (Hb : 52114 <= Z.of_nat (length blank))
    by (unfold blank; rewrite repeat_length; lia).
  destruct (read_regions_keeps self all_regions blank
              (snd (set_status_cur 0 w1)) Hb) as (img & Hr & Hl & _).
  assert (Hread : fst (read_items self w1) = Ok img).
  { rewrite read_items_unfold by lia. exact Hr. }
  assert (Hg : do_download_guarded self w
               = (Ok img, snd (read_items self w1))).
  { unfold do_download_guarded, try_except, bind. fold w1 in Hh |- *.
    destruct (handshake self w) as [[s| |] w1'] eqn:Eh; cbn [fst snd] in *;
      try discriminate.
    assert (Es : s = Normal) by congruence. subst s. cbn [is_Normal].
    subst w1. cbn [snd] in *.
    destruct (read_items self w1') as [[a| |] w2]; cbn [fst snd] in *;
      try discriminate.
    congruence. }
  exists img. split; [rewrite Hg; reflexivity|].
  split; [rewrite Hl; unfold blank; rewrite repeat_length; lia|].
  unfold do_download, try_finally. rewrite Hg. cbn [snd].
  set (w2 := snd (read_items self w1)).
  unfold exit_programming_mode.
  change (get_send_packet_bytes 111 0 0 1 [x00]) with (Ok exit_packet).
  unfold try_except, bind, lift, serial_write, raise.
  destruct (pipe_write exit_packet (pipe w2)) as [[e|] d]; cbn;
    split; reflexivity.
Qed.

Lemma do_download_returns_image_witness :
  exists all_bytes,
    fst (do_download HA1G
           (fresh (mkScript [device_reply 0 0 (ascii_bytes "HA1G")] 40)))
    = Ok all_bytes
    /\ Z.of_nat (length all_bytes) = _memsize HA1G.
Proof.
  set (w := fresh (mkScript [device_reply 0 0 (ascii_bytes "HA1G")] 40)).
  assert (Hm : 52114 <= _memsize HA1G) by (cbn; lia).
  assert (Hh : fst (handshake HA1G w) = Ok Normal)
    by (vm_compute; reflexivity).
  destruct (@do_download_returns_image Script Script_transport HA1G w Hm Hh)
    as (all_bytes & _ & Hl & Hx).
  assert (Hw : fst (pipe_write exit_packet
                      (pipe (snd (do_download_guarded HA1G w)))) = None)
    by (vm_compute; reflexivity).
  rewrite Hw in Hx.
  exists all_bytes. split; [exact (proj1 Hx) | exact Hl].
Defined.

(** ** Where the handshake classifier raises *)

Lemma py_slice_pair_length {A} (l : list A) (x y : A) :
  py_slice (Some 14) (Some 16) l = [x; y] -> (16 <= length l)%nat.
Proof.
  intros H. apply (f_equal (@length A)) in H. revert H.
  unfold py_slice, clip_index. cbn [length].
  change (14 <? 0) with false. change (16 <? 0) with false. cbv iota.
  rewrite length_firstn, length_skipn. lia.
Qed.

(** X27. For a model name made of ASCII characters the classifier gives
    one of its four outcomes on every response but those that carry 00
    01 at bytes 14 and 15 and are 16 to 20 bytes long: on these, and
    only on these, it raises, and what it raises is the index error of
    reading byte 20. *)
Theorem handshake_classifier_raises_iff (self : Radio)
  (dataByte name : bytes) :
  encode_ascii (MODEL self) = Ok name ->
  match handshake_handle_connect_event self dataByte with
  | Ok _ =>
      py_slice (Some 14) (Some 16) dataByte <> [x00; x01]
      \/ (21 <= length dataByte)%nat
  | Raise e =>
      e = IndexError
      /\ py_slice (Some 14) (Some 16) dataByte = [x00; x01]
      /\ (16 <= length dataByte <= 20)%nat
  | Diverge => False
  end.
Proof.
  intros He. unfold handshake_handle_connect_event.
  destruct (bytes_eqb (py_slice (Some 14) (Some 16) dataByte) [x00; x01])
    eqn:Em.
  - apply bytes_eqb_eq in Em.
    pose proof (py_slice_pair_length _ Em) as Hlen.
    destruct (nth_error dataByte 20) as [b20|] eqn:E.
    + assert (Hl : (20 < length dataByte)%nat)
        by (apply nth_error_Some; congruence).
      rewrite He.
      destruct (negb (byte_val b20 =? 1)); [|right; lia].
      destruct (bytes_eqb _ name); right; lia.
    + apply nth_error_None in E. repeat split; try assumption; lia.
  - left. intros Hm. apply bytes_eqb_eq in Hm. congruence.
Qed.

Lemma handshake_classifier_raises_iff_witness :
  match handshake_handle_connect_event HA1G short_marked_response with
  | Ok _ =>
      py_slice (Some 14) (Some 16) short_marked_response <> [x00; x01]
      \/ (21 <= length short_marked_response)%nat
  | Raise e =>
      e = IndexError
      /\ py_slice (Some 14) (Some 16) short_marked_response = [x00; x01]
      /\ (16 <= length short_marked_response <= 20)%nat
  | Diverge => False
  end.
Proof.
  apply (@handshake_classifier_raises_iff HA1G short_marked_response
           (ascii_bytes "HA1G")).
  vm_compute. reflexivity.
Defined.
